(** * A shallow embedding of the squashfs reader

    The development follows the Go sources of the archive reader:
    the superblock and decompressor dispatch of [NewSquashfsReader], the
    directory decoder of package [directory], the dispatch of
    [inode.ProcessInode], the [File] and [FileFS] views, the [fileReader]
    data stream, and the file tree of the [Writer].  Go values are modelled
    as follows.

    - unsigned and signed machine integers are [Z] with the wrap-around of
      the Go type written out ([u16], [u32], [to_int64]);
    - byte buffers are [list byte], Go strings are [string];
    - a Go call either returns normally, returns a non-nil [error], panics,
      or is still running when the fuel of the model is used up: this is
      the type [outcome]. *)

From Stdlib.Strings Require Import String Ascii Byte.
From Stdlib Require Import ZArith List Bool Lia Arith.
Import ListNotations.

Open Scope string_scope.
Open Scope list_scope.
Open Scope Z_scope.

(** ** Errors and outcomes *)

(** The error values the package and the Go library functions it calls can
    return.  [PathError] is [*fs.PathError]; [errOther] stands for an error
    of a function that lies outside the sources at hand. *)
Inductive error : Type :=
| io_EOF
| io_ErrUnexpectedEOF
| errNoMagic
| errBlockLog
| errIncompatibleCompression
| errXzFilters
| ErrOptions
| errNotDirectory
| errReadDirNonDir
| errPathIsNotFile
| errNoReader
| fs_ErrInvalid
| fs_ErrNotExist
| fs_ErrClosed
| path_ErrBadPattern
| errOther (msg : string)
| PathError (op : string) (path : string) (err : error).

Inductive outcome (A : Type) : Type :=
| Ret (a : A)
| Fail (e : error)
| Panic
| Timeout.

Arguments Ret {A} a.
Arguments Fail {A} e.
Arguments Panic {A}.
Arguments Timeout {A}.

Definition bind {A B : Type} (c : outcome A) (k : A -> outcome B) : outcome B :=
  match c with
  | Ret a => k a
  | Fail e => Fail e
  | Panic => Panic
  | Timeout => Timeout
  end.

Notation "'let*' x ':=' c 'in' k" := (bind c (fun x => k))
  (at level 10, x pattern, c at level 100, k at level 200).

(** ** Machine integers and little-endian decoding *)

Definition u16 (z : Z) : Z := z mod 65536.
Definition u32 (z : Z) : Z := z mod 4294967296.
Definition u64 (z : Z) : Z := z mod 18446744073709551616.

(** Conversion to the signed 64-bit [int]/[int64] of Go. *)
Definition to_int64 (z : Z) : Z :=
  (z + 9223372036854775808) mod 18446744073709551616 - 9223372036854775808.

Definition to_int16 (z : Z) : Z := (z + 32768) mod 65536 - 32768.

Definition byteZ (b : byte) : Z := Z.of_N (Byte.to_N b).

(** [binary.LittleEndian]: the value of a byte sequence. *)
Fixpoint le (bs : list byte) : Z :=
  match bs with
  | [] => 0
  | b :: bs' => byteZ b + 256 * le bs'
  end.

(** The bytes [off, off+n) of a buffer. *)
Definition field (off n : nat) (bs : list byte) : list byte :=
  firstn n (skipn off bs).

(** [io.ReadFull] on an in-memory reader ([bytes.Buffer], [io.SectionReader]),
    as [binary.Read] uses it: [n] bytes or an error, [io.EOF] when nothing
    is left and [io.ErrUnexpectedEOF] when the reader ends early. *)
Definition readFull (n : nat) (rdr : list byte) : outcome (list byte * list byte) :=
  if (n =? 0)%nat then Ret ([], rdr)
  else if (length rdr =? 0)%nat then Fail io_EOF
  else if (length rdr <? n)%nat then Fail io_ErrUnexpectedEOF
  else Ret (firstn n rdr, skipn n rdr).

(** ** Package directory (internal/directory/directory.go) *)

Module directory.

Module Header.
Record t : Type := mk { Count : Z; InodeOffset : Z; InodeNumber : Z }.
End Header.

Module EntryRaw.
Record t : Type := mk { Offset : Z; InodeOffset : Z; Type_ : Z; NameSize : Z }.
End EntryRaw.

Module Entry.
Record t : Type := mk {
    Name : string;
    Type_ : Z;
    InodeBlockOffset : Z;
    InodeOffset : Z }.
End Entry.

(** [binary.Read(rdr, binary.LittleEndian, &hdr)]: three uint32. *)
Definition readHeader (rdr : list byte) : outcome (Header.t * list byte) :=
  let* (bs, rest) := readFull 12 rdr in
  Ret (Header.mk (le (field 0 4 bs)) (le (field 4 4 bs)) (le (field 8 4 bs)), rest).

(** [binary.Read(rdr, binary.LittleEndian, &raw)]: uint16, int16, uint16,
    uint16. *)
Definition readEntryRaw (rdr : list byte) : outcome (EntryRaw.t * list byte) :=
  let* (bs, rest) := readFull 8 rdr in
  Ret (EntryRaw.mk (le (field 0 2 bs)) (to_int16 (le (field 2 2 bs)))
         (le (field 4 2 bs)) (le (field 6 2 bs)), rest).

(** [NewEntry]: the length of [tmp] is [raw.NameSize+1] computed in uint16. *)
Definition NewEntry (rdr : list byte) : outcome (Entry.t * list byte) :=
  let* (raw, rdr1) := readEntryRaw rdr in
  let* (tmp, rdr2) := readFull (Z.to_nat (u16 (EntryRaw.NameSize raw + 1))) rdr1 in
  Ret (Entry.mk (string_of_list_byte tmp) (EntryRaw.Type_ raw)
         (EntryRaw.Offset raw) 0, rdr2).

Definition setInodeOffset (ent : Entry.t) (off : Z) : Entry.t :=
  Entry.mk (Entry.Name ent) (Entry.Type_ ent) (Entry.InodeBlockOffset ent) off.

(** The inner [for i := uint32(0); i < hdr.Count; i++] loop of
    [NewDirectory].  A header read at [i%256 == 0] replaces [hdr], its
    [Count] included. *)
Fixpoint entriesLoop (fuel : nat) (hdr : Header.t) (i : Z) (rdr : list byte)
    (entries : list Entry.t) : outcome (Header.t * list byte * list Entry.t) :=
  match fuel with
  | O => Timeout
  | S fuel' =>
    if i <? Header.Count hdr then
      let* (hdr1, rdr1) :=
        (if negb (i =? 0) && (i mod 256 =? 0) then readHeader rdr
         else Ret (hdr, rdr)) in
      let* (ent, rdr2) := NewEntry rdr1 in
      entriesLoop fuel' hdr1 (u32 (i + 1)) rdr2
        (entries ++ [setInodeOffset ent (Header.InodeOffset hdr1)])
    else Ret (hdr, rdr, entries)
  end.

(** The outer [for] loop: a header, [hdr.Count++] in uint32, the entries. *)
Fixpoint dirLoop (fuel : nat) (rdr : list byte) (entries : list Entry.t)
    : outcome (list Entry.t) :=
  match fuel with
  | O => Timeout
  | S fuel' =>
    match readHeader rdr with
    | Fail io_ErrUnexpectedEOF => Ret entries
    | Fail e => Fail e
    | Panic => Panic
    | Timeout => Timeout
    | Ret (hdr, rdr1) =>
      let hdr' := Header.mk (u32 (Header.Count hdr + 1)) (Header.InodeOffset hdr)
                    (Header.InodeNumber hdr) in
      let* (_, rdr2, entries2) :=
        entriesLoop (S (length rdr1)) hdr' 0 rdr1 entries in
      dirLoop fuel' rdr2 entries2
    end
  end.

(** [NewDirectory(base, size)].  [base] is the byte sequence the one call
    [base.Read(tmp)] can deliver; [tmp] has [size] bytes and keeps zeros
    where the reader delivered nothing. *)
Definition NewDirectory (base : list byte) (size : Z) : outcome (list Entry.t) :=
  let n := Z.to_nat size in
  let tmp := firstn n base ++ repeat x00%byte (n - length base) in
  dirLoop (S (length tmp)) tmp [].

End directory.

(** ** Package inode (internal/inode) *)

Module inode.

(** The inode kinds.  The constants are declared next to the inode structs,
    outside the sources at hand; they are the on-disk tags of the format. *)
Definition DirType : Z := 1.
Definition FileType : Z := 2.
Definition SymType : Z := 3.
Definition BlockDevType : Z := 4.
Definition CharDevType : Z := 5.
Definition FifoType : Z := 6.
Definition SocketType : Z := 7.
Definition ExtDirType : Z := 8.
Definition ExtFileType : Z := 9.
Definition ExtSymType : Z := 10.
Definition ExtBlockDeviceType : Z := 11.
Definition ExtCharDeviceType : Z := 12.
Definition ExtFifoType : Z := 13.
Definition ExtSocketType : Z := 14.

(** The structs [ProcessInode] stores in [Inode.Info], with the fields the
    callers read ([Size], [BlockStart], [Fragmented], the directory
    position, the symlink [Path]) and, for files, the fragment position and
    the block list of section 4.6 of the specification. *)
Module File.
Record t : Type := mk {
    BlockStart : Z; FragmentIndex : Z; FragmentOffset : Z; Size : Z;
    BlockSizes : list Z; Fragmented : bool }.
End File.

Module ExtFile.
Record t : Type := mk {
    BlockStart : Z; Size : Z; FragmentIndex : Z; FragmentOffset : Z;
    BlockSizes : list Z; Fragmented : bool }.
End ExtFile.

Module Dir.
Record t : Type := mk {
    DirectoryIndex : Z; DirectorySize : Z; DirectoryOffset : Z }.
End Dir.

Module ExtDir.
Record t : Type := mk {
    DirectoryIndex : Z; DirectorySize : Z; DirectoryOffset : Z }.
End ExtDir.

Module Sym.
Record t : Type := mk { Path : string }.
End Sym.

Module ExtSym.
Record t : Type := mk { Path : string }.
End ExtSym.

(** The dynamic type of the [interface{}] field [Info]; [InfoNil] is the
    nil interface [ProcessInode] leaves for a tag outside 1..14. *)
Inductive Info : Type :=
| InfoDir (d : Dir.t)
| InfoFile (f : File.t)
| InfoSym (s : Sym.t)
| InfoDevice
| InfoIPC
| InfoExtDir (d : ExtDir.t)
| InfoExtFile (f : ExtFile.t)
| InfoExtSym (s : ExtSym.t)
| InfoExtDevice
| InfoExtIPC
| InfoNil.

(** [Inode]: the common header (embedded) and the variant. *)
Record Inode : Type := mkInode {
  info : Info;
  Type_ : Z;
  Permissions : Z;
  UID : Z;
  GID : Z;
  ModifiedTime : Z;
  Number : Z }.

End inode.

(** ** Package compression (internal/compression) *)

Module compression.

Module Gzip.
Record t : Type := mk {
    CompressionLevel : Z; HasCustomWindow : bool; HasStrategies : bool }.
End Gzip.

Module Xz.
Record t : Type := mk { DictionarySize : Z; HasFilters : bool }.
End Xz.

Module Lz4.
Record t : Type := mk { Version : Z; LZ4Flags : Z }.
End Lz4.

Module Zstd.
Record t : Type := mk { CompressionLevel : Z }.
End Zstd.

(** The implementations of the interface [compression.Decompressor]. *)
Inductive Decompressor : Type :=
| DGzip (g : Gzip.t)
| DLzma
| DXz (x : Xz.t)
| DLz4 (l : Lz4.t)
| DZstd (z : Zstd.t).

(** Modelled from the spec: [NewGzipCompressorWithOptions] is defined in
    package compression, outside the sources at hand.  Section 4.2: the gzip
    options are 8 bytes, compression level (4), window size (2), strategy
    bitmap (2); a window size other than 15 is a custom window; a strategy
    bitmap other than the default (no strategy bit, or only the bit of the
    default strategy) has strategies. *)
Definition defaultStrategies (s : Z) : bool := (s =? 0) || (s =? 1).

Definition NewGzipCompressorWithOptions (r : list byte) : outcome Gzip.t :=
  let* (bs, _) := readFull 8 r in
  Ret (Gzip.mk (le (field 0 4 bs))
         (negb (le (field 4 2 bs) =? 15))
         (negb (defaultStrategies (le (field 6 2 bs))))).

(** Modelled from the spec: [NewXzCompressorWithOptions], section 4.2: 8
    bytes, dictionary size (4), filter bitmap (4); any filter bit set means
    filters. *)
Definition NewXzCompressorWithOptions (r : list byte) : outcome Xz.t :=
  let* (bs, _) := readFull 8 r in
  Ret (Xz.mk (le (field 0 4 bs)) (negb (le (field 4 4 bs) =? 0))).

(** Modelled from the spec: [NewLz4CompressorWithOptions], section 4.2: 8
    bytes, version (4), flag bitmap (4). *)
Definition NewLz4CompressorWithOptions (r : list byte) : outcome Lz4.t :=
  let* (bs, _) := readFull 8 r in
  Ret (Lz4.mk (le (field 0 4 bs)) (le (field 4 4 bs))).

(** Modelled from the spec: [NewZstdCompressorWithOptions], section 4.2: 4
    bytes, level (4). *)
Definition NewZstdCompressorWithOptions (r : list byte) : outcome Zstd.t :=
  let* (bs, _) := readFull 4 r in
  Ret (Zstd.mk (le (field 0 4 bs))).

End compression.

(** ** The superblock and NewSquashfsReader (reader.go) *)

Definition magic : Z := 0x73717368.

(** The compression-type tags, section 6 of the specification. *)
Definition GzipCompression : Z := 1.
Definition LzmaCompression : Z := 2.
Definition XzCompression : Z := 4.
Definition Lz4Compression : Z := 5.
Definition ZstdCompression : Z := 6.

(** Modelled from the spec: the struct [superblock] and [GetFlags] are
    declared outside the sources at hand.  Section 3: a fixed 96-byte
    little-endian record; the fields in format order. *)
Module superblock.
Record t : Type := mk {
    Magic : Z; InodeCount : Z; CreationTime : Z; BlockSize : Z;
    FragCount : Z; CompressionType : Z; BlockLog : Z; Flags : Z;
    IDCount : Z; MajorVersion : Z; MinorVersion : Z; RootInodeRef : Z;
    BytesUsed : Z; IDTableStart : Z; XattrTableStart : Z;
    InodeTableStart : Z; DirTableStart : Z; FragTableStart : Z;
    ExportTableStart : Z }.
End superblock.

Definition decodeSuperblock (bs : list byte) : superblock.t :=
  superblock.mk
    (le (field 0 4 bs)) (le (field 4 4 bs)) (le (field 8 4 bs))
    (le (field 12 4 bs)) (le (field 16 4 bs)) (le (field 20 2 bs))
    (le (field 22 2 bs)) (le (field 24 2 bs)) (le (field 26 2 bs))
    (le (field 28 2 bs)) (le (field 30 2 bs)) (le (field 32 8 bs))
    (le (field 40 8 bs)) (le (field 48 8 bs)) (le (field 56 8 bs))
    (le (field 64 8 bs)) (le (field 72 8 bs)) (le (field 80 8 bs))
    (le (field 88 8 bs)).

Module SuperblockFlags.
Record t : Type := mk { compressorOptions : bool }.
End SuperblockFlags.

(** Modelled from the spec: of the flags [GetFlags] derives, the reader
    consults whether a compressor-options block follows the superblock; in
    the 16-bit field that is bit 10 (0x0400). *)
Definition GetFlags (s : superblock.t) : SuperblockFlags.t :=
  SuperblockFlags.mk (Z.testbit (superblock.Flags s) 10).

(** [uint16(math.Log2(float64(blockSize)))].  A uint32 is exact as a
    float64 and the truncated logarithm of a value from 1 up is the position
    of its highest set bit, which is [Z.log2]; for block size 0 the
    conversion of the infinite logarithm is left to the platform by the
    language, and the statements below keep away from it. *)
Definition log2BlockSize (blockSize : Z) : Z := u16 (Z.log2 blockSize).

Section Reader.

(** The root [*FileFS] the reader embeds, and the rest of
    [NewSquashfsReader] (lines 116-177: the fragment offsets, the id table,
    the root inode and its directory), which goes through the metadata
    reader and the inode decoder; it is given the section reader over the
    archive, the superblock and the decompressor and yields the fragment
    offsets, the id table and the root. *)
Context {FileFS : Type}.
Variable loadTables :
  list byte -> superblock.t -> compression.Decompressor ->
  outcome (list Z * list Z * FileFS).

Record Reader : Type := mkReader {
  root : FileFS;
  r : list byte;
  decompressor : compression.Decompressor;
  fragOffsets : list Z;
  idTable : list Z;
  super : superblock.t;
  flags : SuperblockFlags.t }.

(** Lines 58-115: the decompressor and [hasUnsupportedOptions].  [opts] is
    what [rdr.r] holds from offset 96 on. *)
Definition selectDecompressor (opts : list byte) (s : superblock.t)
    (fl : SuperblockFlags.t) : outcome (compression.Decompressor * bool) :=
  let ct := superblock.CompressionType s in
  if SuperblockFlags.compressorOptions fl then
    if ct =? GzipCompression then
      let* gzip := compression.NewGzipCompressorWithOptions opts in
      Ret (compression.DGzip gzip,
           compression.Gzip.HasCustomWindow gzip
           || compression.Gzip.HasStrategies gzip)
    else if ct =? XzCompression then
      let* xz := compression.NewXzCompressorWithOptions opts in
      if compression.Xz.HasFilters xz then Fail errXzFilters
      else Ret (compression.DXz xz, false)
    else if ct =? Lz4Compression then
      let* lz4 := compression.NewLz4CompressorWithOptions opts in
      Ret (compression.DLz4 lz4, false)
    else if ct =? ZstdCompression then
      let* zstd := compression.NewZstdCompressorWithOptions opts in
      Ret (compression.DZstd zstd, false)
    else Fail errIncompatibleCompression
  else
    if ct =? GzipCompression then
      Ret (compression.DGzip (compression.Gzip.mk 0 false false), false)
    else if ct =? LzmaCompression then Ret (compression.DLzma, false)
    else if ct =? XzCompression then
      Ret (compression.DXz (compression.Xz.mk 0 false), false)
    else if ct =? Lz4Compression then
      Ret (compression.DLz4 (compression.Lz4.mk 0 0), false)
    else if ct =? ZstdCompression then
      Ret (compression.DZstd (compression.Zstd.mk 0), false)
    else Fail errIncompatibleCompression.

(** [NewSquashfsReader(r)]: [Fail e] is the return [(nil, e)], [Ret (rdr,
    err)] the return [(&rdr, err)]. *)
Definition NewSquashfsReader (src : list byte) : outcome (Reader * option error) :=
  let* (bs, _) := readFull 96 (firstn 96 src) in
  let s := decodeSuperblock bs in
  if negb (superblock.Magic s =? magic) then Fail errNoMagic
  else if negb (superblock.BlockLog s =? log2BlockSize (superblock.BlockSize s))
  then Fail errBlockLog
  else
    let sec := firstn (Z.to_nat (to_int64 (superblock.BytesUsed s))) src in
    let fl := GetFlags s in
    let* (d, hasUnsupportedOptions) := selectDecompressor (skipn 96 sec) s fl in
    let* (tables, rootFS) := loadTables sec s d in
    let rdr := mkReader rootFS sec d (fst tables) (snd tables) s fl in
    if hasUnsupportedOptions then Ret (rdr, Some ErrOptions)
    else Ret (rdr, None).

End Reader.

(** ** The Go library functions on strings and paths

    Package squashfs calls [strings.HasPrefix], [strings.TrimPrefix],
    [strings.Split], [strings.Join], [path.Clean], [path.Dir], [path.Base],
    [path.Match] and [fs.ValidPath].  A Go string is a byte sequence; here
    it is a [string], one [ascii] per byte. *)

Definition code (c : ascii) : Z := Z.of_nat (nat_of_ascii c).

Definition isSlash (c : ascii) : bool := Ascii.eqb c "/".

Definition HasPrefix (s p : string) : bool := String.prefix p s.

Definition TrimPrefix (s p : string) : string :=
  if String.prefix p s
  then String.substring (String.length p) (String.length s - String.length p) s
  else s.

(** [strings.Split(s, "/")]. *)
Fixpoint Split (s : string) : list string :=
  match s with
  | EmptyString => [""]
  | String c s' =>
    if isSlash c then "" :: Split s'
    else match Split s' with
         | [] => [String c ""]
         | x :: xs => String c x :: xs
         end
  end.

(** [strings.Join(elems, "/")]. *)
Fixpoint Join (elems : list string) : string :=
  match elems with
  | [] => ""
  | [x] => x
  | x :: xs => (x ++ "/" ++ Join xs)%string
  end.

Module utf8.

Definition RuneError : Z := 0xFFFD.

Definition cont (b : Z) : bool := (0x80 <=? b) && (b <=? 0xBF).

(** The second byte a three-byte or four-byte lead admits. *)
Definition second3 (b0 b1 : Z) : bool :=
  if b0 =? 0xE0 then (0xA0 <=? b1) && (b1 <=? 0xBF)
  else if b0 =? 0xED then (0x80 <=? b1) && (b1 <=? 0x9F)
  else cont b1.

Definition second4 (b0 b1 : Z) : bool :=
  if b0 =? 0xF0 then (0x90 <=? b1) && (b1 <=? 0xBF)
  else if b0 =? 0xF4 then (0x80 <=? b1) && (b1 <=? 0x8F)
  else cont b1.

Definition lead2 (b0 : Z) : bool := (0xC2 <=? b0) && (b0 <=? 0xDF).
Definition lead3 (b0 : Z) : bool := (0xE0 <=? b0) && (b0 <=? 0xEF).
Definition lead4 (b0 : Z) : bool := (0xF0 <=? b0) && (b0 <=? 0xF4).

(** [utf8.DecodeRuneInString]: the rune and its width; [(RuneError, 1)] for
    an invalid encoding, [(RuneError, 0)] for the empty string. *)
Definition DecodeRuneInString (s : string) : Z * nat :=
  match s with
  | EmptyString => (RuneError, 0%nat)
  | String c0 s0 =>
    let b0 := code c0 in
    if b0 <? 0x80 then (b0, 1%nat)
    else match s0 with
    | EmptyString => (RuneError, 1%nat)
    | String c1 s1 =>
      let b1 := code c1 in
      if lead2 b0 then
        if cont b1 then (Z.lor (Z.shiftl (Z.land b0 0x1F) 6) (Z.land b1 0x3F), 2%nat)
        else (RuneError, 1%nat)
      else match s1 with
      | EmptyString => (RuneError, 1%nat)
      | String c2 s2 =>
        let b2 := code c2 in
        if lead3 b0 then
          if second3 b0 b1 && cont b2 then
            (Z.lor (Z.shiftl (Z.land b0 0x0F) 12)
               (Z.lor (Z.shiftl (Z.land b1 0x3F) 6) (Z.land b2 0x3F)), 3%nat)
          else (RuneError, 1%nat)
        else match s2 with
        | EmptyString => (RuneError, 1%nat)
        | String c3 _ =>
          let b3 := code c3 in
          if lead4 b0 && second4 b0 b1 && cont b2 && cont b3 then
            (Z.lor (Z.shiftl (Z.land b0 0x07) 18)
               (Z.lor (Z.shiftl (Z.land b1 0x3F) 12)
                  (Z.lor (Z.shiftl (Z.land b2 0x3F) 6) (Z.land b3 0x3F))), 4%nat)
          else (RuneError, 1%nat)
        end
      end
    end
  end.

(** [utf8.ValidString]. *)
Fixpoint ValidString (s : string) : bool :=
  match s with
  | EmptyString => true
  | String c0 s0 =>
    let b0 := code c0 in
    if b0 <? 0x80 then ValidString s0
    else match s0 with
    | EmptyString => false
    | String c1 s1 =>
      let b1 := code c1 in
      if lead2 b0 then cont b1 && ValidString s1
      else match s1 with
      | EmptyString => false
      | String c2 s2 =>
        let b2 := code c2 in
        if lead3 b0 then second3 b0 b1 && cont b2 && ValidString s2
        else match s2 with
        | EmptyString => false
        | String c3 s3 =>
          lead4 b0 && second4 b0 b1 && cont b2 && cont (code c3)
          && ValidString s3
        end
      end
    end
  end.

End utf8.

Module fs.

Definition validElem (e : string) : bool :=
  negb (String.eqb e "") && negb (String.eqb e ".") && negb (String.eqb e "..").

(** [fs.ValidPath]: valid UTF-8, and either "." or slash-separated elements
    none of which is empty, "." or "..". *)
Definition ValidPath (name : string) : bool :=
  utf8.ValidString name
  && (String.eqb name "." || forallb validElem (Split name)).

End fs.

Module path.

(** [path.Clean], on the elements of the path: empty and "." elements go, a
    ".." removes the element before it, a leading ".." stays when the path
    is not rooted and goes when it is. *)
Fixpoint cleanElems (rooted : bool) (elems stack : list string) : list string :=
  match elems with
  | [] => rev stack
  | e :: es =>
    if String.eqb e "" || String.eqb e "." then cleanElems rooted es stack
    else if String.eqb e ".." then
      match stack with
      | top :: rest =>
        if String.eqb top ".." then cleanElems rooted es (".." :: stack)
        else cleanElems rooted es rest
      | [] =>
        if rooted then cleanElems rooted es []
        else cleanElems rooted es [".."]
      end
    else cleanElems rooted es (e :: stack)
  end.

Definition Clean (p : string) : string :=
  if String.eqb p "" then "."
  else
    let rooted := HasPrefix p "/" in
    let out := Join (cleanElems rooted (Split p) []) in
    if rooted then ("/" ++ out)%string
    else if String.eqb out "" then "." else out.

(** [path.Split] leaves the element after the last slash as the file; [Dir]
    cleans what comes before it, [Base] is the last element once the
    trailing slashes are gone. *)
Definition lastElem (p : string) : string := last (Split p) "".

Definition dirPart (p : string) : string :=
  String.substring 0 (String.length p - String.length (lastElem p)) p.

Definition Dir (p : string) : string := Clean (dirPart p).

Fixpoint trimSlashes (elems : list string) : list string :=
  match elems with
  | [] => []
  | e :: es =>
    match trimSlashes es with
    | [] => if String.eqb e "" then [] else [e]
    | es' => e :: es'
    end
  end.

Definition Base (p : string) : string :=
  if String.eqb p "" then "."
  else match trimSlashes (Split p) with
       | [] => "/"
       | es => last es ""
       end.

(** [path.Match(pattern, name)].  [Ret b] is the result [(b, nil)], [Fail
    path_ErrBadPattern] the result [(false, ErrBadPattern)]. *)

Fixpoint drop (n : nat) (s : string) : string :=
  match n, s with
  | O, _ => s
  | S n', String _ s' => drop n' s'
  | S _, EmptyString => EmptyString
  end.

Definition isEmpty (s : string) : bool :=
  match s with EmptyString => true | _ => false end.

(** The leading stars of [scanChunk]. *)
Fixpoint dropStars (p : string) : bool * string :=
  match p with
  | String c p' => if Ascii.eqb c "*" then (true, snd (dropStars p')) else (false, p)
  | EmptyString => (false, p)
  end.

(** The [Scan] loop of [scanChunk]: the chunk up to the next star outside a
    character class, and the rest. *)
Fixpoint scan (inrange : bool) (p : string) : string * string :=
  match p with
  | EmptyString => (EmptyString, EmptyString)
  | String c p' =>
    if Ascii.eqb c "\" then
      match p' with
      | EmptyString => (String c EmptyString, EmptyString)
      | String c' p'' =>
        let (ch, rest) := scan inrange p'' in (String c (String c' ch), rest)
      end
    else if Ascii.eqb c "[" then
      let (ch, rest) := scan true p' in (String c ch, rest)
    else if Ascii.eqb c "]" then
      let (ch, rest) := scan false p' in (String c ch, rest)
    else if Ascii.eqb c "*" && negb inrange then (EmptyString, p)
    else let (ch, rest) := scan inrange p' in (String c ch, rest)
  end.

Definition scanChunk (pattern : string) : bool * string * string :=
  let (star, p) := dropStars pattern in
  let (chunk, rest) := scan false p in
  (star, chunk, rest).

Definition getEsc (chunk : string) : outcome (Z * string) :=
  match chunk with
  | EmptyString => Fail path_ErrBadPattern
  | String c rest0 =>
    if Ascii.eqb c "-" || Ascii.eqb c "]" then Fail path_ErrBadPattern
    else
      let chunk1 := if Ascii.eqb c "\" then rest0 else chunk in
      if isEmpty chunk1 then Fail path_ErrBadPattern
      else
        let (r, n) := utf8.DecodeRuneInString chunk1 in
        if (r =? utf8.RuneError) && (n =? 1)%nat then Fail path_ErrBadPattern
        else
          let nchunk := drop n chunk1 in
          if isEmpty nchunk then Fail path_ErrBadPattern
          else Ret (r, nchunk)
  end.

(** The range loop of a character class in [matchChunk]. *)
Fixpoint classLoop (fuel : nat) (chunk : string) (r : Z) (matched : bool)
    (nrange : nat) : outcome (string * bool) :=
  match fuel with
  | O => Timeout
  | S fuel' =>
    match chunk with
    | String c chunk' =>
      if Ascii.eqb c "]" && negb (nrange =? 0)%nat then Ret (chunk', matched)
      else
        let* (lo, chunk1) := getEsc chunk in
        let* (hi, chunk2) :=
          (match chunk1 with
           | String c1 rest1 =>
             if Ascii.eqb c1 "-" then getEsc rest1 else Ret (lo, chunk1)
           | EmptyString => Ret (lo, chunk1)
           end) in
        classLoop fuel' chunk2 r (matched || ((lo <=? r) && (r <=? hi)))
          (S nrange)
    | EmptyString => Fail path_ErrBadPattern
    end
  end.

Fixpoint matchChunkLoop (fuel : nat) (chunk s : string) (failed : bool)
    : outcome (string * bool) :=
  match fuel with
  | O => Timeout
  | S fuel' =>
    match chunk with
    | EmptyString => if failed then Ret (EmptyString, false) else Ret (s, true)
    | String c chunk' =>
      let failed := failed || isEmpty s in
      if Ascii.eqb c "[" then
        let (r, s1) :=
          if failed then (0, s)
          else let (r, n) := utf8.DecodeRuneInString s in (r, drop n s) in
        let (negated, chunk1) :=
          match chunk' with
          | String c1 rest1 =>
            if Ascii.eqb c1 "^" then (true, rest1) else (false, chunk')
          | EmptyString => (false, chunk')
          end in
        let* (chunk2, matched) := classLoop fuel' chunk1 r false 0 in
        matchChunkLoop fuel' chunk2 s1 (failed || Bool.eqb matched negated)
      else if Ascii.eqb c "?" then
        if failed then matchChunkLoop fuel' chunk' s failed
        else
          match s with
          | String s0 _ =>
            let (_, n) := utf8.DecodeRuneInString s in
            matchChunkLoop fuel' chunk' (drop n s) (isSlash s0)
          | EmptyString => matchChunkLoop fuel' chunk' s true
          end
      else if Ascii.eqb c "\" then
        match chunk' with
        | EmptyString => Fail path_ErrBadPattern
        | String c2 chunk'' =>
          if failed then matchChunkLoop fuel' chunk'' s failed
          else
            match s with
            | String s0 s' => matchChunkLoop fuel' chunk'' s' (negb (Ascii.eqb c2 s0))
            | EmptyString => matchChunkLoop fuel' chunk'' s true
            end
        end
      else
        if failed then matchChunkLoop fuel' chunk' s failed
        else
          match s with
          | String s0 s' => matchChunkLoop fuel' chunk' s' (negb (Ascii.eqb c s0))
          | EmptyString => matchChunkLoop fuel' chunk' s true
          end
    end
  end.

Definition matchChunk (chunk s : string) : outcome (string * bool) :=
  matchChunkLoop (S (String.length chunk)) chunk s false.

(** The loop that, after a star, looks for a match of the chunk further to
    the right without passing a slash; [Some t] continues the pattern loop
    with the rest [t] of the name. *)
Fixpoint starLoop (chunk : string) (lastChunk : bool) (name : string)
    : outcome (option string) :=
  match name with
  | EmptyString => Ret None
  | String c name' =>
    if isSlash c then Ret None
    else
      let* (t, ok) := matchChunk chunk name' in
      if ok then
        if lastChunk && negb (isEmpty t) then starLoop chunk lastChunk name'
        else Ret (Some t)
      else starLoop chunk lastChunk name'
  end.

(** The check that the rest of the pattern is well formed. *)
Fixpoint checkRest (fuel : nat) (pattern : string) : outcome bool :=
  match fuel with
  | O => Timeout
  | S fuel' =>
    if isEmpty pattern then Ret false
    else
      let '(_, chunk, rest) := scanChunk pattern in
      let* _ := matchChunk chunk EmptyString in
      checkRest fuel' rest
  end.

Fixpoint hasSlash (s : string) : bool :=
  match s with
  | EmptyString => false
  | String c s' => isSlash c || hasSlash s'
  end.

Fixpoint matchLoop (fuel : nat) (pattern name : string) : outcome bool :=
  match fuel with
  | O => Timeout
  | S fuel' =>
    if isEmpty pattern then Ret (isEmpty name)
    else
      let '(star, chunk, rest) := scanChunk pattern in
      if star && isEmpty chunk then Ret (negb (hasSlash name))
      else
        let* (t, ok) := matchChunk chunk name in
        if ok && (isEmpty t || negb (isEmpty rest)) then matchLoop fuel' rest t
        else if star then
          let* found := starLoop chunk (isEmpty rest) name in
          match found with
          | Some t' => matchLoop fuel' rest t'
          | None => checkRest (S (String.length rest)) rest
          end
        else checkRest (S (String.length rest)) rest
  end.

Definition Match (pattern name : string) : outcome bool :=
  matchLoop (S (String.length pattern)) pattern name.

End path.



(** ** What a file reaches through its Reader

    A [File] holds a pointer to the [Reader]; of the reader it uses the
    superblock and the functions below, which go through the metadata
    stream and the data blocks and lie outside the sources at hand:

    - [ProcessInodeAt off blockOff]: [newMetadataReader(off)], then
      [Seek(blockOff)], then [inode.ProcessInode];
    - [metadataAt off blockOff]: the byte stream of the metadata reader
      opened at [off] after [Seek(blockOff)];
    - [getFragmentDataFromInode], [None] being a nil slice;
    - [newDataReaderFromInode]: the data reader of a file, see
      [dataReader]. *)

Record Archive : Type := mkArchive {
  a_super : superblock.t;
  ProcessInodeAt : Z -> Z -> outcome inode.Inode;
  metadataAt : Z -> Z -> outcome (list byte);
  getFragmentDataFromInode : inode.Inode -> outcome (option (list byte));
  newDataReaderFromInode : inode.Inode -> outcome (list byte) }.

(** A Go slice expression [s[beg:end]] panics unless [0 <= beg <= end <=
    cap(s)].  Every [end] the code below computes without a panic is at most
    [len(s)], so the check against the length decides the same cases. *)
Definition slice {A : Type} (s : list A) (beg end_ : Z) : outcome (list A) :=
  if (0 <=? beg) && (beg <=? end_) && (end_ <=? Z.of_nat (length s))
  then Ret (firstn (Z.to_nat (end_ - beg)) (skipn (Z.to_nat beg) s))
  else Panic.

(** [bytes.NewBuffer(buf).Read(p)] with [len(p) = n]: the bytes copied and
    the error. *)
Definition Buffer_Read (buf : list byte) (n : nat) : list byte * option error :=
  match buf with
  | [] => if (n =? 0)%nat then ([], None) else ([], Some io_EOF)
  | _ => (firstn n buf, None)
  end.

(** Modelled from the spec: the type [dataReader] and its methods are
    defined outside the sources at hand.  Section 4.6: [read] yields the
    bytes of the data blocks in file order, and end-of-stream once they are
    exhausted; [write_to] is the bulk variant.  The state is the bytes still
    to deliver. *)
Module dataReader.

Definition t : Type := list byte.

Definition Read (d : t) (n : nat) : list byte * option error * t :=
  match d with
  | [] => if (n =? 0)%nat then ([], None, d) else ([], Some io_EOF, d)
  | _ => (firstn n d, None, skipn n d)
  end.

(** [WriteTo(w)] on a writer that takes everything: the bytes written, the
    count and the error. *)
Definition WriteTo (d : t) : list byte * Z * option error :=
  (d, Z.of_nat (length d), None).

End dataReader.

(** ** The file reader (squashfsreader.go, fileReader) *)

Module fileReader.

Record t : Type := mk {
  data : option dataReader.t;
  fil_r : Archive;
  fil_in : inode.Inode;
  fragmentData : option (list byte);
  fragged : bool;
  fragOnly : bool;
  read : Z;
  FileSize : Z }.

Definition bytesOf (o : option (list byte)) : list byte :=
  match o with Some b => b | None => [] end.

(** [newFileReader]: the error of [newDataReaderFromInode] is dropped and
    leaves [data] nil. *)
Definition newFileReader (a : Archive) (i : inode.Inode) : outcome t :=
  let ty := inode.Type_ i in
  if negb (ty =? inode.FileType) && negb (ty =? inode.ExtFileType)
  then Fail errPathIsNotFile
  else
    let* (fr, fo, sz) :=
      (if ty =? inode.FileType then
         match inode.info i with
         | inode.InfoFile fil =>
           Ret (inode.File.Fragmented fil, inode.File.BlockStart fil =? 0,
                inode.File.Size fil)
         | _ => Panic
         end
       else
         match inode.info i with
         | inode.InfoExtFile fil =>
           Ret (inode.ExtFile.Fragmented fil, inode.ExtFile.BlockStart fil =? 0,
                to_int64 (inode.ExtFile.Size fil))
         | _ => Panic
         end) in
    let* frag :=
      (if fr then getFragmentDataFromInode a i else Ret None) in
    let* d :=
      (if fo then Ret None
       else match newDataReaderFromInode a i with
            | Ret d => Ret (Some d)
            | Fail _ => Ret None
            | Panic => Panic
            | Timeout => Timeout
            end) in
    Ret (mk d a i frag fr fo 0 sz).

Definition withRead (f : t) (n : Z) : t :=
  mk (data f) (fil_r f) (fil_in f) (fragmentData f) (fragged f) (fragOnly f)
     n (FileSize f).

Definition withData (f : t) (d : dataReader.t) : t :=
  mk (Some d) (fil_r f) (fil_in f) (fragmentData f) (fragged f) (fragOnly f)
     (read f) (FileSize f).

Definition withFragment (f : t) (frag : option (list byte)) : t :=
  mk (data f) (fil_r f) (fil_in f) frag (fragged f) (fragOnly f)
     (read f) (FileSize f).

(** [Read(p)] with [len(p) = n]: the bytes put into [p], the error, and the
    reader afterwards. *)
Definition Read (f : t) (n : nat) : outcome (list byte * option error * t) :=
  if fragOnly f then
    let* buf := slice (bytesOf (fragmentData f)) (read f)
                  (Z.of_nat (length (bytesOf (fragmentData f)))) in
    let (out, err) := Buffer_Read buf n in
    Ret (out, err, withRead f (to_int64 (read f + Z.of_nat (length out))))
  else
    match data f with
    | None => Panic
    | Some d =>
      let '(out, err, d') := dataReader.Read d n in
      let f1 := withData f d' in
      match err with
      | Some io_EOF =>
        if fragged f then
          let* frag :=
            (match fragmentData f with
             | Some b => Ret (Some b)
             | None =>
               match getFragmentDataFromInode (fil_r f) (fil_in f) with
               | Ret b => Ret b
               | Fail _ => Ret None
               | Panic => Panic
               | Timeout => Timeout
               end
             end) in
          let f2 := withFragment f1 frag in
          let (out2, err2) := Buffer_Read (bytesOf frag) (n - length out) in
          Ret (out ++ out2, err2, f2)
        else Ret (out, err, f1)
      | Some _ => Ret (out, err, f1)
      | None => Ret (out, None, f1)
      end
    end.

(** [WriteTo(w)] on a writer that takes everything: the bytes written, the
    count and the error. *)
Definition WriteTo (f : t) : outcome (list byte * Z * option error) :=
  if fragOnly f then
    Ret (bytesOf (fragmentData f), Z.of_nat (length (bytesOf (fragmentData f))), None)
  else
    match data f with
    | None => Panic
    | Some d =>
      let '(out, n, err) := dataReader.WriteTo d in
      if negb (fragged f) then Ret (out, n, err)
      else
        match err with
        | Some e => Ret (out, n, Some e)
        | None =>
          let frag := bytesOf (fragmentData f) in
          Ret (out ++ frag, to_int64 (Z.of_nat (length frag) + n), None)
        end
    end.

(** Reading to end-of-stream, as [io.ReadAll] and [io.Copy] do on a plain
    reader: [Read] is called with buffers of the lengths [bufs 0], [bufs 1],
    ... until it returns an error; the bytes are concatenated and [io.EOF]
    ends the stream normally. *)
Fixpoint readAll (fuel : nat) (f : t) (bufs : nat -> nat) : outcome (list byte) :=
  match fuel with
  | O => Timeout
  | S fuel' =>
    let* (res, f') := Read f (bufs O) in
    match snd res with
    | None =>
      let* more := readAll fuel' f' (fun k => bufs (S k)) in
      Ret (fst res ++ more)
    | Some io_EOF => Ret (fst res)
    | Some e => Fail e
    end
  end.

(** The bytes of the first [k] calls of [Read], whatever the errors. *)
Fixpoint readCalls (k : nat) (f : t) (bufs : nat -> nat) : outcome (list byte) :=
  match k with
  | O => Ret []
  | S k' =>
    let* (res, f') := Read f (bufs O) in
    let* more := readCalls k' f' (fun j => bufs (S j)) in
    Ret (fst res ++ more)
  end.

End fileReader.

(** ** File, DirEntry and FileFS: the File-based sources

    [File] with the fields [r], [in], [reader], [name], [entries] and
    [dirsRead], and the [FileFS] that wraps a [*File].  The field [parent],
    which only the resolution of symlinks reads, is left out. *)

Module File1.

Record File : Type := mkFile {
  r : Archive;
  in_ : inode.Inode;
  reader : option fileReader.t;
  name : string;
  entries : list directory.Entry.t;
  dirsRead : Z }.

Definition IsDir (f : File) : bool :=
  (inode.Type_ (in_ f) =? inode.DirType) || (inode.Type_ (in_ f) =? inode.ExtDirType).

Definition IsSymlink (f : File) : bool :=
  (inode.Type_ (in_ f) =? inode.SymType) || (inode.Type_ (in_ f) =? inode.ExtSymType).

Definition IsRegular (f : File) : bool :=
  (inode.Type_ (in_ f) =? inode.FileType) || (inode.Type_ (in_ f) =? inode.ExtFileType).

(** [readDirFromInode]: a type assertion on [Info] panics when the dynamic
    type is another one. *)
Definition readDirFromInode (a : Archive) (i : inode.Inode)
    : outcome (list directory.Entry.t) :=
  let* (pos, size) :=
    (if inode.Type_ i =? inode.DirType then
       match inode.info i with
       | inode.InfoDir d =>
         Ret (inode.Dir.DirectoryIndex d, inode.Dir.DirectoryOffset d,
              u32 (inode.Dir.DirectorySize d))
       | _ => Panic
       end
     else if inode.Type_ i =? inode.ExtDirType then
       match inode.info i with
       | inode.InfoExtDir d =>
         Ret (inode.ExtDir.DirectoryIndex d, inode.ExtDir.DirectoryOffset d,
              inode.ExtDir.DirectorySize d)
       | _ => Panic
       end
     else Fail (errOther "Not a directory inode")) in
  let* br := metadataAt a (u64 (superblock.DirTableStart (a_super a) + fst pos))
               (snd pos) in
  directory.NewDirectory br size.

Definition newFileFromInode (a : Archive) (i : inode.Inode) : outcome File :=
  let fil := mkFile a i None "" [] 0 in
  if IsRegular fil then
    let* rd := fileReader.newFileReader a i in
    Ret (mkFile a i (Some rd) "" [] 0)
  else if IsDir fil then
    let* ents := readDirFromInode a i in
    Ret (mkFile a i None "" ents 0)
  else Ret fil.

Definition withName (f : File) (n : string) : File :=
  mkFile (r f) (in_ f) (reader f) n (entries f) (dirsRead f).

Definition newFileFromDirEntry (a : Archive) (entry : directory.Entry.t)
    : outcome File :=
  let* i := ProcessInodeAt a
              (u64 (superblock.InodeTableStart (a_super a)
                    + directory.Entry.InodeOffset entry))
              (directory.Entry.InodeBlockOffset entry) in
  let* fil := newFileFromInode a i in
  Ret (withName fil (directory.Entry.Name entry)).

(** [Size]. *)
Definition Size (f : File) : outcome Z :=
  if inode.Type_ (in_ f) =? inode.FileType then
    match inode.info (in_ f) with
    | inode.InfoFile fil => Ret (inode.File.Size fil)
    | _ => Panic
    end
  else if inode.Type_ (in_ f) =? inode.ExtFileType then
    match inode.info (in_ f) with
    | inode.InfoExtFile fil => Ret (to_int64 (inode.ExtFile.Size fil))
    | _ => Panic
    end
  else Ret 0.

(** [DirEntry]: the entry and the reader; [parent] is left out as in
    [File]. *)
Record DirEntry : Type := mkDirEntry {
  en : directory.Entry.t;
  de_r : option Archive }.

Definition DirEntry_Name (d : DirEntry) : string := directory.Entry.Name (en d).

Definition Info (d : DirEntry) : outcome File :=
  match de_r d with
  | None => Fail errNoReader
  | Some a => newFileFromDirEntry a (en d)
  end.

Definition withDirsRead (f : File) (n : Z) : File :=
  mkFile (r f) (in_ f) (reader f) (name f) (entries f) n.

(** [ReadDir(i)]: the entries, the error returned with them, and the file
    afterwards ([dirsRead] is reset when the error is not nil). *)
Definition ReadDir (f : File) (i : Z)
    : outcome (list DirEntry * option error * File) :=
  if negb (IsDir f) then Fail errReadDirNonDir
  else
    let len := Z.of_nat (length (entries f)) in
    let '(beg, end_, err) :=
      if i >=? 0 then (0, len, None)
      else
        let e := to_int64 (dirsRead f + i) in
        if e >? len then (dirsRead f, len, Some io_EOF)
        else (dirsRead f, e, None) in
    let* ents := slice (entries f) beg end_ in
    let out := map (fun ent => mkDirEntry ent (Some (r f))) ents in
    match err with
    | Some e => Ret (out, Some e, withDirsRead f 0)
    | None => Ret (out, None, f)
    end.

(** [Read(p)] with [len(p) = n]. *)
Definition Read (f : File) (n : nat) : outcome (list byte * option error * File) :=
  if negb (IsRegular f) then Ret ([], Some io_EOF, f)
  else
    match reader f with
    | None => Panic
    | Some rd =>
      let* (res, rd') := fileReader.Read rd n in
      Ret (res, mkFile (r f) (in_ f) (Some rd') (name f) (entries f) (dirsRead f))
    end.

(** [WriteTo(w)]: the body is the call [f.WriteTo(w)] of the method itself;
    the fuel bounds the depth of the calls. *)
Fixpoint WriteTo (fuel : nat) (f : File) (w : list byte)
    : outcome (list byte * Z * option error) :=
  match fuel with
  | O => Timeout
  | S fuel' => WriteTo fuel' f w
  end.

(** *** FileFS.Open *)

(** The loop over the directory entries in [Open]; [recur] is the call
    [filFS.Open] on the matching directory. *)
Fixpoint openLoop (recur : File -> string -> outcome File) (name : string)
    (split : list string) (dirs : list DirEntry) : outcome File :=
  match dirs with
  | [] => Fail (PathError "open" name fs_ErrNotExist)
  | d :: rest =>
    match path.Match (hd "" split) (DirEntry_Name d) with
    | Ret true =>
      match Info d with
      | Ret fil =>
        if (length split =? 1)%nat then Ret fil
        else if IsDir fil then recur fil (Join (tl split))
        else Fail (PathError "open" name fs_ErrNotExist)
      | Fail err => Fail (PathError "open" name err)
      | Panic => Panic
      | Timeout => Timeout
      end
    | Ret false => openLoop recur name split rest
    | Fail err => Fail (PathError "open" name err)
    | Panic => Panic
    | Timeout => Timeout
    end
  end.

(** [FileFS{f}.Open(name)]; the fuel bounds the depth of the recursive
    calls. *)
Fixpoint Open (fuel : nat) (f : File) (name : string) : outcome File :=
  match fuel with
  | O => Timeout
  | S fuel' =>
    if String.eqb name "" then Ret f
    else if negb (fs.ValidPath name)
    then Fail (PathError "open" name fs_ErrInvalid)
    else
      let name1 := if HasPrefix name "/" then TrimPrefix name "/" else name in
      let name2 := path.Clean name1 in
      if String.eqb name2 "" || String.eqb name2 "." then Ret f
      else if HasPrefix name2 "../"
      then Fail (PathError "open" name2 fs_ErrInvalid)
      else
        let split := Split name2 in
        match ReadDir f 0 with
        | Ret (dirs, None, _) => openLoop (Open fuel') name2 split dirs
        | Ret (_, Some err, _) => Fail (PathError "open" name2 err)
        | Fail err => Fail (PathError "open" name2 err)
        | Panic => Panic
        | Timeout => Timeout
        end
  end.

(** [Open] with fuel for every element of the name. *)
Definition FileFS_Open (f : File) (name : string) : outcome File :=
  Open (S (String.length name)) f name.

End File1.

(** ** File, FileCore and FileFS: the FileCore-based sources

    [FileCore] with the fields [r], [in], [name] and [dir] ([Parent] is left
    out), the [File] that embeds it, and the [FileFS] that wraps a
    [*FileCore].  The directory of a file is the entry list the decoder of
    package directory returns. *)

Module File2.

Record FileCore : Type := mkCore {
  r : Archive;
  in_ : inode.Inode;
  name : string;
  dir : string }.

Record File : Type := mkFile {
  core : FileCore;
  rdr : option fileReader.t;
  directory : option (list directory.Entry.t);
  dirIndex : Z;
  mode : Z }.

Definition ModeDir : Z := Z.shiftl 1 31.
Definition ModeSymlink : Z := Z.shiftl 1 27.

Definition IsDir (f : FileCore) : bool :=
  (inode.Type_ (in_ f) =? inode.DirType) || (inode.Type_ (in_ f) =? inode.ExtDirType).

Definition IsSymlink (f : FileCore) : bool :=
  (inode.Type_ (in_ f) =? inode.SymType) || (inode.Type_ (in_ f) =? inode.ExtSymType).

Definition IsFile (f : FileCore) : bool :=
  (inode.Type_ (in_ f) =? inode.FileType) || (inode.Type_ (in_ f) =? inode.ExtFileType).

(** [AsFile]: an error of [readDirFromInode] leaves [directory] nil, an error
    of [newFileReader] leaves [rdr] nil. *)
Definition AsFile (f : FileCore) : outcome File :=
  let m0 := inode.Permissions (in_ f) in
  let m1 := if IsSymlink f then Z.lor m0 ModeSymlink else m0 in
  let m2 := if IsDir f then Z.lor m1 ModeDir else m1 in
  let* d :=
    (if IsDir f then
       match File1.readDirFromInode (r f) (in_ f) with
       | Ret ents => Ret (Some ents)
       | Fail _ => Ret None
       | Panic => Panic
       | Timeout => Timeout
       end
     else Ret None) in
  let* rd :=
    (if IsFile f then
       match fileReader.newFileReader (r f) (in_ f) with
       | Ret x => Ret (Some x)
       | Fail _ => Ret None
       | Panic => Panic
       | Timeout => Timeout
       end
     else Ret None) in
  Ret (mkFile f rd d 0 m2).

Definition Name (f : File) : string := name (core f).

(** [newFileFromDirEntry], through [getInodeFromEntry]. *)
Definition newFileFromDirEntry (a : Archive) (entry : directory.Entry.t)
    : outcome FileCore :=
  let* i := ProcessInodeAt a
              (to_int64 (u64 (superblock.InodeTableStart (a_super a)
                              + directory.Entry.InodeOffset entry)))
              (directory.Entry.InodeBlockOffset entry) in
  Ret (mkCore a i (directory.Entry.Name entry) "").

(** [Size]. *)
Definition Size (f : File) : outcome Z :=
  if inode.Type_ (in_ (core f)) =? inode.ExtFileType then
    match inode.info (in_ (core f)) with
    | inode.InfoExtFile fil => Ret (to_int64 (inode.ExtFile.Size fil))
    | _ => Panic
    end
  else if inode.Type_ (in_ (core f)) =? inode.FileType then
    match inode.info (in_ (core f)) with
    | inode.InfoFile fil => Ret (inode.File.Size fil)
    | _ => Panic
    end
  else Ret 0.

Definition withDirIndex (f : File) (n : Z) : File :=
  mkFile (core f) (rdr f) (directory f) n (mode f).

(** The [range] loop of [ReadDir]: an error of [newFileFromDirEntry] ends
    it, sets [dirIndex] to the loop index and is returned with the files
    so far. *)
Fixpoint readDirLoop (a : Archive) (i : Z) (ents : list directory.Entry.t)
    (out : list File) : outcome (list File * option (error * Z)) :=
  match ents with
  | [] => Ret (out, None)
  | entry :: rest =>
    match newFileFromDirEntry a entry with
    | Ret fil =>
      let* file := AsFile fil in
      readDirLoop a (i + 1) rest (out ++ [file])
    | Fail err => Ret (out, Some (err, i))
    | Panic => Panic
    | Timeout => Timeout
    end
  end.

(** [ReadDir(n)]: the files, the error returned with them, and the
    receiver afterwards. *)
Definition ReadDir (f : File) (n : Z)
    : outcome (list File * option error * File) :=
  match directory f with
  | None => Fail errNotDirectory
  | Some ents =>
    if negb (IsDir (core f)) then Fail errNotDirectory
    else
      let len := Z.of_nat (length ents) in
      let '(beg, end_, eof, f1) :=
        if n <=? 0 then (0, len, false, f)
        else
          let beg := dirIndex f in
          if to_int64 (beg + n) >? len then (beg, len, true, withDirIndex f len)
          else (beg, to_int64 (beg + n), false,
                withDirIndex f (to_int64 (beg + n))) in
      let* sl := slice ents beg end_ in
      let* (out, stop) := readDirLoop (r (core f)) 0 sl [] in
      match stop with
      | Some (err, i) => Ret (out, Some err, withDirIndex f1 i)
      | None => Ret (out, if eof then Some io_EOF else None, f1)
      end
  end.

(** [WriteTo(w)] on a writer that takes everything. *)
Definition WriteTo (f : File) : outcome (list byte * Z * option error) :=
  match rdr f with
  | None => Ret ([], 0, Some fs_ErrClosed)
  | Some rd => fileReader.WriteTo rd
  end.

(** [Read(p)] with [len(p) = n]. *)
Definition Read (f : File) (n : nat) : outcome (list byte * option error * File) :=
  match rdr f with
  | None => Ret ([], Some fs_ErrClosed, f)
  | Some rd =>
    let* (res, rd') := fileReader.Read rd n in
    Ret (res, mkFile (core f) (Some rd') (directory f) (dirIndex f) (mode f))
  end.

(** *** FileFS.Open and FileFS.ReadDir *)

(** An [*fs.PathError] whose [Op] the caller overwrites with "open". *)
Definition opOpen (e : error) : error :=
  match e with
  | PathError _ p err => PathError "open" p err
  | _ => e
  end.

Definition isPathError (e : error) : bool :=
  match e with PathError _ _ _ => true | _ => false end.

(** The loop over the children in [Open]; the error of [path.Match] is
    dropped. *)
Fixpoint openLoop (name : string) (dirs : list File) : outcome File :=
  match dirs with
  | [] => Fail (PathError "open" name fs_ErrNotExist)
  | d :: rest =>
    match path.Match (path.Base name) (Name d) with
    | Ret true => Ret d
    | Ret false => openLoop name rest
    | Fail _ => openLoop name rest
    | Panic => Panic
    | Timeout => Timeout
    end
  end.

(** [Open] and [ReadDir] of [FileFS] call each other; the fuel bounds the
    depth of the calls. *)
Fixpoint Open (fuel : nat) (f : FileCore) (name : string) : outcome File :=
  match fuel with
  | O => Timeout
  | S fuel' =>
    let name1 := TrimPrefix (path.Clean name) "/" in
    if String.eqb name1 "" || String.eqb name1 "." then AsFile f
    else if negb (fs.ValidPath name1)
    then Fail (PathError "open" name1 fs_ErrInvalid)
    else
      match FSReadDir fuel' f (path.Dir name1) with
      | Ret (dirs, None) => openLoop name1 dirs
      | Ret (_, Some err) => Fail (opOpen err)
      | Fail err => Fail (opOpen err)
      | Panic => Panic
      | Timeout => Timeout
      end
  end
with FSReadDir (fuel : nat) (f : FileCore) (name : string)
    : outcome (list File * option error) :=
  match fuel with
  | O => Timeout
  | S fuel' =>
    let name1 := TrimPrefix (path.Clean name) "/" in
    if String.eqb name1 "" || String.eqb name1 "." then
      let* file := AsFile f in
      let* (res, _) := ReadDir file (-1) in
      Ret res
    else if negb (fs.ValidPath name1)
    then Fail (PathError "readdir" name1 fs_ErrInvalid)
    else
      match Open fuel' f name1 with
      | Ret d =>
        let* (res, _) := ReadDir d (-1) in
        Ret res
      | Fail err =>
        if isPathError err then Fail (opOpen err)
        else Fail (PathError "readdir" name1 fs_ErrInvalid)
      | Panic => Panic
      | Timeout => Timeout
      end
  end.

(** [Open] with fuel for every element of the name. *)
Definition FileFS_Open (f : FileCore) (name : string) : outcome File :=
  Open (S (2 * String.length name)) f name.

End File2.

(** ** A small archive, for the concrete statements

    The tree is

      /            directory
      /a           directory
      /a/b         directory
      /a/b/c       regular file, "helloworld", stored in fragment 0 only
      /b           regular file, "helloworld", the same fragment
      /big         regular file of 4097 bytes: one data block and a
                   one-byte fragment tail

    The directory table is the byte encoding of the listings, decoded by
    [directory.NewDirectory]. *)

Module Sample.

Definition byteOf (z : Z) : byte :=
  match Byte.of_N (Z.to_N (z mod 256)) with
  | Some b => b
  | None => x00%byte
  end.

Fixpoint leBytes (n : nat) (v : Z) : list byte :=
  match n with
  | O => []
  | S n' => byteOf v :: leBytes n' (v / 256)
  end.

Definition encEntry (e : Z * Z * string) : list byte :=
  let '(off, ty, nm) := e in
  leBytes 2 off ++ leBytes 2 0 ++ leBytes 2 ty
  ++ leBytes 2 (Z.of_nat (String.length nm) - 1) ++ list_byte_of_string nm.

Definition encDir (inodeOff : Z) (ents : list (Z * Z * string)) : list byte :=
  leBytes 4 (Z.of_nat (length ents) - 1) ++ leBytes 4 inodeOff ++ leBytes 4 1
  ++ concat (map encEntry ents).

Definition encSuperblock (s : superblock.t) : list byte :=
  leBytes 4 (superblock.Magic s) ++ leBytes 4 (superblock.InodeCount s)
  ++ leBytes 4 (superblock.CreationTime s) ++ leBytes 4 (superblock.BlockSize s)
  ++ leBytes 4 (superblock.FragCount s) ++ leBytes 2 (superblock.CompressionType s)
  ++ leBytes 2 (superblock.BlockLog s) ++ leBytes 2 (superblock.Flags s)
  ++ leBytes 2 (superblock.IDCount s) ++ leBytes 2 (superblock.MajorVersion s)
  ++ leBytes 2 (superblock.MinorVersion s) ++ leBytes 8 (superblock.RootInodeRef s)
  ++ leBytes 8 (superblock.BytesUsed s) ++ leBytes 8 (superblock.IDTableStart s)
  ++ leBytes 8 (superblock.XattrTableStart s)
  ++ leBytes 8 (superblock.InodeTableStart s)
  ++ leBytes 8 (superblock.DirTableStart s)
  ++ leBytes 8 (superblock.FragTableStart s)
  ++ leBytes 8 (superblock.ExportTableStart s).

(** A superblock with the given block size, block log, compression tag and
    flags; the archive is [used] bytes long. *)
Definition mkSuper (blockSize blockLog ct fl used : Z) : superblock.t :=
  superblock.mk magic 6 0 blockSize 1 ct blockLog fl 1 4 0 0 used
    400 18446744073709551615 200 300 350 18446744073709551615.

Definition super : superblock.t := mkSuper 4096 12 GzipCompression 0 500.

Definition rootListing : list byte :=
  encDir 0 [(32, inode.DirType, "a"); (128, inode.FileType, "b");
            (160, inode.FileType, "big")].
Definition aListing : list byte := encDir 0 [(64, inode.DirType, "b")].
Definition bListing : list byte := encDir 0 [(96, inode.FileType, "c")].

Definition dirTable : list byte := rootListing ++ aListing ++ bListing.

Definition dirInode (off size : Z) : inode.Inode :=
  inode.mkInode (inode.InfoDir (inode.Dir.mk 0 size off)) inode.DirType 493 0 0 0 1.

Definition rootInode : inode.Inode :=
  dirInode 0 (Z.of_nat (length rootListing) + 3).
Definition aInode : inode.Inode :=
  dirInode (Z.of_nat (length rootListing)) (Z.of_nat (length aListing) + 3).
Definition abInode : inode.Inode :=
  dirInode (Z.of_nat (length rootListing + length aListing))
    (Z.of_nat (length bListing) + 3).

(** The 10-byte file of fragment 0, offset 0, with [BlockStart] 0. *)
Definition helloInode : inode.Inode :=
  inode.mkInode (inode.InfoFile (inode.File.mk 0 0 0 10 [] true))
    inode.FileType 420 0 0 0 2.

(** The file of 4097 bytes: [BlockStart] 96, one block of 4096 bytes stored
    uncompressed, and the last byte at offset 10 of fragment 0. *)
Definition bigInode : inode.Inode :=
  inode.mkInode (inode.InfoFile (inode.File.mk 96 0 10 4097 [16781312] true))
    inode.FileType 420 0 0 0 3.

Definition fragment0 : list byte := list_byte_of_string "helloworld!".

Definition bigBlock : list byte := repeat "a"%byte 4096.

(** Modelled from the spec: [getFragmentDataFromInode] lies outside the
    sources at hand.  Sections 4.6 and 4.7: the fragment of a file is the
    slice of [size - block_count * block_size] bytes at [fragment_offset]
    of the payload of fragment [fragment_index]. *)
Definition fragmentSlice (blockSize : Z) (fragments : list (list byte))
    (i : inode.Inode) : outcome (option (list byte)) :=
  match inode.info i with
  | inode.InfoFile fil =>
    match nth_error fragments (Z.to_nat (inode.File.FragmentIndex fil)) with
    | Some payload =>
      Ret (Some (firstn (Z.to_nat (inode.File.Size fil
                           - Z.of_nat (length (inode.File.BlockSizes fil)) * blockSize))
                   (skipn (Z.to_nat (inode.File.FragmentOffset fil)) payload)))
    | None => Fail (errOther "no such fragment")
    end
  | _ => Fail (errOther "no fragment")
  end.

Definition archive : Archive :=
  mkArchive super
    (fun off blockOff =>
       if negb (off =? 200) then Fail io_EOF
       else if blockOff =? 0 then Ret rootInode
       else if blockOff =? 32 then Ret aInode
       else if blockOff =? 64 then Ret abInode
       else if blockOff =? 96 then Ret helloInode
       else if blockOff =? 128 then Ret helloInode
       else if blockOff =? 160 then Ret bigInode
       else Fail io_EOF)
    (fun off blockOff =>
       if off =? 300 then Ret (skipn (Z.to_nat blockOff) dirTable)
       else Fail io_EOF)
    (fragmentSlice 4096 [fragment0])
    (fun i => if inode.Number i =? 3 then Ret bigBlock else Ret []).

Definition helloworld : list byte := list_byte_of_string "helloworld".

End Sample.


(** The fields of a regular-file inode the file reader looks at:
    [Fragmented], [BlockStart] and [Size]; [None] for every other inode. *)
Definition regularFile (i : inode.Inode) : option (bool * Z * Z) :=
  if inode.Type_ i =? inode.FileType then
    match inode.info i with
    | inode.InfoFile fil =>
      Some (inode.File.Fragmented fil, inode.File.BlockStart fil,
            inode.File.Size fil)
    | _ => None
    end
  else if inode.Type_ i =? inode.ExtFileType then
    match inode.info i with
    | inode.InfoExtFile fil =>
      Some (inode.ExtFile.Fragmented fil, inode.ExtFile.BlockStart fil,
            to_int64 (inode.ExtFile.Size fil))
    | _ => None
    end
  else None.

(** What [NewSquashfsReader] decodes of a byte source: the superblock, the
    section reader limited to [BytesUsed], and what follows the superblock
    in it. *)
Definition superblockOf (src : list byte) : superblock.t :=
  decodeSuperblock (firstn 96 src).

Definition sectionOf (src : list byte) : list byte :=
  firstn (Z.to_nat (to_int64 (superblock.BytesUsed (superblockOf src)))) src.

Definition optionsOf (src : list byte) : list byte := skipn 96 (sectionOf src).

(** The checks of the superblock: 96 bytes, the magic word, and the block
    log against the block size. *)
Definition passesSuperblockChecks (src : list byte) : Prop :=
  (96 <= length src)%nat
  /\ superblock.Magic (superblockOf src) = magic
  /\ superblock.BlockLog (superblockOf src)
     = log2BlockSize (superblock.BlockSize (superblockOf src)).

(** The fields of the options block, section 4.2. *)
Definition gzipWindow (opts : list byte) : Z := le (field 4 2 opts).
Definition gzipStrategies (opts : list byte) : Z := le (field 6 2 opts).
Definition xzFilters (opts : list byte) : Z := le (field 4 4 opts).

(** The compression tags with a decompressor. *)
Definition supportedTag (ct : Z) : bool :=
  (ct =? GzipCompression) || (ct =? LzmaCompression) || (ct =? XzCompression)
  || (ct =? Lz4Compression) || (ct =? ZstdCompression).

Module SampleOpen.

(** A table-loading stage that succeeds, with the id table [0] and no
    fragment offsets, for archives whose superblock is all that is looked
    at. *)
Definition loadTables (sec : list byte) (s : superblock.t)
    (d : compression.Decompressor) : outcome (list Z * list Z * unit) :=
  Ret ([], [0], tt).

Definition pad : list byte := repeat x00%byte 400.


(** Block size 2048 with block log 11: below 4 KiB. *)
Definition srcSmallBlock : list byte :=
  Sample.encSuperblock (Sample.mkSuper 2048 11 GzipCompression 0 496) ++ pad.




(** Gzip with options: level 9, window size 12, default strategy. *)
Definition srcGzipWindow : list byte :=
  Sample.encSuperblock (Sample.mkSuper 131072 17 GzipCompression 1024 496)
  ++ Sample.leBytes 4 9 ++ Sample.leBytes 2 12 ++ Sample.leBytes 2 1
  ++ repeat x00%byte 392.

(** XZ with options: dictionary 1 MiB, filter bit 0 (x86) set. *)
Definition srcXzFilter : list byte :=
  Sample.encSuperblock (Sample.mkSuper 131072 17 XzCompression 1024 496)
  ++ Sample.leBytes 4 1048576 ++ Sample.leBytes 4 1
  ++ repeat x00%byte 392.

End SampleOpen.

(** ** Literal path lookup

    The lookup of section 6 of the specification, against which
    [FileFS.Open] is compared: the elements of the path are taken one after
    the other and each is compared for equality with the names of the
    directory at hand; the first entry with that name is followed. *)

(** The characters [path.Match] gives a meaning to. *)
Definition metaChar (c : ascii) : bool :=
  Ascii.eqb c "*" || Ascii.eqb c "?" || Ascii.eqb c "[" || Ascii.eqb c "\".

Fixpoint noMeta (s : string) : bool :=
  match s with
  | EmptyString => true
  | String c s' => negb (metaChar c) && noMeta s'
  end.

(** A path element that is a plain name: not empty, not "." or "..", with
    no slash and no pattern character, and valid UTF-8. *)
Definition plainElem (e : string) : bool :=
  fs.validElem e && negb (path.hasSlash e) && noMeta e && utf8.ValidString e.



Definition fileNamed (c : string) (f : File2.File) : bool :=
  String.eqb c (File2.Name f).

(** The literal walk from a [File] of the FileCore-based sources: the
    children of a directory are what [ReadDir(-1)] returns. *)
Fixpoint walk2 (d : File2.File) (comps : list string) : outcome File2.File :=
  match comps with
  | [] => Ret d
  | c :: rest =>
    let* (res, _) := File2.ReadDir d (-1) in
    match snd res with
    | None =>
      match find (fileNamed c) (fst res) with
      | Some child => walk2 child rest
      | None => Fail (PathError "open" c fs_ErrNotExist)
      end
    | Some err => Fail err
    end
  end.

Definition walkFrom2 (f : File2.FileCore) (comps : list string)
    : outcome File2.File :=
  let* d := File2.AsFile f in walk2 d comps.

(** The name [FileFS.Open] of the FileCore-based sources works on. *)
Definition cleaned (name : string) : string := TrimPrefix (path.Clean name) "/".

(** What is left of [s] after the prefix [p], if [p] is a prefix. *)
Fixpoint afterPrefix (p s : string) : option string :=
  match p, s with
  | EmptyString, _ => Some s
  | String c p', String d s' => if Ascii.eqb c d then afterPrefix p' s' else None
  | String _ _, EmptyString => None
  end.


(** Whether a computation returns a value. *)
Definition returns {A : Type} (c : outcome A) : bool :=
  match c with Ret _ => true | _ => false end.

(** The root of the example archive, as each of the two sources holds it:
    the [File] with the decoded entries of the root listing, and the
    [FileCore] with [dir] "/". *)
Module SampleRoot.

Definition entries1 : list directory.Entry.t :=
  match File1.readDirFromInode Sample.archive Sample.rootInode with
  | Ret ents => ents
  | _ => []
  end.

Definition root1 : File1.File :=
  File1.mkFile Sample.archive Sample.rootInode None "" entries1 0.

Definition root2 : File2.FileCore :=
  File2.mkCore Sample.archive Sample.rootInode "" "/".

End SampleRoot.

(** ** The mode bits of io/fs

    [fs.FileMode] is a uint32; the type bits are counted down from bit 31. *)
Module FileMode.

Definition ModeDir : Z := Z.shiftl 1 31.
Definition ModeSymlink : Z := Z.shiftl 1 27.
Definition ModeDevice : Z := Z.shiftl 1 26.
Definition ModeNamedPipe : Z := Z.shiftl 1 25.
Definition ModeSocket : Z := Z.shiftl 1 24.
Definition ModeCharDevice : Z := Z.shiftl 1 21.
Definition ModeIrregular : Z := Z.shiftl 1 19.

Definition ModeType : Z :=
  Z.lor ModeDir (Z.lor ModeSymlink (Z.lor ModeNamedPipe (Z.lor ModeSocket
    (Z.lor ModeDevice (Z.lor ModeCharDevice ModeIrregular))))).

Definition ModePerm : Z := 511.

(** [m.Type()], [m.IsDir()], [m.IsRegular()] and [m.Perm()]. *)
Definition Type_ (m : Z) : Z := Z.land m ModeType.
Definition IsDir (m : Z) : bool := negb (Z.land m ModeDir =? 0).
Definition IsRegular (m : Z) : bool := Z.land m ModeType =? 0.
Definition Perm (m : Z) : Z := Z.land m ModePerm.

End FileMode.

(** [strings.HasSuffix]. *)
Definition HasSuffix (s suffix : string) : bool :=
  (String.length suffix <=? String.length s)%nat
  && String.eqb (String.substring (String.length s - String.length suffix)
                   (String.length suffix) s) suffix.

(** ** File and DirEntry of the File-based sources: the other methods *)

Module File1Ops.

(** [Name]. *)
Definition Name (f : File1.File) : string := File1.name f.

(** [Mode]: the permissions of the inode with the directory and the symlink
    bit. *)
Definition Mode (f : File1.File) : Z :=
  let mode := inode.Permissions (File1.in_ f) in
  let mode1 := if File1.IsDir f then Z.lor mode FileMode.ModeDir else mode in
  if File1.IsSymlink f then Z.lor mode1 FileMode.ModeSymlink else mode1.

(** [Sys]: the reader, nil for a file that is not regular. *)
Definition Sys (f : File1.File) : option fileReader.t := File1.reader f.

(** [Close]: the reader becomes nil; the error is nil. *)
Definition Close (f : File1.File) : File1.File :=
  File1.mkFile (File1.r f) (File1.in_ f) None (File1.name f) (File1.entries f)
    (File1.dirsRead f).

(** [SymlinkPath]: a type assertion on [Info] panics when the dynamic type
    is another one. *)
Definition SymlinkPath (f : File1.File) : outcome string :=
  if inode.Type_ (File1.in_ f) =? inode.SymType then
    match inode.info (File1.in_ f) with
    | inode.InfoSym s => Ret (inode.Sym.Path s)
    | _ => Panic
    end
  else if inode.Type_ (File1.in_ f) =? inode.ExtSymType then
    match inode.info (File1.in_ f) with
    | inode.InfoExtSym s => Ret (inode.ExtSym.Path s)
    | _ => Panic
    end
  else Ret "".

(** [GetSymlinkFile]; [parent] is the field [f.parent], the [File] the
    [*FileFS] wraps ([None] for a nil pointer, on which the call of [Open]
    panics).  The result [None] is the nil [*File]. *)
Definition GetSymlinkFile (parent : option File1.File) (f : File1.File)
    : outcome (option File1.File) :=
  if negb (File1.IsSymlink f) then Ret None
  else
    let* target := SymlinkPath f in
    if HasSuffix target "/" then Ret None
    else
      match parent with
      | None => Panic
      | Some p =>
        match File1.FileFS_Open p target with
        | Ret fil => Ret (Some fil)
        | Fail _ => Ret None
        | Panic => Panic
        | Timeout => Timeout
        end
      end.

(** [DirEntry.IsDir] and [DirEntry.Type]. *)
Definition DirEntry_IsDir (d : File1.DirEntry) : bool :=
  directory.Entry.Type_ (File1.en d) =? inode.DirType.

Definition DirEntry_Type (d : File1.DirEntry) : Z :=
  let ty := directory.Entry.Type_ (File1.en d) in
  if ty =? inode.DirType then FileMode.ModeDir
  else if ty =? inode.SymType then FileMode.ModeSymlink
  else if ty =? inode.SocketType then FileMode.ModeSocket
  else if ty =? inode.BlockDevType then FileMode.ModeDevice
  else if ty =? inode.CharDevType then FileMode.ModeCharDevice
  else 0.

End File1Ops.

(** ** File, FileCore and FileFS of the FileCore-based sources: the other
    methods *)

Module File2Ops.

(** [File.Mode] and [File.Type]. *)
Definition Mode (f : File2.File) : Z := File2.mode f.
Definition Type_ (f : File2.File) : Z := FileMode.Type_ (File2.mode f).

(** [File.Close]: the error, and the file afterwards. *)
Definition Close (f : File2.File) : option error * File2.File :=
  match File2.rdr f with
  | None => (Some fs_ErrClosed, f)
  | Some _ =>
    (None, File2.mkFile (File2.core f) None (File2.directory f)
             (File2.dirIndex f) (File2.mode f))
  end.

(** [FileCore.Path]. *)
Definition Path (f : File2.FileCore) : string :=
  if String.eqb (File2.name f) "" then File2.dir f
  else (File2.dir f ++ "/" ++ File2.name f)%string.

(** [FileCore.AsFS]: the [FileFS] wraps the [*FileCore]. *)
Definition AsFS (f : File2.FileCore) : outcome File2.FileCore :=
  if negb (File2.IsDir f) then Fail errNotDirectory else Ret f.

(** [FileCore.SymlinkPath]. *)
Definition SymlinkPath (f : File2.FileCore) : outcome string :=
  if inode.Type_ (File2.in_ f) =? inode.SymType then
    match inode.info (File2.in_ f) with
    | inode.InfoSym s => Ret (inode.Sym.Path s)
    | _ => Panic
    end
  else if inode.Type_ (File2.in_ f) =? inode.ExtSymType then
    match inode.info (File2.in_ f) with
    | inode.InfoExtSym s => Ret (inode.ExtSym.Path s)
    | _ => Panic
    end
  else Ret "".

(** The error [errNotFile] of squashfsreader.go. *)
Definition errNotFile : error := errOther "File is not a file".

(** [FileFS.ReadFile]: the bytes and the error returned with them.  The
    file [Open] returns has a [WriteTo], which [io.Copy] calls; an
    [*fs.PathError] built without [Op] has the empty one. *)
Definition ReadFile (f : File2.FileCore) (name : string)
    : outcome (list byte * option error) :=
  match File2.FileFS_Open f name with
  | Ret tmp =>
    if negb (FileMode.IsRegular (Mode tmp))
    then Fail (PathError "" name errNotFile)
    else
      let* (res, err) := File2.WriteTo tmp in
      Ret (fst res, err)
  | Fail err => Fail (PathError "" name err)
  | Panic => Panic
  | Timeout => Timeout
  end.

(** [FileFS.Stat]. *)
Definition Stat (f : File2.FileCore) (name : string) : outcome File2.File :=
  match File2.FileFS_Open f name with
  | Ret fil => Ret fil
  | Fail (PathError _ _ err) => Fail (PathError "stat" name err)
  | Fail err => Fail err
  | Panic => Panic
  | Timeout => Timeout
  end.

(** [FileFS.Sub]. *)
Definition Sub (f : File2.FileCore) (dir : string) : outcome File2.FileCore :=
  match File2.FileFS_Open f dir with
  | Ret fil => AsFS (File2.core fil)
  | Fail (PathError _ _ err) => Fail (PathError "sub" dir err)
  | Fail err => Fail err
  | Panic => Panic
  | Timeout => Timeout
  end.

(** [FileFS.ReadDir], with the fuel of [FileFS_Open]. *)
Definition FileFS_ReadDir (f : File2.FileCore) (name : string)
    : outcome (list File2.File * option error) :=
  File2.FSReadDir (S (S (2 * String.length name))) f name.

End File2Ops.

(** A symlink of the File-based sources, for the concrete statements: the
    entry l of the root of the example archive, with the given target. *)
Module SampleLink.

Definition linkInode (target : string) : inode.Inode :=
  inode.mkInode (inode.InfoSym (inode.Sym.mk target)) inode.SymType 511 0 0 0 9.

Definition link1 (target : string) : File1.File :=
  File1.mkFile Sample.archive (linkInode target) None "l" [] 0.

End SampleLink.

(** Whether every entry of a listing yields a file: the inode is decoded
    and [AsFile] returns. *)
Definition childLoads (a : Archive) (e : directory.Entry.t) : bool :=
  returns (let* c := File2.newFileFromDirEntry a e in File2.AsFile c).

Definition childrenLoad (a : Archive) (ents : list directory.Entry.t) : bool :=
  forallb (childLoads a) ents.

(** The root directory of the example archive as the [File] that [AsFile]
    builds. *)
Definition sampleRootFile2 : File2.File :=
  match File2.AsFile SampleRoot.root2 with
  | Ret file => file
  | _ => File2.mkFile SampleRoot.root2 None None 0 0
  end.


(** ** The on-disk layout of a directory listing

    A listing is a sequence of groups, each a header (entry count less one,
    inode-table block offset, inode number) followed by its entries; an
    entry is the in-block offset, the inode-number delta, the type and the
    name length less one, then the name.  [Sample.encDir] writes one group.
    The decoder is stated against this layout. *)
Module DirLayout.

Definition entry : Type := (Z * Z * string)%type.
Definition group : Type := (Z * list entry)%type.

Definition wfEntry (e : entry) : bool :=
  let '(off, ty, nm) := e in
  (0 <=? off) && (off <? 65536) && (0 <=? ty) && (ty <? 65536)
  && (1 <=? Z.of_nat (String.length nm))
  && (Z.of_nat (String.length nm) <=? 65535).

(** A group of 1 to 256 entries below a header with a 32-bit offset. *)
Definition wfGroup (g : group) : bool :=
  (0 <=? fst g) && (fst g <? 4294967296)
  && (1 <=? length (snd g))%nat && (length (snd g) <=? 256)%nat
  && forallb wfEntry (snd g).

Definition encGroup (g : group) : list byte := Sample.encDir (fst g) (snd g).

Definition encListing (gs : list group) : list byte := concat (map encGroup gs).

(** The entry the decoder is to return for an entry of a group. *)
Definition entryOf (inodeOff : Z) (e : entry) : directory.Entry.t :=
  let '(off, ty, nm) := e in directory.Entry.mk nm ty off inodeOff.

Definition entriesOf (g : group) : list directory.Entry.t :=
  map (entryOf (fst g)) (snd g).

Definition listingOf (gs : list group) : list directory.Entry.t :=
  concat (map entriesOf gs).

End DirLayout.

(** ** inode.ProcessInode (internal/inode/process.go)

    The decoders of the inode bodies ([NewFile], [NewSymlink],
    [NewExtendedDirectory], [NewExtendedFile], [NewExtendedSymlink] and the
    [binary.Read] of the fixed-size structs [Dir], [Device], [IPC],
    [ExtDevice], [ExtIPC]) are defined next to the structs, outside the
    sources at hand; [ProcessInode] is stated over any such decoders, each
    taking the reader and returning the body and the reader behind it. *)
Module process.

Section Decoders.

Variable readDir : list byte -> outcome (inode.Dir.t * list byte).
Variable NewFile : list byte -> Z -> outcome (inode.File.t * list byte).
Variable NewSymlink : list byte -> outcome (inode.Sym.t * list byte).
Variable readDevice : list byte -> outcome (unit * list byte).
Variable readIPC : list byte -> outcome (unit * list byte).
Variable NewExtendedDirectory : list byte -> outcome (inode.ExtDir.t * list byte).
Variable NewExtendedFile : list byte -> Z -> outcome (inode.ExtFile.t * list byte).
Variable NewExtendedSymlink : list byte -> outcome (inode.ExtSym.t * list byte).
Variable readExtDevice : list byte -> outcome (unit * list byte).
Variable readExtIPC : list byte -> outcome (unit * list byte).

(** Modelled from the spec: the struct [Header] is declared outside the
    sources at hand.  Section 4.4: a 16-byte common header; section 3: inode
    kind, permissions, UID index, GID index (16 bits each), modified time
    and inode number (32 bits each).  The result is the inode with the
    given [Info]. *)
Definition decodeHeader (bs : list byte) (info : inode.Info) : inode.Inode :=
  inode.mkInode info (le (field 0 2 bs)) (le (field 2 2 bs)) (le (field 4 2 bs))
    (le (field 6 2 bs)) (le (field 8 4 bs)) (le (field 12 4 bs)).

(** [ProcessInode(br, blockSize)]: the inode and the reader behind it.  The
    [switch] has no default: for a type outside 1..14 [Info] stays nil. *)
Definition ProcessInode (br : list byte) (blockSize : Z)
    : outcome (inode.Inode * list byte) :=
  let* (hdr, br1) := readFull 16 br in
  let ty := le (field 0 2 hdr) in
  if ty =? inode.DirType then
    let* (body, br2) := readDir br1 in
    Ret (decodeHeader hdr (inode.InfoDir body), br2)
  else if ty =? inode.FileType then
    let* (body, br2) := NewFile br1 blockSize in
    Ret (decodeHeader hdr (inode.InfoFile body), br2)
  else if ty =? inode.SymType then
    let* (body, br2) := NewSymlink br1 in
    Ret (decodeHeader hdr (inode.InfoSym body), br2)
  else if ty =? inode.BlockDevType then
    let* (_, br2) := readDevice br1 in
    Ret (decodeHeader hdr inode.InfoDevice, br2)
  else if ty =? inode.CharDevType then
    let* (_, br2) := readDevice br1 in
    Ret (decodeHeader hdr inode.InfoDevice, br2)
  else if ty =? inode.FifoType then
    let* (_, br2) := readIPC br1 in
    Ret (decodeHeader hdr inode.InfoIPC, br2)
  else if ty =? inode.SocketType then
    let* (_, br2) := readIPC br1 in
    Ret (decodeHeader hdr inode.InfoIPC, br2)
  else if ty =? inode.ExtDirType then
    let* (body, br2) := NewExtendedDirectory br1 in
    Ret (decodeHeader hdr (inode.InfoExtDir body), br2)
  else if ty =? inode.ExtFileType then
    let* (body, br2) := NewExtendedFile br1 blockSize in
    Ret (decodeHeader hdr (inode.InfoExtFile body), br2)
  else if ty =? inode.ExtSymType then
    let* (body, br2) := NewExtendedSymlink br1 in
    Ret (decodeHeader hdr (inode.InfoExtSym body), br2)
  else if ty =? inode.ExtBlockDeviceType then
    let* (_, br2) := readExtDevice br1 in
    Ret (decodeHeader hdr inode.InfoExtDevice, br2)
  else if ty =? inode.ExtCharDeviceType then
    let* (_, br2) := readExtDevice br1 in
    Ret (decodeHeader hdr inode.InfoExtDevice, br2)
  else if ty =? inode.ExtFifoType then
    let* (_, br2) := readExtIPC br1 in
    Ret (decodeHeader hdr inode.InfoExtIPC, br2)
  else if ty =? inode.ExtSocketType then
    let* (_, br2) := readExtIPC br1 in
    Ret (decodeHeader hdr inode.InfoExtIPC, br2)
  else Ret (decodeHeader hdr inode.InfoNil, br1).

End Decoders.

End process.

(** Whether the dynamic type of [Info] is the one the callers assert for
    the type of the inode: [Dir], [File], [Sym] and their extended forms for
    the directory, file and symlink types; the other types are asserted
    nowhere. *)
Definition infoMatches (i : inode.Inode) : bool :=
  let ty := inode.Type_ i in
  match inode.info i with
  | inode.InfoDir _ => ty =? inode.DirType
  | inode.InfoFile _ => ty =? inode.FileType
  | inode.InfoSym _ => ty =? inode.SymType
  | inode.InfoExtDir _ => ty =? inode.ExtDirType
  | inode.InfoExtFile _ => ty =? inode.ExtFileType
  | inode.InfoExtSym _ => ty =? inode.ExtSymType
  | _ =>
    negb ((ty =? inode.DirType) || (ty =? inode.FileType) || (ty =? inode.SymType)
          || (ty =? inode.ExtDirType) || (ty =? inode.ExtFileType)
          || (ty =? inode.ExtSymType))
  end.

(** Decoders for the concrete statements: a directory body of 16 bytes with
    the fields in format order, and bodies that cannot be read for the
    rest. *)
Module SampleInode.

Definition readDir (br : list byte) : outcome (inode.Dir.t * list byte) :=
  let* (bs, rest) := readFull 16 br in
  Ret (inode.Dir.mk (le (field 0 4 bs)) (le (field 8 2 bs)) (le (field 10 2 bs)),
       rest).

Definition noBody {A : Type} (br : list byte) : outcome (A * list byte) :=
  Fail (errOther "not decoded").

Definition ProcessInode : list byte -> Z -> outcome (inode.Inode * list byte) :=
  process.ProcessInode readDir (fun br _ => noBody br) noBody noBody noBody
    noBody (fun br _ => noBody br) noBody noBody noBody.

(** A header with the given type, permissions 0644, inode number 7. *)
Definition header (ty : Z) : list byte :=
  Sample.leBytes 2 ty ++ Sample.leBytes 2 420 ++ Sample.leBytes 2 0
  ++ Sample.leBytes 2 0 ++ Sample.leBytes 4 0 ++ Sample.leBytes 4 7.

End SampleInode.

(** ** The Writer (part_002): the tree of files to write

    [Writer.structure] maps a directory path to the holders of the files in
    it, [map[string][]*fileHolder].  The map is an association list with one
    pair per key: a lookup takes the first pair of the key, an assignment
    replaces it or adds a pair.  A nil slice and an empty slice behave alike
    in every function below and are both the empty list.  The [io.Reader]
    of a holder is an opaque handle. *)
Module Writer.

Record fileHolder : Type := mkHolder {
  reader : nat;
  h_path : string;
  h_name : string;
  symLocation : string;
  UID : Z;
  GUID : Z;
  perm : Z;
  size : Z;
  folder : bool;
  symlink : bool }.

Definition Structure : Type := list (string * list fileHolder).

Record t : Type := mk {
  structure : Structure;
  symlinkTable : list (string * string);
  uidGUIDTable : list Z;
  compressionType : Z;
  BlockSize : Z;
  allowErrors : bool }.

(** [m[k]] with the comma-ok form, and [m[k] = v]. *)
Fixpoint lookup (k : string) (m : Structure) : option (list fileHolder) :=
  match m with
  | [] => None
  | (k', v) :: rest => if String.eqb k k' then Some v else lookup k rest
  end.

Fixpoint assign (k : string) (v : list fileHolder) (m : Structure) : Structure :=
  match m with
  | [] => [(k, v)]
  | (k', v') :: rest =>
    if String.eqb k k' then (k, v) :: rest else (k', v') :: assign k v rest
  end.

Definition withStructure (w : t) (m : Structure) : t :=
  mk m (symlinkTable w) (uidGUIDTable w) (compressionType w) (BlockSize w)
     (allowErrors w).

(** [NewWriterWithOptions] and [NewWriter]. *)
Definition NewWriterWithOptions (compressionType : Z) (allowErrors : bool)
    : outcome t :=
  if (compressionType <? 0) || (compressionType >? 6)
  then Fail (errOther "Incorrect compression type")
  else if compressionType =? 3
  then Fail (errOther "LZO compression is not (currently) supported")
  else Ret (mk [("/", [])] [] [] compressionType 1048576 allowErrors).

Definition NewWriter : outcome t := NewWriterWithOptions GzipCompression true.

(** The first lines of [AddReaderTo], [Remove], [holderAt] and [Contains]:
    the path is cleaned and made absolute. *)
Definition absolute (filepath : string) : string :=
  let c := path.Clean filepath in
  if HasPrefix c "/" then c else ("/" ++ c)%string.

(** [path.Split]: the directory with its final slash, and the file. *)
Definition path_Split (p : string) : string * string :=
  (path.dirPart p, path.lastElem p).

Fixpoint findHolder (name : string) (holders : list fileHolder)
    : option fileHolder :=
  match holders with
  | [] => None
  | h :: rest => if String.eqb (h_name h) name then Some h else findHolder name rest
  end.

(** [holderAt]: the first holder of that name in its directory, nil
    ([None]) without one. *)
Definition holderAt (w : t) (filepath : string) : option fileHolder :=
  let (dir, name) := path_Split (absolute filepath) in
  match lookup dir (structure w) with
  | Some holderSlice => findHolder name holderSlice
  | None => None
  end.

(** [Contains]. *)
Definition Contains (w : t) (filepath : string) : bool :=
  let (dir, name) := path_Split (absolute filepath) in
  match lookup dir (structure w) with
  | Some holderSlice =>
    match findHolder name holderSlice with Some _ => true | None => false end
  | None => false
  end.

(** [AddReaderTo]: [Contains] is called on the path already made absolute
    and makes it absolute once more. *)
Definition AddReaderTo (w : t) (filepath : string) (rd : nat) : outcome t :=
  let fp := absolute filepath in
  if Contains w fp
  then Fail (errOther ("File already exists at " ++ fp))
  else
    let (dir, name) := path_Split fp in
    let holder := mkHolder rd dir name "" 0 0 0 0 false false in
    let old := match lookup dir (structure w) with Some s => s | None => [] end in
    Ret (withStructure w (assign dir (old ++ [holder]) (structure w))).

(** [s[i] = x] on a list. *)
Fixpoint replaceAt {A : Type} (i : nat) (x : A) (l : list A) : list A :=
  match l, i with
  | [], _ => []
  | _ :: rest, O => x :: rest
  | y :: rest, S i' => y :: replaceAt i' x rest
  end.

(** The loop over [files] in [Remove], for one directory.  [files] is the
    slice the [range] clause read; [s] is [w.structure[structDir]], which
    starts as the same slice and is shortened as holders are removed.  A
    removal writes at index [i] of the shared array, which the loop has
    passed, so [files[i]] reads the holders as they were.  The index
    expression [w.structure[structDir][i]] panics when [i] is beyond the
    shortened slice; the error of [path.Match] is dropped. *)
Fixpoint removeLoop (name : string) (files : list fileHolder) (i : nat)
    (s : list fileHolder) (found : bool) : outcome (list fileHolder * bool) :=
  match files with
  | [] => Ret (s, found)
  | h :: rest =>
    match path.Match name (h_name h) with
    | Ret true =>
      if (1 <? length s)%nat then
        if (i <? length s)%nat
        then removeLoop name rest (S i) (removelast (replaceAt i (last s h) s)) true
        else Panic
      else removeLoop name rest (S i) [] true
    | Ret false => removeLoop name rest (S i) s found
    | Fail _ => removeLoop name rest (S i) s found
    | Panic => Panic
    | Timeout => Timeout
    end
  end.

(** The loop over the directories: each pair of the map is visited once,
    and a visit changes the slice of its own key only, so the order of the
    visits, which Go leaves open, does not show in the result. *)
Fixpoint removeDirs (dir name : string) (m : Structure) (found : bool)
    : outcome (Structure * bool) :=
  match m with
  | [] => Ret ([], found)
  | (structDir, files) :: rest =>
    let* (entry, found1) :=
      (match path.Match dir structDir with
       | Ret true =>
         let* (s, f) := removeLoop name files 0 files found in
         Ret ((structDir, s), f)
       | Ret false => Ret ((structDir, files), found)
       | Fail _ => Ret ((structDir, files), found)
       | Panic => Panic
       | Timeout => Timeout
       end) in
    let* (rest', found2) := removeDirs dir name rest found1 in
    Ret (entry :: rest', found2)
  end.

(** [Remove]: the writer afterwards and [matchFound]. *)
Definition Remove (w : t) (filepath : string) : outcome (t * bool) :=
  let (dir, name) := path_Split (absolute filepath) in
  let* (m, found) := removeDirs dir name (structure w) false in
  Ret (withStructure w m, found).

(** A writer as the functions above keep it: one pair per directory, and no
    two holders of one name in a directory. *)
Fixpoint distinctNames (holders : list fileHolder) : bool :=
  match holders with
  | [] => true
  | h :: rest =>
    match findHolder (h_name h) rest with
    | Some _ => false
    | None => distinctNames rest
    end
  end.

Fixpoint wellFormed (m : Structure) : bool :=
  match m with
  | [] => true
  | (k, v) :: rest =>
    match lookup k rest with
    | Some _ => false
    | None => distinctNames v && wellFormed rest
    end
  end.

End Writer.

(** A writer for the concrete statements: the files a, b and c in the root
    and d in the directory /x/. *)
Module SampleWriter.

Definition holder (rd : nat) (dir name : string) : Writer.fileHolder :=
  Writer.mkHolder rd dir name "" 0 0 0 0 false false.

Definition w : Writer.t :=
  Writer.mk [("/", [holder 1 "/" "a"; holder 2 "/" "b"; holder 3 "/" "c"]);
             ("/x/", [holder 4 "/x/" "d"])]
    [] [] GzipCompression 1048576 true.

End SampleWriter.

(** What [Remove] leaves of the holders of a directory when [name] is a
    plain name, held by one holder at most: that holder goes and the last
    holder of the directory takes its place. *)
Module WriterSpec.

Definition hasName (name : string) (holders : list Writer.fileHolder) : bool :=
  match Writer.findHolder name holders with Some _ => true | None => false end.

Fixpoint removeNamed (name : string) (holders : list Writer.fileHolder)
    : list Writer.fileHolder :=
  match holders with
  | [] => []
  | h :: rest =>
    if String.eqb (Writer.h_name h) name then
      match rest with
      | [] => []
      | _ :: _ => last rest h :: removelast rest
      end
    else h :: removeNamed name rest
  end.

(** The directory and the file a path names, once cleaned and made
    absolute. *)
Definition place (filepath : string) : string * string :=
  Writer.path_Split (Writer.absolute filepath).

Definition samePlace (p q : string) : bool :=
  String.eqb (fst (place p)) (fst (place q))
  && String.eqb (snd (place p)) (snd (place q)).

(** The map after the removal of the holder named [name] from the
    directory [dir], and whether there was one. *)
Definition removeFrom (dir name : string) (m : Writer.Structure)
    : Writer.Structure :=
  map (fun e => if String.eqb dir (fst e)
                then (fst e, removeNamed name (snd e)) else e) m.

Definition foundIn (dir name : string) (m : Writer.Structure) : bool :=
  existsb (fun e => String.eqb dir (fst e) && hasName name (snd e)) m.

End WriterSpec.

(** The reader [newFileReader] builds for the file c of the example
    archive. *)
Definition sampleHelloReader : fileReader.t :=
  fileReader.mk None Sample.archive Sample.helloInode (Some Sample.helloworld)
    true true 0 10.

(** * Properties *)

(** ** File.Size on inodes that are not regular files *)

(** C10: for every File whose inode is neither a basic nor an extended
    regular file, [Size] returns 0; both declarations of [File.Size]. *)
Theorem Size_zero_unless_regular :
  forall i : inode.Inode,
    inode.Type_ i <> inode.FileType ->
    inode.Type_ i <> inode.ExtFileType ->
    (forall f : File1.File, File1.in_ f = i -> File1.Size f = Ret 0)
    /\ (forall f : File2.File,
          File2.in_ (File2.core f) = i -> File2.Size f = Ret 0).
Proof.
  intros i Hf He. split; intros f Hi.
  - unfold File1.Size. rewrite Hi.
    destruct (Z.eqb_spec (inode.Type_ i) inode.FileType); [contradiction|].
    destruct (Z.eqb_spec (inode.Type_ i) inode.ExtFileType); [contradiction|].
    reflexivity.
  - unfold File2.Size. rewrite Hi.
    destruct (Z.eqb_spec (inode.Type_ i) inode.ExtFileType); [contradiction|].
    destruct (Z.eqb_spec (inode.Type_ i) inode.FileType); [contradiction|].
    reflexivity.
Qed.

Lemma Size_zero_unless_regular_witness :
  inode.Type_ Sample.rootInode <> inode.FileType
  /\ inode.Type_ Sample.rootInode <> inode.ExtFileType
  /\ File1.Size (File1.mkFile Sample.archive Sample.rootInode None "" [] 0)
     = Ret 0.
Proof.
  split; [discriminate|]. split; [discriminate|].
  apply (Size_zero_unless_regular Sample.rootInode); [discriminate|discriminate|reflexivity].
Defined.

(** ** File.ReadDir with a negative count *)

Lemma to_int64_id (z : Z) :
  -9223372036854775808 <= z < 9223372036854775808 -> to_int64 z = z.
Proof.
  intros H. unfold to_int64. rewrite Z.mod_small; lia.
Qed.

(** With a count below zero the slice expression [f.entries[beg:end]] has
    [end < beg] or [beg < 0], whatever [dirsRead] holds. *)
Lemma ReadDir_negative_panics (f : File1.File) (i : Z) :
  File1.IsDir f = true ->
  -9223372036854775808 <= File1.dirsRead f < 9223372036854775808 ->
  -9223372036854775808 <= i < 0 ->
  File1.ReadDir f i = Panic.
Proof.
  intros Hd Hr Hi. unfold File1.ReadDir. rewrite Hd. cbn [negb].
  destruct (Z.geb_spec i 0) as [Hge|_]; [lia|].
  set (len := Z.of_nat (length (File1.entries f))).
  assert (Hlen : 0 <= len) by (unfold len; lia).
  destruct (Z_lt_le_dec (File1.dirsRead f) 0) as [Hneg|Hpos].
  - assert (Hs : forall e, slice (File1.entries f) (File1.dirsRead f) e = Panic).
    { intros e. unfold slice.
      destruct (Z.leb_spec 0 (File1.dirsRead f)); [lia|reflexivity]. }
    destruct (to_int64 (File1.dirsRead f + i) >? len); cbn; rewrite Hs; reflexivity.
  - rewrite to_int64_id by lia.
    destruct (Z.gtb_spec (File1.dirsRead f + i) len) as [Hgt|Hle]; cbn.
    + unfold slice. fold len.
      destruct (Z.leb_spec 0 (File1.dirsRead f)); [|lia].
      destruct (Z.leb_spec (File1.dirsRead f) len); [lia|reflexivity].
    + unfold slice.
      destruct (Z.leb_spec 0 (File1.dirsRead f)); [|lia].
      destruct (Z.leb_spec (File1.dirsRead f) (File1.dirsRead f + i)); [lia|reflexivity].
Qed.

(** The documented case, a count of zero or more: all entries, no error. *)
Lemma ReadDir_nonnegative (f : File1.File) (i : Z) :
  File1.IsDir f = true -> 0 <= i ->
  File1.ReadDir f i
  = Ret (map (fun ent => File1.mkDirEntry ent (Some (File1.r f))) (File1.entries f),
         None, f).
Proof.
  intros Hd Hi. unfold File1.ReadDir. rewrite Hd. cbn [negb].
  destruct (Z.geb_spec i 0) as [_|Hlt]; [|lia].
  unfold slice.
  destruct (Z.leb_spec 0 0); [|lia].
  destruct (Z.leb_spec 0 (Z.of_nat (length (File1.entries f)))); [|lia].
  destruct (Z.leb_spec (Z.of_nat (length (File1.entries f)))
              (Z.of_nat (length (File1.entries f)))); [|lia].
  cbn. rewrite Z.sub_0_r, Nat2Z.id, firstn_all. reflexivity.
Qed.

(** C9: [ReadDir(-1)] on the root directory of the example archive, whose
    entries are a, b and big, panics on the slice bounds. *)
Theorem ReadDir_minus_one_panics :
  exists root,
    File1.newFileFromInode Sample.archive Sample.rootInode = Ret root
    /\ map directory.Entry.Name (File1.entries root) = ["a"; "b"; "big"]
    /\ File1.ReadDir root (-1) = Panic.
Proof.
  eexists. split; [vm_compute; reflexivity|]. split; [reflexivity|].
  apply ReadDir_negative_panics; [reflexivity|cbn; lia|lia].
Qed.

(** ** File.WriteTo *)

Lemma WriteTo_never_returns (fuel : nat) (f : File1.File) (w : list byte) :
  File1.WriteTo fuel f w = Timeout.
Proof. induction fuel as [|fuel IH]; [reflexivity|exact IH]. Qed.

(** ** Reading a file to end-of-stream *)

(** A fragment-only reader that has delivered [k] bytes delivers the rest of
    the fragment and then end-of-stream, whatever the (positive) buffer
    lengths. *)
Lemma readAll_fragOnly (fuel : nat) :
  forall (f : fileReader.t) (k : nat) (bufs : nat -> nat),
    fileReader.fragOnly f = true ->
    fileReader.read f = Z.of_nat k ->
    (k <= length (fileReader.bytesOf (fileReader.fragmentData f)))%nat ->
    (length (fileReader.bytesOf (fileReader.fragmentData f)) - k < fuel)%nat ->
    Z.of_nat (length (fileReader.bytesOf (fileReader.fragmentData f)))
      < 9223372036854775808 ->
    (forall j, (0 < bufs j)%nat) ->
    fileReader.readAll fuel f bufs
    = Ret (skipn k (fileReader.bytesOf (fileReader.fragmentData f))).
Proof.
  induction fuel as [|fuel IH]; intros f k bufs Hfo Hrd Hk Hfuel Hbound Hpos;
    [lia|].
  set (frag := fileReader.bytesOf (fileReader.fragmentData f)) in *.
  cbn [fileReader.readAll]. unfold fileReader.Read. rewrite Hfo. fold frag.
  unfold slice. rewrite Hrd.
  destruct (Z.leb_spec 0 (Z.of_nat k)); [|lia].
  destruct (Z.leb_spec (Z.of_nat k) (Z.of_nat (length frag))); [|lia].
  destruct (Z.leb_spec (Z.of_nat (length frag)) (Z.of_nat (length frag))); [|lia].
  cbn [andb bind].
  rewrite Nat2Z.id.
  assert (Hsk : length (skipn k frag) = (length frag - k)%nat)
    by apply length_skipn.
  rewrite firstn_all2 by lia.
  unfold Buffer_Read.
  destruct (skipn k frag) as [|b rest] eqn:Hrest.
  - pose proof (Hpos O). destruct (Nat.eqb_spec (bufs O) 0); [lia|].
    reflexivity.
  - cbn [bind snd fst].
    set (out := firstn (bufs O) (b :: rest)).
    assert (Hout : (0 < length out <= length frag - k)%nat).
    { unfold out. rewrite length_firstn. cbn [length] in *.
      pose proof (Hpos O). lia. }
    rewrite (IH _ (k + length out)%nat).
    + cbn [bind fileReader.withRead fileReader.fragmentData fileReader.bytesOf].
      fold frag. f_equal.
      rewrite Nat.add_comm, <- skipn_skipn, Hrest.
      unfold out. rewrite length_firstn.
      destruct (Nat.min_spec (bufs O) (length (b :: rest))) as [[_ ->]|[Hle ->]].
      * apply firstn_skipn.
      * rewrite firstn_all2 by lia. rewrite skipn_all. apply app_nil_r.
    + exact Hfo.
    + cbn. rewrite to_int64_id by lia. lia.
    + cbn. fold frag. lia.
    + cbn. fold frag. lia.
    + exact Hbound.
    + intros j. apply Hpos.
Qed.

Lemma newFileReader_regular (a : Archive) (i : inode.Inode) (fr : bool) (bs sz : Z) :
  regularFile i = Some (fr, bs, sz) ->
  fileReader.newFileReader a i
  = (let* frag := (if fr then getFragmentDataFromInode a i else Ret None) in
     let* d :=
       (if bs =? 0 then Ret None
        else match newDataReaderFromInode a i with
             | Ret d => Ret (Some d)
             | Fail _ => Ret None
             | Panic => Panic
             | Timeout => Timeout
             end) in
     Ret (fileReader.mk d a i frag fr (bs =? 0) 0 sz)).
Proof.
  unfold regularFile, fileReader.newFileReader. intros H.
  destruct (Z.eqb_spec (inode.Type_ i) inode.FileType) as [Hf|Hf].
  - cbn [negb andb]. destruct (inode.info i); try discriminate.
    injection H as <- <- <-. reflexivity.
  - destruct (Z.eqb_spec (inode.Type_ i) inode.ExtFileType) as [He|He];
      [|discriminate].
    cbn [negb andb]. destruct (inode.info i); try discriminate.
    injection H as <- <- <-. reflexivity.
Qed.

(** C3: a regular-file inode with [BlockStart] 0 and a fragment is read as
    exactly the fragment slice [getFragmentDataFromInode] returns, followed
    by end-of-stream, for all positive buffer lengths and enough fuel. *)
Theorem read_fragment_only :
  forall (a : Archive) (i : inode.Inode) (sz : Z) (frag : option (list byte))
         (bufs : nat -> nat) (fuel : nat),
    regularFile i = Some (true, 0, sz) ->
    getFragmentDataFromInode a i = Ret frag ->
    Z.of_nat (length (fileReader.bytesOf frag)) < 9223372036854775808 ->
    (forall j, (0 < bufs j)%nat) ->
    (length (fileReader.bytesOf frag) < fuel)%nat ->
    exists rd,
      fileReader.newFileReader a i = Ret rd
      /\ fileReader.readAll fuel rd bufs = Ret (fileReader.bytesOf frag).
Proof.
  intros a i sz frag bufs fuel Hreg Hfrag Hbound Hpos Hfuel.
  rewrite (newFileReader_regular a i true 0 sz Hreg), Hfrag. cbn.
  eexists. split; [reflexivity|].
  rewrite (readAll_fragOnly fuel _ 0 bufs).
  - reflexivity.
  - reflexivity.
  - reflexivity.
  - cbn. lia.
  - cbn. lia.
  - exact Hbound.
  - exact Hpos.
Qed.

Lemma read_fragment_only_witness :
  regularFile Sample.helloInode = Some (true, 0, 10)
  /\ getFragmentDataFromInode Sample.archive Sample.helloInode
     = Ret (Some Sample.helloworld)
  /\ exists rd,
       fileReader.newFileReader Sample.archive Sample.helloInode = Ret rd
       /\ fileReader.readAll 11 rd (fun _ => 4%nat) = Ret Sample.helloworld.
Proof.
  split; [reflexivity|]. split; [reflexivity|].
  apply (read_fragment_only Sample.archive Sample.helloInode 10
           (Some Sample.helloworld) (fun _ => 4%nat) 11%nat).
  - reflexivity.
  - reflexivity.
  - cbn. lia.
  - intros _. lia.
  - cbn. lia.
Defined.

(** The calls of [Read] on the 10-byte file with buffers of 4 bytes:
    "hell", "owor", "ld", then no bytes and [io.EOF]. *)
Example read_helloworld_by_four :
  exists rd1 rd2 rd3 rd4 rd5,
    fileReader.newFileReader Sample.archive Sample.helloInode = Ret rd1
    /\ fileReader.Read rd1 4 = Ret (list_byte_of_string "hell", None, rd2)
    /\ fileReader.Read rd2 4 = Ret (list_byte_of_string "owor", None, rd3)
    /\ fileReader.Read rd3 4 = Ret (list_byte_of_string "ld", None, rd4)
    /\ fileReader.Read rd4 4 = Ret ([], Some io_EOF, rd5).
Proof. do 5 eexists. repeat split; reflexivity. Qed.

(** ** A fragment tail after data blocks *)

(** Once a reader with data blocks and a non-empty fragment is past its
    data, every [Read] copies the fragment from its first byte again and
    returns no error: reading to end-of-stream does not end. *)
Lemma readAll_fragment_tail_never_ends (fuel : nat) :
  forall (f : fileReader.t) (d frag : list byte) (bufs : nat -> nat),
    fileReader.fragOnly f = false ->
    fileReader.fragged f = true ->
    fileReader.data f = Some d ->
    fileReader.fragmentData f = Some frag ->
    frag <> [] ->
    (forall j, (0 < bufs j)%nat) ->
    fileReader.readAll fuel f bufs = Timeout.
Proof.
  induction fuel as [|fuel IH]; intros f d frag bufs Hfo Hfr Hd Hfd Hne Hpos;
    [reflexivity|].
  cbn [fileReader.readAll]. unfold fileReader.Read. rewrite Hfo, Hd.
  pose proof (Hpos O) as Hp0.
  destruct d as [|b d'].
  - cbn [dataReader.Read]. destruct (Nat.eqb_spec (bufs O) 0); [lia|].
    rewrite Hfr, Hfd. cbn [bind fileReader.bytesOf length].
    unfold Buffer_Read. destruct frag as [|c frag']; [contradiction|].
    cbn [bind snd fst].
    rewrite (IH _ [] (c :: frag')); auto.
  - cbn [dataReader.Read bind snd fst].
    rewrite (IH _ (skipn (bufs O) (b :: d')) frag); auto.
Qed.

(** A reader with data blocks and no fragment delivers the bytes of its data
    reader and then end-of-stream. *)
Lemma readAll_data_only (fuel : nat) :
  forall (f : fileReader.t) (d : list byte) (bufs : nat -> nat),
    fileReader.fragOnly f = false ->
    fileReader.fragged f = false ->
    fileReader.data f = Some d ->
    (forall j, (0 < bufs j)%nat) ->
    (length d < fuel)%nat ->
    fileReader.readAll fuel f bufs = Ret d.
Proof.
  induction fuel as [|fuel IH]; intros f d bufs Hfo Hfr Hd Hpos Hfuel; [lia|].
  cbn [fileReader.readAll]. unfold fileReader.Read. rewrite Hfo, Hd.
  pose proof (Hpos O) as Hp0.
  destruct d as [|b d'].
  - cbn [dataReader.Read]. destruct (Nat.eqb_spec (bufs O) 0); [lia|].
    rewrite Hfr. reflexivity.
  - cbn [dataReader.Read bind snd fst].
    rewrite (IH _ (skipn (bufs O) (b :: d'))); auto.
    + cbn [bind]. f_equal. apply firstn_skipn.
    + rewrite length_skipn. cbn [length] in *. lia.
Qed.

(** On the two kinds of file just treated, [fileReader.WriteTo] writes what
    the calls of [Read] deliver. *)
Lemma WriteTo_fragOnly (f : fileReader.t) :
  fileReader.fragOnly f = true ->
  fileReader.WriteTo f
  = Ret (fileReader.bytesOf (fileReader.fragmentData f),
         Z.of_nat (length (fileReader.bytesOf (fileReader.fragmentData f))), None).
Proof. intros H. unfold fileReader.WriteTo. rewrite H. reflexivity. Qed.

Lemma WriteTo_data_only (f : fileReader.t) (d : list byte) :
  fileReader.fragOnly f = false ->
  fileReader.fragged f = false ->
  fileReader.data f = Some d ->
  fileReader.WriteTo f = Ret (d, Z.of_nat (length d), None).
Proof.
  intros Hfo Hfr Hd. unfold fileReader.WriteTo. rewrite Hfo, Hd, Hfr.
  reflexivity.
Qed.

(** C2: the file big of the example archive has [Size] 4097, one data block
    of 4096 bytes and a one-byte fragment tail; read with buffers of
    4096 bytes, its stream never reaches end-of-stream, and the first
    three calls of [Read] already deliver 4098 bytes. *)
Theorem size_differs_with_fragment_tail :
  exists rd,
    fileReader.newFileReader Sample.archive Sample.bigInode = Ret rd
    /\ File1.Size (File1.mkFile Sample.archive Sample.bigInode (Some rd) "big" [] 0)
       = Ret 4097
    /\ (forall fuel, fileReader.readAll fuel rd (fun _ => 4096%nat) = Timeout)
    /\ (exists bytes,
          fileReader.readCalls 3 rd (fun _ => 4096%nat) = Ret bytes
          /\ length bytes = 4098%nat)
    /\ fileReader.WriteTo rd
       = Ret (Sample.bigBlock ++ list_byte_of_string "!", 4097, None).
Proof.
  eexists. split; [reflexivity|]. split; [reflexivity|]. split; [|split].
  - intros fuel.
    apply (readAll_fragment_tail_never_ends fuel _ Sample.bigBlock
             (list_byte_of_string "!")); try reflexivity.
    + discriminate.
    + intros _. lia.
  - eexists. split; [vm_compute; reflexivity|]. reflexivity.
  - vm_compute. reflexivity.
Qed.

(** C1: for the 10-byte file c of the example archive the calls of [Read]
    deliver "helloworld" and end-of-stream, and [fileReader.WriteTo] writes
    the same bytes, but [File.WriteTo], whose body calls itself, does not
    return at any depth of calls. *)
Theorem File_WriteTo_does_not_return :
  exists f rd,
    File1.newFileFromInode Sample.archive Sample.helloInode = Ret f
    /\ File1.reader f = Some rd
    /\ fileReader.readAll 11 rd (fun _ => 4096%nat) = Ret Sample.helloworld
    /\ fileReader.WriteTo rd = Ret (Sample.helloworld, 10, None)
    /\ forall (fuel : nat) (w : list byte), File1.WriteTo fuel f w = Timeout.
Proof.
  do 2 eexists. split; [reflexivity|]. split; [reflexivity|].
  split; [reflexivity|]. split; [reflexivity|].
  intros fuel w. apply WriteTo_never_returns.
Qed.

(** ** Opening an archive *)

Lemma byteZ_bound (b : byte) : 0 <= byteZ b < 256.
Proof.
  unfold byteZ. pose proof (Byte.to_N_bounded b). lia.
Qed.

Lemma le_bound (bs : list byte) : 0 <= le bs < 256 ^ Z.of_nat (length bs).
Proof.
  induction bs as [|b bs IH]; [cbn; lia|].
  cbn [le length]. rewrite Nat2Z.inj_succ, Z.pow_succ_r by lia.
  pose proof (byteZ_bound b). lia.
Qed.

Lemma field_length (off n : nat) (bs : list byte) :
  (length (field off n bs) <= n)%nat.
Proof. unfold field. rewrite length_firstn. lia. Qed.

Lemma le_field_bound (off n : nat) (bs : list byte) :
  0 <= le (field off n bs) < 256 ^ Z.of_nat n.
Proof.
  pose proof (le_bound (field off n bs)) as H.
  pose proof (field_length off n bs) as Hl.
  assert (256 ^ Z.of_nat (length (field off n bs)) <= 256 ^ Z.of_nat n)
    by (apply Z.pow_le_mono_r; lia).
  lia.
Qed.


Lemma readFull_superblock (src : list byte) :
  (96 <= length src)%nat ->
  readFull 96 (firstn 96 src) = Ret (firstn 96 src, []).
Proof.
  intros H. unfold readFull.
  assert (Hl : length (firstn 96 src) = 96%nat)
    by (rewrite length_firstn; lia).
  rewrite Hl. cbn [Nat.eqb Nat.ltb Nat.leb].
  rewrite firstn_all2 by lia. rewrite skipn_all2 by lia. reflexivity.
Qed.

Section OpenProperties.

Context {FileFS : Type}.
Variable loadTables :
  list byte -> superblock.t -> compression.Decompressor ->
  outcome (list Z * list Z * FileFS).

(** Past the checks of the superblock, the result of [NewSquashfsReader] is
    that of the decompressor dispatch and of the loading of the tables. *)
Lemma NewSquashfsReader_checked (src : list byte) :
  passesSuperblockChecks src ->
  NewSquashfsReader loadTables src
  = (let s := superblockOf src in
     let* (d, hasUnsupportedOptions) :=
       selectDecompressor (optionsOf src) s (GetFlags s) in
     let* (tables, rootFS) := loadTables (sectionOf src) s d in
     let rdr := mkReader rootFS (sectionOf src) d (fst tables) (snd tables) s
                  (GetFlags s) in
     if hasUnsupportedOptions then Ret (rdr, Some ErrOptions)
     else Ret (rdr, None)).
Proof.
  intros (Hlen & Hmagic & Hlog). unfold NewSquashfsReader.
  rewrite (readFull_superblock src Hlen). cbn [bind].
  fold (superblockOf src). rewrite Hmagic, Z.eqb_refl. cbn [negb].
  rewrite Hlog, Z.eqb_refl. cbn [negb]. reflexivity.
Qed.


End OpenProperties.




(** ** The decompressor dispatch *)

Lemma supportedTag_cases (ct : Z) :
  supportedTag ct = true
  <-> ct = GzipCompression \/ ct = LzmaCompression \/ ct = XzCompression
      \/ ct = Lz4Compression \/ ct = ZstdCompression.
Proof.
  unfold supportedTag. rewrite !orb_true_iff, !Z.eqb_eq. tauto.
Qed.







(** ** Compressor options *)

Lemma readFull_enough (n : nat) (rdr : list byte) :
  (0 < n <= length rdr)%nat ->
  readFull n rdr = Ret (firstn n rdr, skipn n rdr).
Proof.
  intros H. unfold readFull.
  destruct (Nat.eqb_spec n 0); [lia|].
  destruct (Nat.eqb_spec (length rdr) 0); [lia|].
  destruct (Nat.ltb_spec (length rdr) n); [lia|reflexivity].
Qed.

Lemma field_firstn (off n m : nat) (bs : list byte) :
  (off + n <= m)%nat -> field off n (firstn m bs) = field off n bs.
Proof.
  intros H. unfold field. rewrite skipn_firstn_comm, firstn_firstn.
  f_equal. lia.
Qed.

(** C5: when the compressor-options flag is set and the superblock passes
    its checks, (1) a gzip archive whose 8-byte options block has a window
    size other than 15 or a strategy bitmap other than the default is
    opened, as far as the rest of the archive loads, with the reader
    returned together with [ErrOptions]; (2) an XZ archive whose options
    block has a filter bit set is refused with the XZ-filters error and no
    reader. *)
Theorem open_compressor_options :
  forall (FileFS : Type)
         (loadTables : list byte -> superblock.t -> compression.Decompressor ->
                       outcome (list Z * list Z * FileFS))
         (gz xz : list byte) (frags ids : list Z) (rootFS : FileFS),
    passesSuperblockChecks gz ->
    SuperblockFlags.compressorOptions (GetFlags (superblockOf gz)) = true ->
    superblock.CompressionType (superblockOf gz) = GzipCompression ->
    (8 <= length (optionsOf gz))%nat ->
    gzipWindow (optionsOf gz) <> 15
      \/ compression.defaultStrategies (gzipStrategies (optionsOf gz)) = false ->
    loadTables (sectionOf gz) (superblockOf gz)
      (compression.DGzip
         (compression.Gzip.mk (le (field 0 4 (optionsOf gz)))
            (negb (gzipWindow (optionsOf gz) =? 15))
            (negb (compression.defaultStrategies (gzipStrategies (optionsOf gz))))))
      = Ret (frags, ids, rootFS) ->
    passesSuperblockChecks xz ->
    SuperblockFlags.compressorOptions (GetFlags (superblockOf xz)) = true ->
    superblock.CompressionType (superblockOf xz) = XzCompression ->
    (8 <= length (optionsOf xz))%nat ->
    xzFilters (optionsOf xz) <> 0 ->
    (exists rdr,
       NewSquashfsReader loadTables gz = Ret (rdr, Some ErrOptions)
       /\ root rdr = rootFS
       /\ exists g, decompressor rdr = compression.DGzip g)
    /\ NewSquashfsReader loadTables xz = Fail errXzFilters.
Proof.
  intros FileFS loadTables gz xz frags ids rootFS
         Hchk Hfl Hct Hlen Hopt Hload Hchk' Hfl' Hct' Hlen' Hfilt.
  split.
  - rewrite (NewSquashfsReader_checked loadTables gz Hchk). cbn zeta.
    unfold selectDecompressor. rewrite Hfl, Hct. cbn [Z.eqb GzipCompression Pos.eqb].
    unfold compression.NewGzipCompressorWithOptions.
    rewrite readFull_enough by lia. cbn [bind].
    rewrite !field_firstn by lia.
    fold (gzipWindow (optionsOf gz)) (gzipStrategies (optionsOf gz)).
    cbn [compression.Gzip.HasCustomWindow compression.Gzip.HasStrategies].
    rewrite Hload. cbn [bind fst snd].
    assert (Hb : negb (gzipWindow (optionsOf gz) =? 15)
                 || negb (compression.defaultStrategies
                            (gzipStrategies (optionsOf gz))) = true).
    { destruct Hopt as [Hw|Hs].
      - destruct (Z.eqb_spec (gzipWindow (optionsOf gz)) 15); [contradiction|reflexivity].
      - rewrite Hs. apply orb_true_r. }
    rewrite Hb. eexists. split; [reflexivity|]. split; [reflexivity|].
    eexists. reflexivity.
  - rewrite (NewSquashfsReader_checked loadTables xz Hchk'). cbn zeta.
    unfold selectDecompressor. rewrite Hfl', Hct'.
    cbn [Z.eqb GzipCompression XzCompression Pos.eqb].
    unfold compression.NewXzCompressorWithOptions.
    rewrite readFull_enough by lia. cbn [bind].
    rewrite !field_firstn by lia. fold (xzFilters (optionsOf xz)).
    cbn [compression.Xz.HasFilters].
    destruct (Z.eqb_spec (xzFilters (optionsOf xz)) 0); [contradiction|].
    reflexivity.
Qed.

Lemma open_compressor_options_witness :
  gzipWindow (optionsOf SampleOpen.srcGzipWindow) = 12
  /\ xzFilters (optionsOf SampleOpen.srcXzFilter) = 1
  /\ (exists rdr,
        NewSquashfsReader SampleOpen.loadTables SampleOpen.srcGzipWindow
        = Ret (rdr, Some ErrOptions)
        /\ root rdr = tt
        /\ exists g, decompressor rdr = compression.DGzip g)
  /\ NewSquashfsReader SampleOpen.loadTables SampleOpen.srcXzFilter
     = Fail errXzFilters.
Proof.
  assert (Hlen1 : length SampleOpen.srcGzipWindow = 496%nat)
    by (vm_compute; reflexivity).
  assert (Hlen2 : length SampleOpen.srcXzFilter = 496%nat)
    by (vm_compute; reflexivity).
  assert (Ho1 : length (optionsOf SampleOpen.srcGzipWindow) = 400%nat)
    by (vm_compute; reflexivity).
  assert (Ho2 : length (optionsOf SampleOpen.srcXzFilter) = 400%nat)
    by (vm_compute; reflexivity).
  split; [vm_compute; reflexivity|]. split; [vm_compute; reflexivity|].
  apply (open_compressor_options unit SampleOpen.loadTables
           SampleOpen.srcGzipWindow SampleOpen.srcXzFilter [] [0] tt).
  - split; [rewrite Hlen1; lia|split; vm_compute; reflexivity].
  - vm_compute. reflexivity.
  - vm_compute. reflexivity.
  - rewrite Ho1. lia.
  - left. vm_compute. intros H; discriminate H.
  - reflexivity.
  - split; [rewrite Hlen2; lia|split; vm_compute; reflexivity].
  - vm_compute. reflexivity.
  - vm_compute. reflexivity.
  - rewrite Ho2. lia.
  - vm_compute. intros H; discriminate H.
Defined.

(** ** The directory decoder *)

Lemma readFull_Ret (n : nat) (rdr a b : list byte) :
  readFull n rdr = Ret (a, b) -> rdr = a ++ b /\ length a = n.
Proof.
  unfold readFull.
  destruct (Nat.eqb_spec n 0) as [->|Hn].
  - intros H. injection H as <- <-. split; reflexivity.
  - destruct (Nat.eqb_spec (length rdr) 0) as [Hz|Hz]; [discriminate|].
    destruct (Nat.ltb_spec (length rdr) n) as [Hlt|Hge]; [discriminate|].
    intros E. injection E as <- <-. split.
    + symmetry. apply firstn_skipn.
    + rewrite length_firstn. lia.
Qed.

Lemma readFull_returns (n : nat) (rdr : list byte) :
  readFull n rdr <> Timeout /\ readFull n rdr <> Panic.
Proof.
  unfold readFull.
  destruct (n =? 0)%nat; [split; discriminate|].
  destruct (length rdr =? 0)%nat; [split; discriminate|].
  destruct (length rdr <? n)%nat; split; discriminate.
Qed.

(** What [NewEntry] reads: the 8 bytes of the raw record, then the name,
    whose length is [NameSize + 1] computed in 16 bits; the name is exposed
    byte for byte and the in-block offset is the one of the record. *)
Lemma NewEntry_reads (rdr rest : list byte) (ent : directory.Entry.t) :
  directory.NewEntry rdr = Ret (ent, rest) ->
  exists raw name : list byte,
    rdr = raw ++ name ++ rest
    /\ length raw = 8%nat
    /\ length name = Z.to_nat (u16 (le (field 6 2 raw) + 1))
    /\ list_byte_of_string (directory.Entry.Name ent) = name
    /\ directory.Entry.InodeBlockOffset ent = le (field 0 2 raw)
    /\ directory.Entry.Type_ ent = le (field 4 2 raw).
Proof.
  unfold directory.NewEntry, directory.readEntryRaw.
  destruct (readFull 8 rdr) as [[raw rdr1]|e| |] eqn:Hraw; try discriminate.
  cbn [bind directory.EntryRaw.NameSize directory.EntryRaw.Type_
       directory.EntryRaw.Offset].
  destruct (readFull _ rdr1) as [[name rdr2]|e| |] eqn:Hname; try discriminate.
  cbn [bind]. intros H. injection H as <- <-.
  apply readFull_Ret in Hraw as [-> Hl8].
  apply readFull_Ret in Hname as [-> Hln].
  exists raw, name.
  split; [reflexivity|]. split; [exact Hl8|]. split; [exact Hln|].
  split; [apply list_byte_of_string_of_list_byte|]. split; reflexivity.
Qed.

(** Below the top of the 16-bit range the name has [NameSize + 1] bytes. *)
Lemma NewEntry_name_length (rdr rest : list byte) (ent : directory.Entry.t) :
  directory.NewEntry rdr = Ret (ent, rest) ->
  le (field 6 2 rdr) < 65535 ->
  Z.of_nat (String.length (directory.Entry.Name ent)) = le (field 6 2 rdr) + 1.
Proof.
  intros H Hlt.
  destruct (NewEntry_reads rdr rest ent H)
    as (raw & name & -> & Hl8 & Hln & Hnm & _).
  assert (Hf : field 6 2 (raw ++ name ++ rest) = field 6 2 raw).
  { unfold field. rewrite skipn_app, firstn_app, length_skipn, Hl8.
    cbn [Nat.sub]. replace (skipn (6 - 8) _) with (name ++ rest) by reflexivity.
    cbn [firstn]. rewrite app_nil_r. reflexivity. }
  rewrite Hf in *.
  pose proof (le_field_bound 6 2 raw) as Hb.
  unfold u16 in Hln. rewrite Z.mod_small in Hln by lia.
  rewrite <- (string_of_list_byte_of_string (directory.Entry.Name ent)), Hnm.
  assert (Hs : forall l, String.length (string_of_list_byte l) = length l).
  { induction l as [|x l IH]; [reflexivity|]. cbn. f_equal. exact IH. }
  rewrite Hs, Hln. lia.
Qed.

(** C8: a directory entry whose on-disk name-length field is 0xFFFF
    announces a name of 65536 bytes; [NewEntry] computes [NameSize+1] in
    uint16, reads a name of no bytes and leaves the name bytes unread. *)
Theorem NewEntry_name_size_wraps :
  forall rest : list byte,
    directory.NewEntry
      (Sample.leBytes 2 7 ++ Sample.leBytes 2 0 ++ Sample.leBytes 2 2
       ++ Sample.leBytes 2 65535 ++ rest)
    = Ret (directory.Entry.mk "" 2 7 0, rest).
Proof. intros rest. reflexivity. Qed.

(** The decoder returns: the fuel [NewDirectory] gives its loops is never
    used up, and no step panics. *)
Lemma NewEntry_consumes (rdr rest : list byte) (ent : directory.Entry.t) :
  directory.NewEntry rdr = Ret (ent, rest) -> (length rest + 8 <= length rdr)%nat.
Proof.
  intros H.
  destruct (NewEntry_reads rdr rest ent H) as (raw & name & -> & Hl8 & _).
  rewrite !length_app. lia.
Qed.

Lemma NewEntry_returns (rdr : list byte) :
  directory.NewEntry rdr <> Timeout /\ directory.NewEntry rdr <> Panic.
Proof.
  unfold directory.NewEntry, directory.readEntryRaw.
  destruct (readFull_returns 8 rdr) as [H1 H2].
  destruct (readFull 8 rdr) as [[raw rdr1]|e| |]; try contradiction;
    [|split; discriminate].
  cbn [bind].
  match goal with |- context [readFull ?n rdr1] =>
    destruct (readFull_returns n rdr1) as [H3 H4];
    destruct (readFull n rdr1) as [[nm rdr2]|e| |]; try contradiction
  end; split; discriminate.
Qed.

Lemma readHeader_consumes (rdr rest : list byte) (hdr : directory.Header.t) :
  directory.readHeader rdr = Ret (hdr, rest) -> (length rest + 12 = length rdr)%nat.
Proof.
  unfold directory.readHeader.
  destruct (readFull 12 rdr) as [[bs r1]|e| |] eqn:H; try discriminate.
  cbn [bind]. intros E. injection E as _ <-.
  apply readFull_Ret in H as [-> Hl]. rewrite length_app. lia.
Qed.

Lemma readHeader_returns (rdr : list byte) :
  directory.readHeader rdr <> Timeout /\ directory.readHeader rdr <> Panic.
Proof.
  unfold directory.readHeader.
  destruct (readFull_returns 12 rdr) as [H1 H2].
  destruct (readFull 12 rdr) as [[bs r1]|e| |]; try contradiction;
    split; discriminate.
Qed.

Lemma entriesLoop_returns (fuel : nat) :
  forall (hdr : directory.Header.t) (i : Z) (rdr : list byte)
         (acc : list directory.Entry.t),
    (length rdr < fuel)%nat ->
    match directory.entriesLoop fuel hdr i rdr acc with
    | Ret (_, rdr', _) => (length rdr' <= length rdr)%nat
    | Fail _ => True
    | Panic | Timeout => False
    end.
Proof.
  induction fuel as [|fuel IH]; intros hdr i rdr acc Hfuel; [lia|].
  cbn [directory.entriesLoop].
  destruct (i <? directory.Header.Count hdr); [|cbn; lia].
  destruct (negb (i =? 0) && (i mod 256 =? 0)).
  - destruct (readHeader_returns rdr) as [H1 H2].
    destruct (directory.readHeader rdr) as [[hdr1 rdr1]|e| |] eqn:Hh;
      try contradiction; [|exact I].
    cbn [bind]. apply readHeader_consumes in Hh.
    destruct (NewEntry_returns rdr1) as [H3 H4].
    destruct (directory.NewEntry rdr1) as [[ent rdr2]|e| |] eqn:He;
      try contradiction; [|exact I].
    cbn [bind]. apply NewEntry_consumes in He.
    specialize (IH hdr1 (u32 (i + 1)) rdr2
                  (acc ++ [directory.setInodeOffset ent
                             (directory.Header.InodeOffset hdr1)])
                  ltac:(lia)).
    destruct (directory.entriesLoop fuel _ _ rdr2 _) as [[[h r'] es]|e| |];
      [lia|exact I|exact IH|exact IH].
  - cbn [bind].
    destruct (NewEntry_returns rdr) as [H3 H4].
    destruct (directory.NewEntry rdr) as [[ent rdr2]|e| |] eqn:He;
      try contradiction; [|exact I].
    cbn [bind]. apply NewEntry_consumes in He.
    specialize (IH hdr (u32 (i + 1)) rdr2
                  (acc ++ [directory.setInodeOffset ent
                             (directory.Header.InodeOffset hdr)])
                  ltac:(lia)).
    destruct (directory.entriesLoop fuel _ _ rdr2 _) as [[[h r'] es]|e| |];
      [lia|exact I|exact IH|exact IH].
Qed.

Lemma dirLoop_returns (fuel : nat) :
  forall (rdr : list byte) (acc : list directory.Entry.t),
    (length rdr < fuel)%nat ->
    directory.dirLoop fuel rdr acc <> Timeout
    /\ directory.dirLoop fuel rdr acc <> Panic.
Proof.
  induction fuel as [|fuel IH]; intros rdr acc Hfuel; [lia|].
  cbn [directory.dirLoop].
  destruct (readHeader_returns rdr) as [H1 H2].
  destruct (directory.readHeader rdr) as [[hdr rdr1]|e| |] eqn:Hh;
    try contradiction.
  - apply readHeader_consumes in Hh.
    match goal with |- context [directory.entriesLoop ?f ?h ?i rdr1 acc] =>
      pose proof (entriesLoop_returns f h i rdr1 acc (Nat.lt_succ_diag_r _)) as Hl;
      destruct (directory.entriesLoop f h i rdr1 acc) as [[[h' r'] es]|e'| |]
    end; try contradiction.
    + cbn [bind]. apply IH. lia.
    + split; discriminate.
  - destruct e; split; discriminate.
Qed.

(** [NewDirectory] returns, with the entries or with an error, on every
    input. *)
Lemma NewDirectory_returns (base : list byte) (size : Z) :
  directory.NewDirectory base size <> Timeout
  /\ directory.NewDirectory base size <> Panic.
Proof.
  unfold directory.NewDirectory. apply dirLoop_returns. lia.
Qed.

(** ** Paths made of plain names *)

Lemma Split_plain (x : string) : path.hasSlash x = false -> Split x = [x].
Proof.
  induction x as [|c x IH]; [reflexivity|].
  cbn [path.hasSlash Split]. intros H. apply orb_false_iff in H as [Hc Hx].
  rewrite Hc, (IH Hx). reflexivity.
Qed.

Lemma Split_app_slash (x s : string) :
  path.hasSlash x = false -> Split (x ++ String "/" s) = x :: Split s.
Proof.
  induction x as [|c x IH]; [reflexivity|].
  cbn [path.hasSlash Split String.append]. intros H.
  apply orb_false_iff in H as [Hc Hx].
  rewrite Hc, (IH Hx). reflexivity.
Qed.

Lemma plainElem_parts (e : string) :
  plainElem e = true ->
  fs.validElem e = true /\ path.hasSlash e = false /\ noMeta e = true
  /\ utf8.ValidString e = true.
Proof.
  unfold plainElem. rewrite !andb_true_iff, negb_true_iff. tauto.
Qed.

Lemma Split_Join (comps : list string) :
  comps <> [] -> forallb plainElem comps = true -> Split (Join comps) = comps.
Proof.
  induction comps as [|x comps IH]; [contradiction|]. intros _ H.
  cbn [forallb] in H. apply andb_true_iff in H as [Hx Hr].
  apply plainElem_parts in Hx as (_ & Hs & _).
  destruct comps as [|y comps].
  - cbn [Join]. apply Split_plain, Hs.
  - change (Join (x :: y :: comps))
      with (x ++ String "/" (Join (y :: comps)))%string.
    rewrite (Split_app_slash x _ Hs), IH; [reflexivity|discriminate|exact Hr].
Qed.

Lemma forallb_plain_valid (comps : list string) :
  forallb plainElem comps = true -> forallb fs.validElem comps = true.
Proof.
  induction comps as [|x comps IH]; [reflexivity|].
  cbn [forallb]. rewrite !andb_true_iff. intros [Hx Hr].
  apply plainElem_parts in Hx as (Hv & _). auto.
Qed.

(** A path of plain names is not empty, not ".", does not start with a
    slash or with "../". *)
Lemma Join_not_special (comps : list string) :
  comps <> [] -> forallb plainElem comps = true ->
  String.eqb (Join comps) "" = false
  /\ String.eqb (Join comps) "." = false
  /\ HasPrefix (Join comps) "/" = false
  /\ HasPrefix (Join comps) "../" = false.
Proof.
  intros Hne Hp.
  pose proof (Split_Join comps Hne Hp) as Hs.
  pose proof (forallb_plain_valid comps Hp) as Hv.
  destruct comps as [|x comps]; [contradiction|].
  cbn [forallb] in Hv. apply andb_true_iff in Hv as [Hx _].
  unfold fs.validElem in Hx. rewrite !andb_true_iff, !negb_true_iff in Hx.
  destruct Hx as [[Hx1 Hx2] Hx3].
  assert (Hhd : forall s, Split s = x :: comps -> hd "" (Split s) = x)
    by (intros s ->; reflexivity).
  repeat split.
  - destruct (String.eqb_spec (Join (x :: comps)) "") as [E|]; [|reflexivity].
    rewrite E in Hs. cbn in Hs. injection Hs as <- _. discriminate.
  - destruct (String.eqb_spec (Join (x :: comps)) ".") as [E|]; [|reflexivity].
    rewrite E in Hs. cbn in Hs. injection Hs as <- _. discriminate.
  - unfold HasPrefix. destruct (Join (x :: comps)) as [|c s] eqn:E; [reflexivity|].
    cbn [String.prefix]. destruct (ascii_dec "/" c) as [<-|]; [|reflexivity].
    cbn in Hs. injection Hs as <- _. discriminate.
  - unfold HasPrefix. destruct (Join (x :: comps)) as [|c1 s1] eqn:E; [reflexivity|].
    cbn [String.prefix]. destruct (ascii_dec "." c1) as [<-|]; [|reflexivity].
    destruct s1 as [|c2 s2]; [reflexivity|].
    cbn [String.prefix]. destruct (ascii_dec "." c2) as [<-|]; [|reflexivity].
    destruct s2 as [|c3 s3]; [reflexivity|].
    cbn [String.prefix]. destruct (ascii_dec "/" c3) as [<-|]; [|reflexivity].
    change (String "." (String "." (String "/" s3)))
      with (".." ++ String "/" s3)%string in Hs.
    rewrite Split_app_slash in Hs by reflexivity.
    injection Hs as <- _. discriminate.
Qed.

(** [path.Clean] leaves a path of plain names as it is. *)
Lemma cleanElems_valid (rooted : bool) (comps stack : list string) :
  forallb fs.validElem comps = true ->
  path.cleanElems rooted comps stack = rev stack ++ comps.
Proof.
  revert stack. induction comps as [|x comps IH]; intros stack H.
  - cbn. rewrite app_nil_r. reflexivity.
  - cbn [forallb] in H. apply andb_true_iff in H as [Hx Hr].
    unfold fs.validElem in Hx. rewrite !andb_true_iff, !negb_true_iff in Hx.
    destruct Hx as [[Hx1 Hx2] Hx3].
    cbn [path.cleanElems]. rewrite Hx1, Hx2, Hx3. cbn [orb].
    rewrite (IH _ Hr). cbn [rev]. rewrite <- app_assoc. reflexivity.
Qed.

Lemma Clean_Join (comps : list string) :
  comps <> [] -> forallb plainElem comps = true ->
  path.Clean (Join comps) = Join comps.
Proof.
  intros Hne Hp.
  destruct (Join_not_special comps Hne Hp) as (H1 & _ & H3 & _).
  unfold path.Clean. rewrite H1, H3, (Split_Join comps Hne Hp).
  rewrite cleanElems_valid by (apply forallb_plain_valid, Hp).
  cbn [rev app]. rewrite H1. reflexivity.
Qed.

(** UTF-8 validity goes through concatenation. *)
Lemma ValidString_app (a b : string) :
  utf8.ValidString a = true -> utf8.ValidString b = true ->
  utf8.ValidString (a ++ b) = true.
Proof.
  remember (String.length a) as n eqn:Hn. revert a Hn.
  induction n as [n IH] using lt_wf_ind. intros a Hn Ha Hb.
  destruct a as [|c0 a0]; [exact Hb|].
  cbn [String.append utf8.ValidString] in *.
  destruct (code c0 <? 128).
  { apply (IH (String.length a0)); cbn in Hn; auto; lia. }
  destruct a0 as [|c1 a1]; [discriminate|].
  cbn [String.append] in *.
  destruct (utf8.lead2 (code c0)).
  { apply andb_true_iff in Ha as [H1 H2]. rewrite H1. cbn [andb].
    apply (IH (String.length a1)); cbn in Hn; auto; lia. }
  destruct a1 as [|c2 a2]; [discriminate|].
  cbn [String.append] in *.
  destruct (utf8.lead3 (code c0)).
  { apply andb_true_iff in Ha as [H1 H2]. rewrite H1. cbn [andb].
    apply (IH (String.length a2)); cbn in Hn; auto; lia. }
  destruct a2 as [|c3 a3]; [discriminate|].
  cbn [String.append] in *.
  apply andb_true_iff in Ha as [H1 H2]. rewrite H1. cbn [andb].
  apply (IH (String.length a3)); cbn in Hn; auto; lia.
Qed.

Lemma ValidString_Join (comps : list string) :
  forallb plainElem comps = true -> utf8.ValidString (Join comps) = true.
Proof.
  induction comps as [|x comps IH]; [reflexivity|].
  cbn [forallb]. intros H. apply andb_true_iff in H as [Hx Hr].
  apply plainElem_parts in Hx as (_ & _ & _ & Hu).
  destruct comps as [|y comps]; [exact Hu|].
  change (Join (x :: y :: comps))
    with (x ++ ("/" ++ Join (y :: comps)))%string.
  apply ValidString_app; [exact Hu|].
  apply (ValidString_app "/"); [reflexivity|]. apply IH, Hr.
Qed.

Lemma ValidPath_Join (comps : list string) :
  comps <> [] -> forallb plainElem comps = true ->
  fs.ValidPath (Join comps) = true.
Proof.
  intros Hne Hp. unfold fs.ValidPath.
  rewrite (ValidString_Join comps Hp), (Split_Join comps Hne Hp).
  rewrite (forallb_plain_valid comps Hp). apply orb_true_r.
Qed.

(** A name with a ".." element is not a valid path. *)
Lemma ValidPath_dotdot (name : string) :
  In ".." (Split name) -> fs.ValidPath name = false.
Proof.
  intros Hin. unfold fs.ValidPath.
  destruct (String.eqb_spec name ".") as [->|_].
  - cbn in Hin. destruct Hin as [H|[]]. discriminate.
  - cbn [orb].
    assert (H : forallb fs.validElem (Split name) = false).
    { apply not_true_is_false. intros Hall.
      rewrite forallb_forall in Hall. specialize (Hall _ Hin). discriminate. }
    rewrite H. apply andb_false_r.
Qed.

Lemma length_append (a b : string) :
  String.length (a ++ b) = (String.length a + String.length b)%nat.
Proof. induction a as [|c a IH]; [reflexivity|]. cbn. f_equal. exact IH. Qed.

Lemma Join_length (comps : list string) :
  forallb plainElem comps = true ->
  (length comps <= String.length (Join comps))%nat.
Proof.
  induction comps as [|x comps IH]; [cbn; lia|].
  cbn [forallb]. intros H. apply andb_true_iff in H as [Hx Hr].
  apply plainElem_parts in Hx as (Hv & _).
  assert (Hx1 : (1 <= String.length x)%nat).
  { destruct x; [discriminate|cbn; lia]. }
  specialize (IH Hr).
  destruct comps as [|y comps]; [cbn [Join length]; lia|].
  change (Join (x :: y :: comps))
    with (x ++ ("/" ++ Join (y :: comps)))%string.
  rewrite !length_append. cbn [String.length length] in *. lia.
Qed.

(** ** path.Match on a pattern without pattern characters *)

Lemma noMeta_cons (c : ascii) (s : string) :
  noMeta (String c s) = true ->
  Ascii.eqb c "*" = false /\ Ascii.eqb c "?" = false
  /\ Ascii.eqb c "[" = false /\ Ascii.eqb c "\" = false /\ noMeta s = true.
Proof.
  cbn [noMeta]. unfold metaChar.
  rewrite andb_true_iff, negb_true_iff, !orb_false_iff. tauto.
Qed.

Lemma dropStars_plain (p : string) :
  noMeta p = true -> path.dropStars p = (false, p).
Proof.
  destruct p as [|c p]; [reflexivity|]. intros H.
  apply noMeta_cons in H as (H1 & _). cbn [path.dropStars]. rewrite H1.
  reflexivity.
Qed.

Lemma scan_plain (p : string) :
  noMeta p = true -> forall inrange, path.scan inrange p = (p, EmptyString).
Proof.
  induction p as [|c p IH]; [reflexivity|]. intros H inrange.
  apply noMeta_cons in H as (H1 & H2 & H3 & H4 & Hp).
  cbn [path.scan]. rewrite H4, H3, H1. cbn [andb].
  destruct (Ascii.eqb c "]"); rewrite (IH Hp); reflexivity.
Qed.

Lemma scanChunk_plain (p : string) :
  noMeta p = true -> path.scanChunk p = (false, p, EmptyString).
Proof.
  intros H. unfold path.scanChunk.
  rewrite (dropStars_plain p H), (scan_plain p H). reflexivity.
Qed.

(** Once the match has failed, the rest of a plain chunk is only scanned. *)
Lemma matchChunkLoop_failed (fuel : nat) :
  forall chunk s,
    noMeta chunk = true -> (String.length chunk < fuel)%nat ->
    path.matchChunkLoop fuel chunk s true = Ret (EmptyString, false).
Proof.
  induction fuel as [|fuel IH]; intros chunk s Hm Hf; [lia|].
  destruct chunk as [|c chunk]; [reflexivity|].
  apply noMeta_cons in Hm as (H1 & H2 & H3 & H4 & Hp).
  cbn [path.matchChunkLoop orb]. rewrite H3, H2, H4.
  apply IH; [exact Hp|cbn in Hf; lia].
Qed.

Lemma matchChunkLoop_plain (fuel : nat) :
  forall chunk s,
    noMeta chunk = true -> (String.length chunk < fuel)%nat ->
    path.matchChunkLoop fuel chunk s false
    = match afterPrefix chunk s with
      | Some t => Ret (t, true)
      | None => Ret (EmptyString, false)
      end.
Proof.
  induction fuel as [|fuel IH]; intros chunk s Hm Hf; [lia|].
  destruct chunk as [|c chunk]; [reflexivity|].
  apply noMeta_cons in Hm as (H1 & H2 & H3 & H4 & Hp).
  cbn [path.matchChunkLoop orb afterPrefix]. rewrite H3, H2, H4.
  cbn in Hf.
  destruct s as [|d s].
  - cbn [path.isEmpty]. apply matchChunkLoop_failed; [exact Hp|lia].
  - cbn [path.isEmpty]. destruct (Ascii.eqb c d); cbn [negb].
    + apply IH; [exact Hp|lia].
    + apply matchChunkLoop_failed; [exact Hp|lia].
Qed.

Lemma afterPrefix_empty (p s : string) :
  afterPrefix p s = Some EmptyString <-> p = s.
Proof.
  revert s. induction p as [|c p IH]; intros s.
  - cbn. split; [intros H; injection H as ->; reflexivity|intros <-; reflexivity].
  - destruct s as [|d s]; cbn; [split; discriminate|].
    destruct (Ascii.eqb_spec c d) as [->|Hne].
    + rewrite IH. split; [intros ->; reflexivity|intros H; injection H; auto].
    + split; [discriminate|intros H; injection H; contradiction].
Qed.

(** For a pattern without pattern characters, [path.Match] is string
    equality and has no error. *)
Lemma Match_plain (p name : string) :
  noMeta p = true -> path.Match p name = Ret (String.eqb p name).
Proof.
  intros Hm. unfold path.Match.
  destruct p as [|c p].
  - cbn. destruct name; reflexivity.
  - cbn [path.matchLoop path.isEmpty String.length].
    rewrite (scanChunk_plain _ Hm). cbn [andb path.isEmpty negb orb].
    unfold path.matchChunk.
    rewrite matchChunkLoop_plain by (auto; lia).
    destruct (afterPrefix (String c p) name) as [t|] eqn:Ha; cbn [bind].
    + destruct t as [|d t]; cbn [path.isEmpty orb andb].
      * apply afterPrefix_empty in Ha. rewrite Ha, String.eqb_refl.
        cbn. reflexivity.
      * cbn [path.checkRest path.isEmpty String.length].
        destruct (String.eqb_spec (String c p) name) as [E|]; [|reflexivity].
        apply afterPrefix_empty in E. rewrite E in Ha. discriminate.
    + cbn [andb path.checkRest path.isEmpty String.length].
      destruct (String.eqb_spec (String c p) name) as [E|]; [|reflexivity].
      apply afterPrefix_empty in E. rewrite E in Ha. discriminate.
Qed.

(** ** FileFS.Open, File-based sources *)


(** A name with a ".." element is refused before anything is looked up. *)
Lemma Open1_dotdot (fuel : nat) (f : File1.File) (name : string) :
  In ".." (Split name) ->
  File1.Open (S fuel) f name = Fail (PathError "open" name fs_ErrInvalid).
Proof.
  intros Hin. cbn [File1.Open].
  destruct (String.eqb_spec name "") as [->|_].
  - cbn in Hin. destruct Hin as [H|[]]. discriminate.
  - rewrite (ValidPath_dotdot name Hin). reflexivity.
Qed.



(** ** FileFS.Open, FileCore-based sources *)



Lemma TrimPrefix_none (s p : string) : HasPrefix s p = false -> TrimPrefix s p = s.
Proof. unfold HasPrefix, TrimPrefix. intros ->. reflexivity. Qed.

Lemma cleaned_Join (comps : list string) :
  comps <> [] -> forallb plainElem comps = true ->
  cleaned (Join comps) = Join comps.
Proof.
  intros Hne Hp. unfold cleaned. rewrite (Clean_Join comps Hne Hp).
  apply TrimPrefix_none.
  destruct (Join_not_special comps Hne Hp) as (_ & _ & H3 & _). exact H3.
Qed.

Lemma append_assoc (a b c : string) : ((a ++ b) ++ c = a ++ (b ++ c))%string.
Proof. induction a as [|x a IH]; [reflexivity|]. cbn. f_equal. exact IH. Qed.

Lemma Join_snoc (cs : list string) (c : string) :
  cs <> [] -> Join (cs ++ [c]) = (Join cs ++ String "/" c)%string.
Proof.
  induction cs as [|x cs IH]; [contradiction|]. intros _.
  destruct cs as [|y cs]; [reflexivity|].
  change (Join ((x :: y :: cs) ++ [c]))
    with (x ++ String "/" (Join ((y :: cs) ++ [c])))%string.
  rewrite IH by discriminate.
  change (Join (x :: y :: cs)) with (x ++ String "/" (Join (y :: cs)))%string.
  rewrite append_assoc. reflexivity.
Qed.

Lemma Split_Join_slash (cs : list string) (t : string) :
  cs <> [] -> forallb plainElem cs = true ->
  Split (Join cs ++ String "/" t) = cs ++ Split t.
Proof.
  induction cs as [|x cs IH]; [contradiction|]. intros _ Hp.
  cbn [forallb] in Hp. apply andb_true_iff in Hp as [Hx Hr].
  apply plainElem_parts in Hx as (_ & Hs & _).
  destruct cs as [|y cs].
  - cbn [Join app]. apply Split_app_slash, Hs.
  - change (Join (x :: y :: cs)) with (x ++ String "/" (Join (y :: cs)))%string.
    rewrite append_assoc.
    change (String "/" (Join (y :: cs)) ++ String "/" t)%string
      with (String "/" (Join (y :: cs) ++ String "/" t)).
    rewrite (Split_app_slash x _ Hs), IH; [reflexivity|discriminate|exact Hr].
Qed.

Lemma substring_prefix (a b : string) :
  String.substring 0 (String.length a) (a ++ b) = a.
Proof.
  induction a as [|x a IH]; [destruct b; reflexivity|].
  cbn. f_equal. exact IH.
Qed.

Lemma forallb_app_plain (cs : list string) (c : string) :
  forallb plainElem (cs ++ [c]) = true ->
  forallb plainElem cs = true /\ plainElem c = true.
Proof.
  rewrite forallb_app. cbn [forallb]. rewrite andb_true_r, andb_true_iff. tauto.
Qed.

Lemma lastElem_Join (cs : list string) (c : string) :
  forallb plainElem (cs ++ [c]) = true -> path.lastElem (Join (cs ++ [c])) = c.
Proof.
  intros Hp. unfold path.lastElem.
  rewrite Split_Join by (auto; destruct cs; discriminate).
  apply last_last.
Qed.

Lemma cleanElems_trailing (rooted : bool) (cs stack : list string) :
  forallb fs.validElem cs = true ->
  path.cleanElems rooted (cs ++ [""]) stack = rev stack ++ cs.
Proof.
  revert stack. induction cs as [|x cs IH]; intros stack H.
  - cbn. rewrite app_nil_r. reflexivity.
  - cbn [forallb] in H. apply andb_true_iff in H as [Hx Hr].
    unfold fs.validElem in Hx. rewrite !andb_true_iff, !negb_true_iff in Hx.
    destruct Hx as [[Hx1 Hx2] Hx3].
    cbn [path.cleanElems app]. rewrite Hx1, Hx2, Hx3. cbn [orb].
    rewrite (IH _ Hr). cbn [rev]. rewrite <- app_assoc. reflexivity.
Qed.

(** [path.Dir] and [path.Base] of a path of plain names. *)
Lemma Dir_Join (cs : list string) (c : string) :
  forallb plainElem (cs ++ [c]) = true ->
  path.Dir (Join (cs ++ [c])) = match cs with [] => "." | _ => Join cs end.
Proof.
  intros Hp. unfold path.Dir, path.dirPart. rewrite (lastElem_Join cs c Hp).
  destruct (forallb_app_plain cs c Hp) as [Hcs Hc].
  destruct cs as [|x cs'].
  - cbn [app Join]. rewrite Nat.sub_diag.
    replace (String.substring 0 0 c) with EmptyString by (destruct c; reflexivity).
    reflexivity.
  - set (cs := x :: cs') in *.
    assert (Hne : cs <> []) by discriminate.
    rewrite (Join_snoc cs c Hne).
    change (Join cs ++ String "/" c)%string
      with (Join cs ++ ("/" ++ c))%string.
    rewrite <- append_assoc, length_append, Nat.add_sub, substring_prefix.
    destruct (Join_not_special cs Hne Hcs) as (H1 & _ & H3 & _).
    unfold path.Clean.
    assert (E1 : String.eqb (Join cs ++ "/") "" = false).
    { destruct (Join cs); [discriminate|reflexivity]. }
    assert (E2 : HasPrefix (Join cs ++ "/") "/" = false).
    { unfold HasPrefix in *. destruct (Join cs) as [|a s]; [discriminate|].
      cbn [String.append String.prefix] in *.
      destruct (ascii_dec "/" a); [|reflexivity].
      destruct s; discriminate H3. }
    rewrite E1, E2.
    change (Join cs ++ "/")%string with (Join cs ++ String "/" EmptyString)%string.
    rewrite (Split_Join_slash cs _ Hne Hcs). cbn [Split].
    rewrite cleanElems_trailing by (apply forallb_plain_valid, Hcs).
    cbn [rev app]. rewrite H1. reflexivity.
Qed.

Lemma trimSlashes_valid (cs : list string) :
  forallb fs.validElem cs = true -> path.trimSlashes cs = cs.
Proof.
  induction cs as [|x cs IH]; [reflexivity|].
  cbn [forallb]. intros H. apply andb_true_iff in H as [Hx Hr].
  cbn [path.trimSlashes]. rewrite (IH Hr).
  destruct cs; [|reflexivity].
  unfold fs.validElem in Hx. rewrite !andb_true_iff, !negb_true_iff in Hx.
  destruct Hx as [[-> _] _]. reflexivity.
Qed.

Lemma Base_Join (cs : list string) (c : string) :
  forallb plainElem (cs ++ [c]) = true -> path.Base (Join (cs ++ [c])) = c.
Proof.
  intros Hp. unfold path.Base.
  assert (Hne : cs ++ [c] <> []) by (destruct cs; discriminate).
  destruct (Join_not_special _ Hne Hp) as (H1 & _).
  rewrite H1, (Split_Join _ Hne Hp).
  rewrite trimSlashes_valid by (apply forallb_plain_valid, Hp).
  destruct (cs ++ [c]) eqn:E; [contradiction|].
  rewrite <- E. apply last_last.
Qed.

(** With a plain last element, the loop over the children finds the first
    child of that very name. *)
Lemma openLoop2_find (name : string) (dirs : list File2.File) :
  noMeta (path.Base name) = true ->
  File2.openLoop name dirs
  = match find (fileNamed (path.Base name)) dirs with
    | Some d => Ret d
    | None => Fail (PathError "open" name fs_ErrNotExist)
    end.
Proof.
  intros Hm. induction dirs as [|d dirs IH]; [reflexivity|].
  cbn [File2.openLoop find]. rewrite (Match_plain _ _ Hm).
  unfold fileNamed at 1. destruct (String.eqb _ _); [reflexivity|exact IH].
Qed.

Lemma bind_Ret {A B : Type} (c : outcome A) (k : A -> outcome B) (b : B) :
  bind c k = Ret b -> exists a, c = Ret a /\ k a = Ret b.
Proof.
  destruct c as [a|e| |]; try discriminate. intros H. exists a. auto.
Qed.

Lemma walk2_app (cs : list string) (c : string) :
  forall d, walk2 d (cs ++ [c]) = (let* d' := walk2 d cs in walk2 d' [c]).
Proof.
  induction cs as [|x cs IH]; intros d.
  - reflexivity.
  - cbn [app walk2].
    destruct (File2.ReadDir d (-1)) as [[res d1]|e| |]; try reflexivity.
    cbn [bind]. destruct (snd res); [reflexivity|].
    destruct (find (fileNamed x) (fst res)) as [child|]; [|reflexivity].
    apply IH.
Qed.

(** On a path of plain names whose literal walk arrives at a file, [Open]
    returns that file. *)
Lemma Open2_plain (comps : list string) :
  forall (f : File2.FileCore) (fuel : nat) (file : File2.File),
    comps <> [] -> forallb plainElem comps = true ->
    (2 * length comps <= fuel)%nat ->
    walkFrom2 f comps = Ret file ->
    File2.Open fuel f (Join comps) = Ret file.
Proof.
  induction comps as [|c cs IH] using rev_ind;
    intros f fuel file Hne Hp Hfuel Hw; [contradiction|].
  rewrite length_app in Hfuel. cbn [length] in Hfuel.
  destruct fuel as [|[|fuel]]; try lia.
  destruct (forallb_app_plain cs c Hp) as [Hcs Hc].
  pose proof (plainElem_parts c Hc) as (_ & _ & Hm & _).
  unfold walkFrom2 in Hw.
  apply bind_Ret in Hw as (d0 & Hd0 & Hw).
  rewrite walk2_app in Hw. apply bind_Ret in Hw as (d' & Hd' & Hw).
  cbn [walk2] in Hw. apply bind_Ret in Hw as ([res d''] & Hrd & Hw).
  cbn [fst snd] in Hw.
  destruct (snd res) eqn:Hsnd; [discriminate|].
  destruct (find (fileNamed c) (fst res)) as [child|] eqn:Hfind; [|discriminate].
  injection Hw as <-.
  destruct (Join_not_special _ Hne Hp) as (H1 & H2 & _).
  cbn [File2.Open]. fold (cleaned (Join (cs ++ [c]))).
  rewrite (cleaned_Join _ Hne Hp), H1, H2, (ValidPath_Join _ Hne Hp).
  cbn [orb negb]. rewrite (Dir_Join cs c Hp).
  assert (Hdir :
    File2.FSReadDir (S fuel) f (match cs with [] => "." | _ => Join cs end)
    = Ret res).
  { destruct cs as [|x cs'].
    - cbn [walk2] in Hd'. injection Hd' as <-.
      cbn [File2.FSReadDir]. change (TrimPrefix (path.Clean ".") "/") with ".".
      cbn [String.eqb Ascii.eqb Bool.eqb orb]. rewrite Hd0. cbn [bind].
      rewrite Hrd. reflexivity.
    - set (cs := x :: cs') in *.
      assert (Hne' : cs <> []) by discriminate.
      destruct (Join_not_special _ Hne' Hcs) as (H1' & H2' & _).
      cbn [File2.FSReadDir]. fold (cleaned (Join cs)).
      rewrite (cleaned_Join _ Hne' Hcs), H1', H2', (ValidPath_Join _ Hne' Hcs).
      cbn [orb negb].
      rewrite (IH f fuel d' Hne' Hcs).
      + rewrite Hrd. reflexivity.
      + lia.
      + unfold walkFrom2. rewrite Hd0. exact Hd'. }
  rewrite Hdir. destruct res as [dirs err]. cbn [fst snd] in *. subst err.
  rewrite openLoop2_find by (rewrite (Base_Join cs c Hp); exact Hm).
  rewrite (Base_Join cs c Hp), Hfind. reflexivity.
Qed.

(** ** FileFS.Open: the claim on paths *)



(** In the example archive "a/b/c" is the file c of directory b of the
    root-level directory a, from both sources. *)
Lemma Open_a_b_c :
  (exists fil, File1.FileFS_Open SampleRoot.root1 "a/b/c" = Ret fil
               /\ File1.name fil = "c"
               /\ File1.in_ fil = Sample.helloInode)
  /\ (exists file, File2.FileFS_Open SampleRoot.root2 "a/b/c" = Ret file
                   /\ File2.Name file = "c"
                   /\ File2.in_ (File2.core file) = Sample.helloInode).
Proof.
  split; eexists; (split; [vm_compute; reflexivity|]); split; reflexivity.
Qed.


(** * Further properties of the sources *)

(** ** File modes *)

(** A value of 16 bits shares no bit with a mask whose low 16 bits are 0. *)
Lemma land_low16 (p m : Z) :
  0 <= p < 65536 -> Z.land (Z.ones 16) m = 0 -> Z.land p m = 0.
Proof.
  intros Hp Hm.
  assert (E : p = Z.land p (Z.ones 16)).
  { rewrite Z.land_ones by lia. symmetry. apply Z.mod_small.
    change (2 ^ 16) with 65536. lia. }
  rewrite E, <- Z.land_assoc, Hm. apply Z.land_0_r.
Qed.

Lemma land_low16_keep (p m : Z) :
  0 <= p < 65536 -> Z.land m 65535 = 0 -> Z.land (Z.lor p m) 65535 = p.
Proof.
  intros Hp Hm. rewrite Z.land_lor_distr_l, Hm, Z.lor_0_r.
  change 65535 with (Z.ones 16). rewrite Z.land_ones by lia.
  apply Z.mod_small. change (2 ^ 16) with 65536. lia.
Qed.

Lemma File1_dir_not_symlink (f : File1.File) :
  File1.IsDir f = true -> File1.IsSymlink f = false.
Proof.
  unfold File1.IsDir, File1.IsSymlink.
  rewrite orb_true_iff, orb_false_iff, !Z.eqb_eq, !Z.eqb_neq.
  unfold inode.DirType, inode.ExtDirType, inode.SymType, inode.ExtSymType.
  lia.
Qed.

(** X1: [File.Mode] of the File-based sources, for permissions of 16 bits:
    the type bits are exactly [fs.ModeDir] for a directory inode (basic or
    extended), exactly [fs.ModeSymlink] for a symlink inode, and none for
    every other inode, devices, pipes and sockets included; the low 16 bits
    are the permissions of the inode. *)
Theorem File1_Mode_bits (f : File1.File) :
  0 <= inode.Permissions (File1.in_ f) < 65536 ->
  FileMode.Type_ (File1Ops.Mode f)
  = (if File1.IsDir f then FileMode.ModeDir
     else if File1.IsSymlink f then FileMode.ModeSymlink else 0)
  /\ Z.land (File1Ops.Mode f) 65535 = inode.Permissions (File1.in_ f).
Proof.
  intros Hp. unfold File1Ops.Mode, FileMode.Type_.
  set (p := inode.Permissions (File1.in_ f)) in *.
  assert (Hpt : Z.land p FileMode.ModeType = 0)
    by (apply land_low16; [exact Hp|reflexivity]).
  destruct (File1.IsDir f) eqn:Hd.
  - rewrite (File1_dir_not_symlink f Hd). split.
    + rewrite Z.land_lor_distr_l, Hpt. reflexivity.
    + apply land_low16_keep; [exact Hp|reflexivity].
  - destruct (File1.IsSymlink f); split.
    + rewrite Z.land_lor_distr_l, Hpt. reflexivity.
    + apply land_low16_keep; [exact Hp|reflexivity].
    + exact Hpt.
    + change 65535 with (Z.ones 16). rewrite Z.land_ones by lia.
      apply Z.mod_small. change (2 ^ 16) with 65536. lia.
Qed.

Lemma File1_Mode_bits_witness :
  0 <= inode.Permissions Sample.rootInode < 65536
  /\ FileMode.Type_ (File1Ops.Mode SampleRoot.root1) = FileMode.ModeDir
  /\ Z.land (File1Ops.Mode SampleRoot.root1) 65535 = 493.
Proof.
  split; [cbn; lia|].
  apply (File1_Mode_bits SampleRoot.root1). cbn. lia.
Defined.

Lemma File2_dir_not_symlink (f : File2.FileCore) :
  File2.IsDir f = true -> File2.IsSymlink f = false.
Proof.
  unfold File2.IsDir, File2.IsSymlink.
  rewrite orb_true_iff, orb_false_iff, !Z.eqb_eq, !Z.eqb_neq.
  unfold inode.DirType, inode.ExtDirType, inode.SymType, inode.ExtSymType.
  lia.
Qed.

(** What [AsFile] returns when it returns. *)
Lemma AsFile_Ret (f : File2.FileCore) (file : File2.File) :
  File2.AsFile f = Ret file ->
  File2.core file = f
  /\ File2.dirIndex file = 0
  /\ File2.mode file
     = (let m0 := inode.Permissions (File2.in_ f) in
        let m1 := if File2.IsSymlink f then Z.lor m0 File2.ModeSymlink else m0 in
        if File2.IsDir f then Z.lor m1 File2.ModeDir else m1)
  /\ (File2.IsFile f = false -> File2.rdr file = None)
  /\ (File2.IsDir f = false -> File2.directory file = None).
Proof.
  unfold File2.AsFile. intros H.
  apply bind_Ret in H as (d & Hd & H).
  apply bind_Ret in H as (rd & Hrd & H).
  injection H as <-. cbn.
  split; [reflexivity|]. split; [reflexivity|]. split; [reflexivity|].
  split; intros E; rewrite E in *; congruence.
Qed.

(** X2: the [File] that [AsFile] builds, for permissions of 16 bits:
    [Type()] is [fs.ModeDir] for a directory, [fs.ModeSymlink] for a
    symlink and 0 otherwise, so [Mode().IsRegular()] holds of every inode
    that is neither, regular files, devices, pipes and sockets alike; the
    low 16 bits of [Mode()] are the permissions of the inode. *)
Theorem AsFile_mode_bits (f : File2.FileCore) (file : File2.File) :
  File2.AsFile f = Ret file ->
  0 <= inode.Permissions (File2.in_ f) < 65536 ->
  File2Ops.Type_ file
  = (if File2.IsDir f then FileMode.ModeDir
     else if File2.IsSymlink f then FileMode.ModeSymlink else 0)
  /\ FileMode.IsRegular (File2Ops.Mode file)
     = negb (File2.IsDir f) && negb (File2.IsSymlink f)
  /\ Z.land (File2Ops.Mode file) 65535 = inode.Permissions (File2.in_ f).
Proof.
  intros H Hp. apply AsFile_Ret in H as (_ & _ & Hm & _).
  unfold File2Ops.Type_, File2Ops.Mode, FileMode.IsRegular, FileMode.Type_.
  rewrite Hm. cbv zeta.
  set (p := inode.Permissions (File2.in_ f)) in *.
  assert (Hpt : Z.land p FileMode.ModeType = 0)
    by (apply land_low16; [exact Hp|reflexivity]).
  assert (Hpp : Z.land p 65535 = p).
  { change 65535 with (Z.ones 16). rewrite Z.land_ones by lia.
    apply Z.mod_small. change (2 ^ 16) with 65536. lia. }
  destruct (File2.IsDir f) eqn:Hd.
  - rewrite (File2_dir_not_symlink f Hd).
    rewrite Z.land_lor_distr_l, Hpt.
    split; [reflexivity|]. split; [reflexivity|].
    apply land_low16_keep; [exact Hp|reflexivity].
  - destruct (File2.IsSymlink f).
    + rewrite Z.land_lor_distr_l, Hpt.
      split; [reflexivity|]. split; [reflexivity|].
      apply land_low16_keep; [exact Hp|reflexivity].
    + rewrite Hpt. split; [reflexivity|]. split; [reflexivity|exact Hpp].
Qed.

Lemma AsFile_mode_bits_witness :
  exists file,
    File2.AsFile SampleRoot.root2 = Ret file
    /\ File2Ops.Type_ file = FileMode.ModeDir
    /\ FileMode.IsRegular (File2Ops.Mode file) = false
    /\ Z.land (File2Ops.Mode file) 65535 = 493.
Proof.
  eexists. split; [vm_compute; reflexivity|].
  eapply (AsFile_mode_bits SampleRoot.root2).
  - vm_compute. reflexivity.
  - cbn. lia.
Defined.

(** ** Closed files and files that are not regular *)

(** X3: [File.Close] of the FileCore-based sources.  Once a file is closed,
    [Read] and [WriteTo] deliver no byte and return [fs.ErrClosed], and a
    second [Close] returns [fs.ErrClosed]; the first [Close] returns nil
    exactly when the file had a reader. *)
Theorem File2_after_Close (f : File2.File) (n : nat) :
  let f' := snd (File2Ops.Close f) in
  File2.Read f' n = Ret ([], Some fs_ErrClosed, f')
  /\ File2.WriteTo f' = Ret ([], 0, Some fs_ErrClosed)
  /\ File2Ops.Close f' = (Some fs_ErrClosed, f')
  /\ (fst (File2Ops.Close f) = None <-> File2.rdr f <> None).
Proof.
  unfold File2Ops.Close, File2.Read, File2.WriteTo.
  destruct (File2.rdr f) as [rd|] eqn:Hr; cbn; rewrite ?Hr.
  - repeat split; try reflexivity; intros; congruence.
  - repeat split; try reflexivity; intros; congruence.
Qed.

(** X4: a file of the FileCore-based sources that is not a regular file (a
    directory, a symlink, a device, a pipe, a socket) comes out of [AsFile]
    without a reader: [Read] and [WriteTo] return [fs.ErrClosed] with no
    byte, and [Close] returns [fs.ErrClosed]. *)
Theorem File2_not_regular_is_closed (f : File2.FileCore) (file : File2.File)
    (n : nat) :
  File2.AsFile f = Ret file ->
  File2.IsFile f = false ->
  File2.Read file n = Ret ([], Some fs_ErrClosed, file)
  /\ File2.WriteTo file = Ret ([], 0, Some fs_ErrClosed)
  /\ File2Ops.Close file = (Some fs_ErrClosed, file).
Proof.
  intros H Hf. apply AsFile_Ret in H as (_ & _ & _ & Hr & _).
  specialize (Hr Hf).
  unfold File2.Read, File2.WriteTo, File2Ops.Close. rewrite Hr.
  repeat split.
Qed.

Lemma File2_not_regular_is_closed_witness :
  exists file,
    File2.AsFile SampleRoot.root2 = Ret file
    /\ File2.Read file 16 = Ret ([], Some fs_ErrClosed, file)
    /\ File2.WriteTo file = Ret ([], 0, Some fs_ErrClosed)
    /\ File2Ops.Close file = (Some fs_ErrClosed, file).
Proof.
  eexists. split; [vm_compute; reflexivity|].
  apply (File2_not_regular_is_closed SampleRoot.root2).
  - vm_compute. reflexivity.
  - reflexivity.
Defined.

(** X5: [File.Read] of the File-based sources.  On a file that is not
    regular it delivers no byte and [io.EOF]; on a regular file that was
    closed it panics, [Close] having set the reader to nil. *)
Theorem File1_Read_closed_or_not_regular (f : File1.File) (n : nat) :
  File1.Read (if File1.IsRegular f then File1Ops.Close f else f) n
  = if File1.IsRegular f then Panic else Ret ([], Some io_EOF, f).
Proof.
  destruct (File1.IsRegular f) eqn:H; unfold File1.Read.
  - replace (File1.IsRegular (File1Ops.Close f)) with (File1.IsRegular f)
      by reflexivity.
    rewrite H. reflexivity.
  - rewrite H. reflexivity.
Qed.

(** ** Directory entries *)

(** X6: [DirEntry.IsDir] and [DirEntry.Type] agree, as [fs.DirEntry] asks:
    [IsDir()] is [Type().IsDir()]; and [Type()] has type bits only.  Both
    look at the basic directory tag: an entry whose type field is the
    extended directory tag 8 counts as no directory and has type 0. *)
Theorem DirEntry_IsDir_Type (d : File1.DirEntry) (nm : string) (off ioff : Z)
    (rd : option Archive) :
  File1Ops.DirEntry_IsDir d = FileMode.IsDir (File1Ops.DirEntry_Type d)
  /\ FileMode.Type_ (File1Ops.DirEntry_Type d) = File1Ops.DirEntry_Type d
  /\ (let ext := File1.mkDirEntry
                   (directory.Entry.mk nm inode.ExtDirType off ioff) rd in
      File1Ops.DirEntry_IsDir ext = false /\ File1Ops.DirEntry_Type ext = 0).
Proof.
  unfold File1Ops.DirEntry_IsDir, File1Ops.DirEntry_Type.
  set (ty := directory.Entry.Type_ (File1.en d)).
  split; [|split].
  - destruct (ty =? inode.DirType); [reflexivity|].
    destruct (ty =? inode.SymType); [reflexivity|].
    destruct (ty =? inode.SocketType); [reflexivity|].
    destruct (ty =? inode.BlockDevType); [reflexivity|].
    destruct (ty =? inode.CharDevType); reflexivity.
  - destruct (ty =? inode.DirType); [reflexivity|].
    destruct (ty =? inode.SymType); [reflexivity|].
    destruct (ty =? inode.SocketType); [reflexivity|].
    destruct (ty =? inode.BlockDevType); [reflexivity|].
    destruct (ty =? inode.CharDevType); reflexivity.
  - split; reflexivity.
Qed.

(** X7: [File.ReadDir] of the File-based sources with a count of zero or
    more: the count is not looked at; every call on a directory returns one
    [DirEntry] per entry of the directory, in the order of the directory
    and under the name of the entry, with a nil error, and leaves the file
    as it was.  On a file that is no directory the error is returned. *)
Theorem File1_ReadDir_lists_all (f : File1.File) (i : Z) :
  0 <= i ->
  exists out,
    File1.ReadDir f i
    = (if File1.IsDir f then Ret (out, None, f) else Fail errReadDirNonDir)
    /\ map File1.DirEntry_Name out = map directory.Entry.Name (File1.entries f)
    /\ map File1.en out = File1.entries f.
Proof.
  intros Hi.
  exists (map (fun ent => File1.mkDirEntry ent (Some (File1.r f)))
            (File1.entries f)).
  rewrite !map_map. split; [|split; [reflexivity|apply map_id]].
  destruct (File1.IsDir f) eqn:Hd.
  - apply (ReadDir_nonnegative f i Hd Hi).
  - unfold File1.ReadDir. rewrite Hd. reflexivity.
Qed.

Lemma File1_ReadDir_lists_all_witness :
  exists out,
    File1.ReadDir SampleRoot.root1 2
    = (if File1.IsDir SampleRoot.root1 then Ret (out, None, SampleRoot.root1)
       else Fail errReadDirNonDir)
    /\ map File1.DirEntry_Name out
       = map directory.Entry.Name (File1.entries SampleRoot.root1)
    /\ map File1.en out = File1.entries SampleRoot.root1.
Proof.
  apply (File1_ReadDir_lists_all SampleRoot.root1 2). lia.
Defined.

(** ** Symlinks, File-based sources *)

Lemma ValidPath_rooted (name : string) :
  HasPrefix name "/" = true -> fs.ValidPath name = false.
Proof.
  unfold HasPrefix. destruct name as [|c name]; [discriminate|].
  cbn [String.prefix]. destruct (ascii_dec "/" c) as [<-|]; [|discriminate].
  intros _. unfold fs.ValidPath. cbn [Split isSlash Ascii.eqb Bool.eqb forallb].
  replace (String.eqb (String "/" name) ".") with false by reflexivity.
  cbn. apply andb_false_r.
Qed.

(** X8: [File.GetSymlinkFile] of the File-based sources resolves the target
    with [FileFS.Open] of the parent, which takes valid paths only: for a
    symlink whose target is absolute or has a ".." element the result is
    nil, whatever the archive holds at that place. *)
Theorem GetSymlinkFile_unresolved (parent f : File1.File) (target : string) :
  File1.IsSymlink f = true ->
  File1Ops.SymlinkPath f = Ret target ->
  HasPrefix target "/" = true \/ In ".." (Split target) ->
  File1Ops.GetSymlinkFile (Some parent) f = Ret None.
Proof.
  intros Hs Ht Hbad. unfold File1Ops.GetSymlinkFile. rewrite Hs, Ht.
  cbn [negb bind]. destruct (HasSuffix target "/"); [reflexivity|].
  assert (Hopen : File1.FileFS_Open parent target
                  = Fail (PathError "open" target fs_ErrInvalid)).
  { unfold File1.FileFS_Open. destruct Hbad as [Habs|Hdd].
    - cbn [File1.Open]. destruct target as [|c t]; [discriminate|].
      replace (String.eqb (String c t) "") with false by reflexivity.
      rewrite (ValidPath_rooted _ Habs). reflexivity.
    - apply Open1_dotdot, Hdd. }
  rewrite Hopen. reflexivity.
Qed.

Lemma GetSymlinkFile_unresolved_witness :
  File1Ops.GetSymlinkFile (Some SampleRoot.root1) (SampleLink.link1 "../b")
  = Ret None
  /\ File1Ops.GetSymlinkFile (Some SampleRoot.root1) (SampleLink.link1 "/b")
     = Ret None.
Proof.
  split.
  - apply (GetSymlinkFile_unresolved SampleRoot.root1 (SampleLink.link1 "../b")
             "../b"); [reflexivity|reflexivity|].
    right. vm_compute. left. reflexivity.
  - apply (GetSymlinkFile_unresolved SampleRoot.root1 (SampleLink.link1 "/b")
             "/b"); [reflexivity|reflexivity|].
    left. reflexivity.
Defined.

(** ** What FileFS.Open returns, FileCore-based sources *)

(** The files [readDirLoop] adds are built by [AsFile] from the entries, in
    order. *)
Lemma readDirLoop_from_AsFile (a : Archive) (ents : list directory.Entry.t) :
  forall (i : Z) (acc out : list File2.File) (stop : option (error * Z)),
    File2.readDirLoop a i ents acc = Ret (out, stop) ->
    exists new,
      out = acc ++ new
      /\ Forall (fun file => File2.AsFile (File2.core file) = Ret file) new
      /\ map File2.Name new
         = map directory.Entry.Name (firstn (length new) ents)
      /\ (stop = None -> length new = length ents).
Proof.
  induction ents as [|e ents IH]; intros i acc out stop H.
  - cbn in H. injection H as <- <-. exists []. rewrite app_nil_r.
    repeat split; constructor.
  - cbn [File2.readDirLoop] in H.
    destruct (File2.newFileFromDirEntry a e) as [c|err| |] eqn:Hc;
      try discriminate.
    + apply bind_Ret in H as (file & Hf & H).
      apply IH in H as (new & -> & Hall & Hn & Hs).
      exists (file :: new). rewrite <- app_assoc.
      pose proof (AsFile_Ret c file Hf) as (Hcore & _).
      split; [reflexivity|]. split; [|split].
      * constructor; [rewrite Hcore; exact Hf|exact Hall].
      * cbn [length firstn map]. f_equal; [|exact Hn].
        unfold File2.Name. rewrite Hcore.
        unfold File2.newFileFromDirEntry in Hc.
        apply bind_Ret in Hc as (ino & _ & Hc). injection Hc as <-. reflexivity.
      * intros E. cbn [length]. f_equal. apply Hs, E.
    + injection H as <- <-. exists []. rewrite app_nil_r.
      repeat split; try constructor. discriminate.
Qed.

Lemma ReadDir2_from_AsFile (d d' : File2.File) (n : Z) (out : list File2.File)
    (err : option error) :
  File2.ReadDir d n = Ret (out, err, d') ->
  Forall (fun file => File2.AsFile (File2.core file) = Ret file) out.
Proof.
  unfold File2.ReadDir. intros H.
  destruct (File2.directory d) as [ents|]; [|discriminate].
  destruct (negb (File2.IsDir (File2.core d))); [discriminate|].
  destruct (if n <=? 0 then _ else _) as [[[beg end_] eof] f1].
  apply bind_Ret in H as (sl & _ & H).
  apply bind_Ret in H as ([out' stop] & Hl & H).
  apply readDirLoop_from_AsFile in Hl as (new & -> & Hall & _).
  destruct stop as [[e i]|]; injection H as <- _ _; exact Hall.
Qed.

Lemma openLoop2_In (name : string) (dirs : list File2.File) (file : File2.File) :
  File2.openLoop name dirs = Ret file -> In file dirs.
Proof.
  induction dirs as [|d dirs IH]; [discriminate|].
  cbn [File2.openLoop].
  destruct (path.Match (path.Base name) (File2.Name d)) as [[|]|e| |];
    try discriminate.
  - intros H. injection H as <-. left. reflexivity.
  - intros H. right. apply IH, H.
  - intros H. right. apply IH, H.
Qed.

(** Every file [Open] returns was built by [AsFile] from its own core, and
    every file [FileFS.ReadDir] lists. *)
Lemma Open2_from_AsFile (fuel : nat) :
  forall (f : File2.FileCore) (name : string),
    (forall file, File2.Open fuel f name = Ret file ->
                  File2.AsFile (File2.core file) = Ret file)
    /\ (forall res, File2.FSReadDir fuel f name = Ret res ->
                    Forall (fun file => File2.AsFile (File2.core file) = Ret file)
                      (fst res)).
Proof.
  induction fuel as [|fuel IH]; intros f name; [split; discriminate|].
  split.
  - intros file H. cbn [File2.Open] in H.
    destruct (_ || _) in H.
    { pose proof (AsFile_Ret f file H) as (Hc & _). rewrite Hc. exact H. }
    destruct (negb _) in H; [discriminate|].
    destruct (File2.FSReadDir fuel f _) as [[dirs [e|]]|e| |] eqn:Hd;
      try discriminate.
    apply openLoop2_In in H.
    destruct (IH f (path.Dir (TrimPrefix (path.Clean name) "/"))) as [_ Hall].
    specialize (Hall _ Hd). cbn [fst] in Hall.
    rewrite Forall_forall in Hall. apply Hall, H.
  - intros res H. cbn [File2.FSReadDir] in H.
    destruct (_ || _) in H.
    { apply bind_Ret in H as (file & _ & H).
      apply bind_Ret in H as ([[out err] d'] & Hr & H). injection H as <-.
      apply (ReadDir2_from_AsFile _ _ _ _ _ Hr). }
    destruct (negb _) in H; [discriminate|].
    destruct (File2.Open fuel f _) as [d|e| |] eqn:Ho; try discriminate.
    + apply bind_Ret in H as ([[out err] d'] & Hr & H). injection H as <-.
      apply (ReadDir2_from_AsFile _ _ _ _ _ Hr).
    + destruct (File2.isPathError e); discriminate.
Qed.

Lemma AsFile_rdr (f : File2.FileCore) (file : File2.File) (rd : fileReader.t) :
  File2.AsFile f = Ret file ->
  File2.IsFile f = true ->
  fileReader.newFileReader (File2.r f) (File2.in_ f) = Ret rd ->
  File2.rdr file = Some rd.
Proof.
  unfold File2.AsFile. intros H Hf Hrd.
  apply bind_Ret in H as (d & _ & H).
  rewrite Hf, Hrd in H. cbn [bind] in H. injection H as <-. reflexivity.
Qed.

Lemma AsFile_regular_mode (f : File2.FileCore) (file : File2.File) :
  File2.AsFile f = Ret file ->
  0 <= inode.Permissions (File2.in_ f) < 65536 ->
  File2.IsDir f = false -> File2.IsSymlink f = false ->
  FileMode.IsRegular (File2Ops.Mode file) = true.
Proof.
  intros H Hp Hd Hs. apply AsFile_Ret in H as (_ & _ & Hm & _).
  unfold File2Ops.Mode, FileMode.IsRegular. rewrite Hm, Hd, Hs. cbv zeta.
  apply Z.eqb_eq. apply land_low16; [exact Hp|reflexivity].
Qed.

Lemma File2_file_not_dir (f : File2.FileCore) :
  File2.IsFile f = true -> File2.IsDir f = false /\ File2.IsSymlink f = false.
Proof.
  unfold File2.IsFile, File2.IsDir, File2.IsSymlink.
  rewrite orb_true_iff, !orb_false_iff, !Z.eqb_eq, !Z.eqb_neq.
  unfold inode.DirType, inode.ExtDirType, inode.SymType, inode.ExtSymType,
    inode.FileType, inode.ExtFileType.
  lia.
Qed.

(** ** FileFS.ReadFile *)

(** X9: [FileFS.ReadFile] on a name that [Open] resolves to a directory or
    to a symlink returns no bytes and a [*fs.PathError] that carries the
    name as given and the error "File is not a file", whatever the
    permission bits of the inode. *)
Theorem ReadFile_not_a_file (f : File2.FileCore) (name : string)
    (file : File2.File) :
  File2.FileFS_Open f name = Ret file ->
  File2.IsDir (File2.core file) || File2.IsSymlink (File2.core file) = true ->
  File2Ops.ReadFile f name = Fail (PathError "" name File2Ops.errNotFile).
Proof.
  intros Ho Hk. unfold File2Ops.ReadFile. rewrite Ho.
  destruct (Open2_from_AsFile (S (2 * String.length name)) f name)
    as [Hfrom _].
  specialize (Hfrom file Ho).
  apply AsFile_Ret in Hfrom as (_ & _ & Hm & _).
  assert (Hreg : FileMode.IsRegular (File2Ops.Mode file) = false).
  { unfold FileMode.IsRegular, File2Ops.Mode. rewrite Hm. cbv zeta.
    apply Z.eqb_neq. intros E.
    destruct (File2.IsDir (File2.core file)) eqn:Hd.
    - assert (Hb : Z.testbit 0 31 = true).
      { rewrite <- E, Z.land_spec, Z.lor_spec.
        replace (Z.testbit File2.ModeDir 31) with true by reflexivity.
        rewrite orb_true_r. reflexivity. }
      discriminate Hb.
    - cbn [orb] in Hk. rewrite Hk in E.
      assert (Hb : Z.testbit 0 27 = true).
      { rewrite <- E, Z.land_spec, Z.lor_spec.
        replace (Z.testbit File2.ModeSymlink 27) with true by reflexivity.
        rewrite orb_true_r. reflexivity. }
      discriminate Hb. }
  rewrite Hreg. reflexivity.
Qed.

Lemma ReadFile_not_a_file_witness :
  exists file,
    File2.FileFS_Open SampleRoot.root2 "a/b" = Ret file
    /\ File2Ops.ReadFile SampleRoot.root2 "a/b"
       = Fail (PathError "" "a/b" File2Ops.errNotFile).
Proof.
  eexists. split; [vm_compute; reflexivity|].
  eapply (ReadFile_not_a_file SampleRoot.root2 "a/b").
  - vm_compute. reflexivity.
  - reflexivity.
Defined.

(** X10: [FileFS.ReadFile] on a name that [Open] resolves to a regular file
    (permissions of 16 bits) whose reader could be built returns what
    [fileReader.WriteTo] of that reader writes, with its error; for the
    fragment-only file c of the example archive, "helloworld" and nil. *)
Theorem ReadFile_regular (f : File2.FileCore) (name : string)
    (file : File2.File) (rd : fileReader.t) :
  File2.FileFS_Open f name = Ret file ->
  File2.IsFile (File2.core file) = true ->
  0 <= inode.Permissions (File2.in_ (File2.core file)) < 65536 ->
  fileReader.newFileReader (File2.r (File2.core file))
    (File2.in_ (File2.core file)) = Ret rd ->
  File2Ops.ReadFile f name
  = (let* (res, err) := fileReader.WriteTo rd in Ret (fst res, err)).
Proof.
  intros Ho Hf Hp Hrd.
  destruct (Open2_from_AsFile (S (2 * String.length name)) f name)
    as [Hfrom _].
  specialize (Hfrom file Ho).
  destruct (File2_file_not_dir _ Hf) as [Hd Hs].
  pose proof (AsFile_regular_mode _ _ Hfrom Hp Hd Hs) as Hreg.
  pose proof (AsFile_rdr _ _ _ Hfrom Hf Hrd) as Hr.
  unfold File2Ops.ReadFile. rewrite Ho, Hreg. cbn [negb andb].
  unfold File2.WriteTo. rewrite Hr. reflexivity.
Qed.

Lemma ReadFile_regular_witness :
  exists file rd,
    File2.FileFS_Open SampleRoot.root2 "a/b/c" = Ret file
    /\ fileReader.newFileReader Sample.archive Sample.helloInode = Ret rd
    /\ fileReader.WriteTo rd = Ret (Sample.helloworld, 10, None)
    /\ File2Ops.ReadFile SampleRoot.root2 "a/b/c"
       = (let* (res, err) := fileReader.WriteTo rd in Ret (fst res, err))
    /\ File2Ops.ReadFile SampleRoot.root2 "a/b/c" = Ret (Sample.helloworld, None).
Proof.
  do 2 eexists. split; [vm_compute; reflexivity|].
  split; [vm_compute; reflexivity|].
  split; [vm_compute; reflexivity|].
  split; [|vm_compute; reflexivity].
  eapply (ReadFile_regular SampleRoot.root2 "a/b/c").
  - vm_compute. reflexivity.
  - reflexivity.
  - cbn. lia.
  - vm_compute. reflexivity.
Defined.

(** ** FileFS.Sub *)

Lemma walk2_app_list (cs1 cs2 : list string) :
  forall d, walk2 d (cs1 ++ cs2) = (let* d' := walk2 d cs1 in walk2 d' cs2).
Proof.
  induction cs1 as [|x cs1 IH]; intros d.
  - reflexivity.
  - cbn [app walk2].
    destruct (File2.ReadDir d (-1)) as [[res d1]|e| |]; try reflexivity.
    cbn [bind]. destruct (snd res); [reflexivity|].
    destruct (find (fileNamed x) (fst res)) as [child|]; [|reflexivity].
    apply IH.
Qed.

(** On a path of plain names, a file [Open] returns is the one the literal
    walk arrives at. *)
Lemma Open2_plain_walk (comps : list string) :
  forall (f : File2.FileCore) (fuel : nat) (file : File2.File),
    comps <> [] -> forallb plainElem comps = true ->
    File2.Open fuel f (Join comps) = Ret file ->
    walkFrom2 f comps = Ret file.
Proof.
  induction comps as [|c cs IH] using rev_ind;
    intros f fuel file Hne Hp Ho; [contradiction|].
  destruct fuel as [|fuel]; [discriminate|].
  destruct (forallb_app_plain cs c Hp) as [Hcs Hc].
  pose proof (plainElem_parts c Hc) as (_ & _ & Hm & _).
  destruct (Join_not_special _ Hne Hp) as (H1 & H2 & _).
  cbn [File2.Open] in Ho. fold (cleaned (Join (cs ++ [c]))) in Ho.
  rewrite (cleaned_Join _ Hne Hp), H1, H2, (ValidPath_Join _ Hne Hp) in Ho.
  cbn [orb negb] in Ho. rewrite (Dir_Join cs c Hp) in Ho.
  destruct (File2.FSReadDir fuel f _) as [[dirs [e|]]|e| |] eqn:Hd;
    try discriminate.
  rewrite openLoop2_find in Ho by (rewrite (Base_Join cs c Hp); exact Hm).
  rewrite (Base_Join cs c Hp) in Ho.
  destruct (find (fileNamed c) dirs) as [child|] eqn:Hfind; [|discriminate].
  injection Ho as ->.
  destruct fuel as [|fuel]; [discriminate|].
  unfold walkFrom2.
  destruct cs as [|x cs'].
  - cbn [File2.FSReadDir] in Hd.
    change (TrimPrefix (path.Clean ".") "/") with "." in Hd.
    cbn [String.eqb Ascii.eqb Bool.eqb orb] in Hd.
    apply bind_Ret in Hd as (d0 & Hd0 & Hd).
    apply bind_Ret in Hd as ([res d''] & Hrd & Hd). injection Hd as ->.
    rewrite Hd0. cbn [bind app walk2]. rewrite Hrd. cbn [bind snd fst].
    rewrite Hfind. reflexivity.
  - set (cs := x :: cs') in *.
    assert (Hne' : cs <> []) by discriminate.
    destruct (Join_not_special _ Hne' Hcs) as (H1' & H2' & _).
    cbn [File2.FSReadDir] in Hd. fold (cleaned (Join cs)) in Hd.
    rewrite (cleaned_Join _ Hne' Hcs), H1', H2', (ValidPath_Join _ Hne' Hcs)
      in Hd.
    cbn [orb negb] in Hd.
    destruct (File2.Open fuel f (Join cs)) as [d|e| |] eqn:Hod;
      try discriminate; [|destruct (File2.isPathError e); discriminate].
    apply bind_Ret in Hd as ([res d''] & Hrd & Hd). injection Hd as ->.
    pose proof (IH f fuel d Hne' Hcs Hod) as Hw. unfold walkFrom2 in Hw.
    apply bind_Ret in Hw as (d0 & Hd0 & Hw).
    rewrite Hd0. cbn [bind]. rewrite walk2_app, Hw. cbn [bind walk2].
    rewrite Hrd. cbn [bind snd fst]. rewrite Hfind. reflexivity.
Qed.

(** X11: [FileFS.Sub] and [Open] compose on paths of plain names: when
    [Sub(dir)] returns a file system and [Open(name)] of that file system
    returns a file, [Open] of the joined path dir/name on the first file
    system returns the same file. *)
Theorem Sub_Open_compose (f sub : File2.FileCore) (dir name : list string)
    (file : File2.File) :
  dir <> [] -> name <> [] ->
  forallb plainElem dir = true -> forallb plainElem name = true ->
  File2Ops.Sub f (Join dir) = Ret sub ->
  File2.FileFS_Open sub (Join name) = Ret file ->
  File2.FileFS_Open f (Join (dir ++ name)) = Ret file.
Proof.
  intros Hd Hn Hpd Hpn Hsub Ho.
  unfold File2Ops.Sub in Hsub.
  destruct (File2.FileFS_Open f (Join dir)) as [d|e| |] eqn:Hod;
    try discriminate; [|destruct e; discriminate].
  unfold File2Ops.AsFS in Hsub.
  destruct (negb (File2.IsDir (File2.core d))); [discriminate|].
  injection Hsub as <-.
  destruct (Open2_from_AsFile (S (2 * String.length (Join dir))) f (Join dir))
    as [Hfrom _].
  specialize (Hfrom d Hod).
  apply Open2_plain_walk in Hod; auto.
  apply Open2_plain_walk in Ho; auto.
  unfold walkFrom2 in Ho. rewrite Hfrom in Ho. cbn [bind] in Ho.
  assert (Hp : forallb plainElem (dir ++ name) = true)
    by (rewrite forallb_app, Hpd, Hpn; reflexivity).
  apply Open2_plain.
  - destruct dir; [contradiction|discriminate].
  - exact Hp.
  - pose proof (Join_length _ Hp). lia.
  - unfold walkFrom2 in *. apply bind_Ret in Hod as (d0 & Hd0 & Hw).
    rewrite Hd0. cbn [bind]. rewrite walk2_app_list, Hw. exact Ho.
Qed.

Lemma Sub_Open_compose_witness :
  exists sub file,
    File2Ops.Sub SampleRoot.root2 (Join ["a"]) = Ret sub
    /\ File2.FileFS_Open sub (Join ["b"; "c"]) = Ret file
    /\ File2.Name file = "c"
    /\ File2.FileFS_Open SampleRoot.root2 (Join (["a"] ++ ["b"; "c"])) = Ret file.
Proof.
  do 2 eexists. split; [vm_compute; reflexivity|].
  split; [vm_compute; reflexivity|]. split; [reflexivity|].
  eapply (Sub_Open_compose SampleRoot.root2 _ ["a"] ["b"; "c"]).
  - discriminate.
  - discriminate.
  - vm_compute. reflexivity.
  - vm_compute. reflexivity.
  - vm_compute. reflexivity.
  - vm_compute. reflexivity.
Defined.

(** ** File.ReadDir, FileCore-based sources *)

Lemma readDirLoop_loads (a : Archive) (ents : list directory.Entry.t) :
  forall (i : Z) (acc : list File2.File),
    childrenLoad a ents = true ->
    exists new,
      File2.readDirLoop a i ents acc = Ret (acc ++ new, None)
      /\ map File2.Name new = map directory.Entry.Name ents.
Proof.
  induction ents as [|e ents IH]; intros i acc H.
  - exists []. rewrite app_nil_r. split; reflexivity.
  - unfold childrenLoad in H. cbn [forallb] in H.
    apply andb_true_iff in H as [He Hr]. unfold childLoads in He.
    cbn [File2.readDirLoop].
    destruct (File2.newFileFromDirEntry a e) as [c|err| |] eqn:Hc;
      try discriminate.
    cbn [bind] in He.
    destruct (File2.AsFile c) as [file|err| |] eqn:Hf; try discriminate.
    cbn [bind].
    destruct (IH (i + 1) (acc ++ [file]) Hr) as (new & Hl & Hn).
    exists (file :: new). rewrite Hl, <- app_assoc. split; [reflexivity|].
    cbn [map]. f_equal; [|exact Hn].
    pose proof (AsFile_Ret c file Hf) as (Hcore & _).
    unfold File2.Name. rewrite Hcore.
    unfold File2.newFileFromDirEntry in Hc.
    apply bind_Ret in Hc as (ino & _ & Hc). injection Hc as <-. reflexivity.
Qed.

Lemma In_firstn_list {A : Type} (x : A) (m : nat) :
  forall l : list A, In x (firstn m l) -> In x l.
Proof.
  induction m as [|m IH]; intros [|y l] H; try contradiction.
  cbn in H. destruct H as [->|H]; [left; reflexivity|right; apply IH, H].
Qed.

Lemma In_skipn_list {A : Type} (x : A) (k : nat) :
  forall l : list A, In x (skipn k l) -> In x l.
Proof.
  induction k as [|k IH]; intros [|y l] H; try contradiction; try exact H.
  right. apply IH, H.
Qed.

Lemma childrenLoad_slice (a : Archive) (ents : list directory.Entry.t)
    (k m : nat) :
  childrenLoad a ents = true ->
  childrenLoad a (firstn m (skipn k ents)) = true.
Proof.
  unfold childrenLoad. rewrite !forallb_forall. intros H e Hin.
  apply H. apply In_firstn_list in Hin. apply In_skipn_list in Hin. exact Hin.
Qed.

(** X12: [File.ReadDir] of the FileCore-based sources with a count of zero
    or less, on a directory whose entries all yield files: the call returns
    one file per entry, in the order of the directory and under the names
    of the entries, with a nil error, and leaves the read position of the
    directory where it was. *)
Theorem File2_ReadDir_all (f : File2.File) (ents : list directory.Entry.t)
    (n : Z) :
  File2.directory f = Some ents ->
  File2.IsDir (File2.core f) = true ->
  childrenLoad (File2.r (File2.core f)) ents = true ->
  n <= 0 ->
  exists out,
    File2.ReadDir f n = Ret (out, None, f)
    /\ map File2.Name out = map directory.Entry.Name ents.
Proof.
  intros Hd Hdir Hl Hn. unfold File2.ReadDir. rewrite Hd, Hdir. cbn [negb].
  destruct (Z.leb_spec n 0); [|lia].
  unfold slice.
  destruct (Z.leb_spec 0 0); [|lia].
  destruct (Z.leb_spec 0 (Z.of_nat (length ents))); [|lia].
  destruct (Z.leb_spec (Z.of_nat (length ents)) (Z.of_nat (length ents)));
    [|lia].
  cbn [andb bind]. rewrite Z.sub_0_r, Nat2Z.id.
  change (Z.to_nat 0) with 0%nat. cbn [skipn]. rewrite firstn_all.
  destruct (readDirLoop_loads _ ents 0 [] Hl) as (new & -> & Hnames).
  cbn [bind app]. exists new. split; [reflexivity|exact Hnames].
Qed.

(** X13: [File.ReadDir] of the FileCore-based sources with a count [n]
    above zero pages through the directory.  With the read position
    [dirIndex] within the directory and [dirIndex + n] within int, on a
    directory whose entries all yield files, the call returns the files of
    the next [n] entries (fewer at the end), moves the read position behind
    them, to the length of the directory at most, and returns [io.EOF]
    exactly when fewer than [n] entries were left. *)
Theorem File2_ReadDir_pages (f : File2.File) (ents : list directory.Entry.t)
    (n : Z) :
  File2.directory f = Some ents ->
  File2.IsDir (File2.core f) = true ->
  childrenLoad (File2.r (File2.core f)) ents = true ->
  0 <= File2.dirIndex f <= Z.of_nat (length ents) ->
  0 < n ->
  File2.dirIndex f + n < 9223372036854775808 ->
  exists out,
    File2.ReadDir f n
    = Ret (out,
           (if File2.dirIndex f + n >? Z.of_nat (length ents)
            then Some io_EOF else None),
           File2.withDirIndex f
             (Z.min (File2.dirIndex f + n) (Z.of_nat (length ents))))
    /\ map File2.Name out
       = map directory.Entry.Name
           (firstn (Z.to_nat n) (skipn (Z.to_nat (File2.dirIndex f)) ents)).
Proof.
  intros Hd Hdir Hl Hi Hn Hmax. unfold File2.ReadDir.
  rewrite Hd, Hdir. cbn [negb].
  destruct (Z.leb_spec n 0); [lia|].
  rewrite to_int64_id by lia.
  set (len := Z.of_nat (length ents)) in *.
  set (beg := File2.dirIndex f) in *.
  assert (Hsk : length (skipn (Z.to_nat beg) ents) = Z.to_nat (len - beg)).
  { rewrite length_skipn. unfold len. lia. }
  destruct (Z.gtb_spec (beg + n) len) as [Hgt|Hle].
  - unfold slice. fold len.
    destruct (Z.leb_spec 0 beg); [|lia].
    destruct (Z.leb_spec beg len); [|lia].
    destruct (Z.leb_spec len len); [|lia].
    cbn [andb bind].
    pose proof (childrenLoad_slice _ ents (Z.to_nat beg) (Z.to_nat (len - beg)) Hl)
      as Hls.
    destruct (readDirLoop_loads _ _ 0 [] Hls) as (new & -> & Hnames).
    cbn [bind app]. exists new. rewrite Z.min_r by lia.
    split; [reflexivity|]. rewrite Hnames.
    rewrite !firstn_all2 by lia. reflexivity.
  - unfold slice. fold len.
    destruct (Z.leb_spec 0 beg); [|lia].
    destruct (Z.leb_spec beg (beg + n)); [|lia].
    destruct (Z.leb_spec (beg + n) len); [|lia].
    cbn [andb bind].
    replace (beg + n - beg) with n by lia.
    pose proof (childrenLoad_slice _ ents (Z.to_nat beg) (Z.to_nat n) Hl) as Hls.
    destruct (readDirLoop_loads _ _ 0 [] Hls) as (new & -> & Hnames).
    cbn [bind app]. exists new. rewrite Z.min_l by lia.
    split; [reflexivity|exact Hnames].
Qed.

Lemma File2_ReadDir_all_witness :
  exists out,
    File2.ReadDir sampleRootFile2 (-1) = Ret (out, None, sampleRootFile2)
    /\ map File2.Name out
       = map directory.Entry.Name SampleRoot.entries1.
Proof.
  apply (File2_ReadDir_all sampleRootFile2 SampleRoot.entries1 (-1)).
  - vm_compute. reflexivity.
  - reflexivity.
  - vm_compute. reflexivity.
  - lia.
Defined.

Lemma File2_ReadDir_pages_witness :
  exists out,
    File2.ReadDir sampleRootFile2 2
    = Ret (out,
           (if File2.dirIndex sampleRootFile2 + 2
               >? Z.of_nat (length SampleRoot.entries1)
            then Some io_EOF else None),
           File2.withDirIndex sampleRootFile2
             (Z.min (File2.dirIndex sampleRootFile2 + 2)
                (Z.of_nat (length SampleRoot.entries1))))
    /\ map File2.Name out
       = map directory.Entry.Name
           (firstn (Z.to_nat 2)
              (skipn (Z.to_nat (File2.dirIndex sampleRootFile2))
                 SampleRoot.entries1)).
Proof.
  apply (File2_ReadDir_pages sampleRootFile2 SampleRoot.entries1 2).
  - vm_compute. reflexivity.
  - reflexivity.
  - vm_compute. reflexivity.
  - vm_compute. split; discriminate.
  - lia.
  - vm_compute. reflexivity.
Defined.

(** The pages of the root of the example archive, two entries at a time:
    a and b, then big with [io.EOF], then nothing with [io.EOF]. *)
Lemma File2_ReadDir_pages_sample :
  exists out1 f1 out2 f2 f3,
    File2.ReadDir sampleRootFile2 2 = Ret (out1, None, f1)
    /\ map File2.Name out1 = ["a"; "b"]
    /\ File2.ReadDir f1 2 = Ret (out2, Some io_EOF, f2)
    /\ map File2.Name out2 = ["big"]
    /\ File2.ReadDir f2 2 = Ret ([], Some io_EOF, f3).
Proof.
  do 5 eexists.
  split; [vm_compute; reflexivity|]. split; [reflexivity|].
  split; [vm_compute; reflexivity|]. split; [reflexivity|].
  vm_compute. reflexivity.
Qed.

(** ** NewSquashfsReader: the superblock *)

(** X14: [NewSquashfsReader] on a source shorter than the 96 bytes of the
    superblock returns no reader: [io.EOF] for the empty source and
    [io.ErrUnexpectedEOF] for a source of 1 to 95 bytes, whatever the bytes
    are. *)
Theorem NewSquashfsReader_short :
  forall (FileFS : Type)
         (loadTables : list byte -> superblock.t -> compression.Decompressor ->
                       outcome (list Z * list Z * FileFS))
         (src : list byte),
    (length src < 96)%nat ->
    NewSquashfsReader loadTables src
    = Fail (if (length src =? 0)%nat then io_EOF else io_ErrUnexpectedEOF).
Proof.
  intros FileFS loadTables src Hlen. unfold NewSquashfsReader, readFull.
  rewrite firstn_all2 by lia. cbn [Nat.eqb].
  destruct (Nat.eqb_spec (length src) 0); [reflexivity|].
  destruct (Nat.ltb_spec (length src) 96); [reflexivity|lia].
Qed.

Lemma NewSquashfsReader_short_witness :
  NewSquashfsReader SampleOpen.loadTables [] = Fail io_EOF
  /\ NewSquashfsReader SampleOpen.loadTables
       (firstn 95 SampleOpen.srcSmallBlock) = Fail io_ErrUnexpectedEOF.
Proof.
  split.
  - apply (NewSquashfsReader_short unit SampleOpen.loadTables []). cbn. lia.
  - apply (NewSquashfsReader_short unit SampleOpen.loadTables
             (firstn 95 SampleOpen.srcSmallBlock)).
    rewrite length_firstn. lia.
Defined.

(** X15: [NewSquashfsReader] on a source of 96 bytes or more whose first
    four bytes are not the magic word 0x73717368 (little-endian) returns
    the no-magic error, whatever the rest of the superblock and of the
    archive. *)
Theorem NewSquashfsReader_no_magic :
  forall (FileFS : Type)
         (loadTables : list byte -> superblock.t -> compression.Decompressor ->
                       outcome (list Z * list Z * FileFS))
         (src : list byte),
    (96 <= length src)%nat ->
    le (firstn 4 src) <> magic ->
    NewSquashfsReader loadTables src = Fail errNoMagic.
Proof.
  intros FileFS loadTables src Hlen Hm. unfold NewSquashfsReader.
  rewrite (readFull_superblock src Hlen). cbn [bind].
  unfold decodeSuperblock. cbn [superblock.Magic].
  assert (E : field 0 4 (firstn 96 src) = firstn 4 src).
  { unfold field. cbn [skipn]. rewrite firstn_firstn. reflexivity. }
  rewrite E. destruct (Z.eqb_spec (le (firstn 4 src)) magic); [contradiction|].
  reflexivity.
Qed.

Lemma NewSquashfsReader_no_magic_witness :
  NewSquashfsReader SampleOpen.loadTables (repeat x00%byte 96) = Fail errNoMagic.
Proof.
  apply (NewSquashfsReader_no_magic unit SampleOpen.loadTables
           (repeat x00%byte 96)).
  - rewrite repeat_length. lia.
  - vm_compute. discriminate.
Defined.




(** ** The directory decoder on well-formed listings *)

Lemma byteZ_byteOf (z : Z) : byteZ (Sample.byteOf z) = z mod 256.
Proof.
  unfold byteZ, Sample.byteOf.
  assert (Hb : 0 <= z mod 256 < 256) by (apply Z.mod_pos_bound; lia).
  destruct (Byte.of_N (Z.to_N (z mod 256))) as [b|] eqn:E.
  - apply Byte.to_of_N in E. rewrite E. lia.
  - apply Byte.of_N_None_iff in E. lia.
Qed.

Lemma le_leBytes (n : nat) :
  forall v : Z, le (Sample.leBytes n v) = v mod 256 ^ Z.of_nat n.
Proof.
  induction n as [|n IH]; intros v.
  - cbn. symmetry. apply Z.mod_1_r.
  - cbn [Sample.leBytes le]. rewrite byteZ_byteOf, IH.
    rewrite Nat2Z.inj_succ, Z.pow_succ_r by lia.
    rewrite Z.rem_mul_r by lia. reflexivity.
Qed.

Lemma le_leBytes_small (n : nat) (v : Z) :
  0 <= v < 256 ^ Z.of_nat n -> le (Sample.leBytes n v) = v.
Proof. intros H. rewrite le_leBytes. apply Z.mod_small, H. Qed.

Lemma readFull_app (n : nat) (a b : list byte) :
  length a = n -> readFull n (a ++ b) = Ret (a, b).
Proof.
  intros <-. unfold readFull.
  destruct (Nat.eqb_spec (length a) 0) as [E|E].
  - destruct a; [reflexivity|discriminate].
  - rewrite length_app.
    destruct (Nat.eqb_spec (length a + length b) 0); [lia|].
    destruct (Nat.ltb_spec (length a + length b) (length a)); [lia|].
    rewrite firstn_app, Nat.sub_diag, firstn_all. cbn [firstn].
    rewrite app_nil_r, skipn_app, Nat.sub_diag, skipn_all. reflexivity.
Qed.

Lemma readHeader_enc (count inodeOff num : Z) (rest : list byte) :
  0 <= count < 4294967296 -> 0 <= inodeOff < 4294967296 ->
  0 <= num < 4294967296 ->
  directory.readHeader
    (Sample.leBytes 4 count ++ Sample.leBytes 4 inodeOff
     ++ Sample.leBytes 4 num ++ rest)
  = Ret (directory.Header.mk count inodeOff num, rest).
Proof.
  intros Hc Hi Hn. unfold directory.readHeader.
  rewrite !app_assoc. rewrite readFull_app by reflexivity.
  cbn [bind].
  change (field 0 4 ((Sample.leBytes 4 count ++ Sample.leBytes 4 inodeOff)
                     ++ Sample.leBytes 4 num))
    with (Sample.leBytes 4 count).
  change (field 4 4 ((Sample.leBytes 4 count ++ Sample.leBytes 4 inodeOff)
                     ++ Sample.leBytes 4 num))
    with (Sample.leBytes 4 inodeOff).
  change (field 8 4 ((Sample.leBytes 4 count ++ Sample.leBytes 4 inodeOff)
                     ++ Sample.leBytes 4 num))
    with (Sample.leBytes 4 num).
  rewrite !le_leBytes_small by (change (256 ^ Z.of_nat 4) with 4294967296; lia).
  reflexivity.
Qed.

Lemma length_list_byte_of_string (s : string) :
  length (list_byte_of_string s) = String.length s.
Proof. induction s as [|c s IH]; [reflexivity|]. cbn. f_equal. exact IH. Qed.

Lemma NewEntry_enc (e : DirLayout.entry) (rest : list byte) :
  DirLayout.wfEntry e = true ->
  directory.NewEntry (Sample.encEntry e ++ rest)
  = Ret (DirLayout.entryOf 0 e, rest).
Proof.
  destruct e as [[off ty] nm]. unfold DirLayout.wfEntry.
  rewrite !andb_true_iff, !Z.leb_le, !Z.ltb_lt.
  intros [[[[[Ho1 Ho2] Ht1] Ht2] Hn1] Hn2].
  unfold directory.NewEntry, directory.readEntryRaw, Sample.encEntry.
  rewrite <- !app_assoc.
  replace (Sample.leBytes 2 off ++ Sample.leBytes 2 0 ++ Sample.leBytes 2 ty
           ++ Sample.leBytes 2 (Z.of_nat (String.length nm) - 1)
           ++ list_byte_of_string nm ++ rest)
    with ((Sample.leBytes 2 off ++ Sample.leBytes 2 0 ++ Sample.leBytes 2 ty
           ++ Sample.leBytes 2 (Z.of_nat (String.length nm) - 1))
          ++ list_byte_of_string nm ++ rest)
    by (rewrite <- !app_assoc; reflexivity).
  rewrite readFull_app by reflexivity.
  cbn [bind directory.EntryRaw.NameSize directory.EntryRaw.Type_
       directory.EntryRaw.Offset].
  set (raw := Sample.leBytes 2 off ++ Sample.leBytes 2 0 ++ Sample.leBytes 2 ty
              ++ Sample.leBytes 2 (Z.of_nat (String.length nm) - 1)).
  change (field 6 2 raw)
    with (Sample.leBytes 2 (Z.of_nat (String.length nm) - 1)).
  change (field 4 2 raw) with (Sample.leBytes 2 ty).
  change (field 0 2 raw) with (Sample.leBytes 2 off).
  rewrite !le_leBytes_small by (change (256 ^ Z.of_nat 2) with 65536; lia).
  replace (Z.to_nat (u16 (Z.of_nat (String.length nm) - 1 + 1)))
    with (length (list_byte_of_string nm)).
  - rewrite readFull_app by reflexivity. cbn [bind DirLayout.entryOf].
    rewrite string_of_list_byte_of_string. reflexivity.
  - rewrite length_list_byte_of_string. unfold u16.
    rewrite Z.mod_small by lia. lia.
Qed.

Lemma entriesLoop_enc (ents : list DirLayout.entry) :
  forall (i : Z) (acc : list directory.Entry.t) (fuel : nat)
         (hdr : directory.Header.t) (rest : list byte),
    forallb DirLayout.wfEntry ents = true ->
    0 <= i -> i + Z.of_nat (length ents) <= 256 ->
    directory.Header.Count hdr = i + Z.of_nat (length ents) ->
    (length ents < fuel)%nat ->
    directory.entriesLoop fuel hdr i (concat (map Sample.encEntry ents) ++ rest) acc
    = Ret (hdr, rest,
           acc ++ map (DirLayout.entryOf (directory.Header.InodeOffset hdr)) ents).
Proof.
  induction ents as [|e ents IH]; intros i acc fuel hdr rest Hwf Hi Hmax Hc Hfuel;
    (destruct fuel as [|fuel]; [cbn [length] in Hfuel; lia|]);
    cbn [directory.entriesLoop].
  - cbn [length] in Hc. rewrite Hc, Z.add_0_r, Z.ltb_irrefl.
    cbn. rewrite app_nil_r. reflexivity.
  - cbn [length] in Hc, Hmax, Hfuel. cbn [forallb] in Hwf.
    apply andb_true_iff in Hwf as [He Hr].
    destruct (Z.ltb_spec i (directory.Header.Count hdr)); [|lia].
    assert (Hg : negb (i =? 0) && (i mod 256 =? 0) = false).
    { destruct (Z.eqb_spec i 0); [reflexivity|].
      rewrite Z.mod_small by lia.
      destruct (Z.eqb_spec i 0); [contradiction|reflexivity]. }
    rewrite Hg. cbn [bind map concat]. rewrite <- app_assoc.
    rewrite (NewEntry_enc e _ He). cbn [bind].
    unfold u32. rewrite Z.mod_small by lia.
    rewrite (IH (i + 1)); try lia; try assumption.
    f_equal. rewrite <- app_assoc. cbn [app]. do 3 f_equal.
    destruct e as [[off ty] nm]. reflexivity.
Qed.

Lemma length_encEntries (ents : list DirLayout.entry) :
  (length ents <= length (concat (map Sample.encEntry ents)))%nat.
Proof.
  induction ents as [|[[off ty] nm] ents IH]; [cbn; lia|].
  cbn [map concat length Sample.encEntry]. rewrite !length_app.
  cbn [Sample.leBytes length]. lia.
Qed.

Lemma length_encListing (gs : list DirLayout.group) :
  (length gs <= length (DirLayout.encListing gs))%nat.
Proof.
  induction gs as [|[io ents] gs IH]; [cbn; lia|].
  unfold DirLayout.encListing in *. cbn [map concat length].
  rewrite length_app.
  assert (H : (1 <= length (DirLayout.encGroup (io, ents)))%nat).
  { unfold DirLayout.encGroup, Sample.encDir. rewrite !length_app.
    cbn [Sample.leBytes length fst snd]. lia. }
  lia.
Qed.

(** The outer loop on the groups of a listing: each group adds its entries,
    under the offset of its header. *)
Lemma dirLoop_enc (gs : list DirLayout.group) :
  forall (k : nat) (tail : list byte) (acc : list directory.Entry.t),
    forallb DirLayout.wfGroup gs = true ->
    directory.dirLoop (length gs + k) (DirLayout.encListing gs ++ tail) acc
    = directory.dirLoop k tail (acc ++ DirLayout.listingOf gs).
Proof.
  induction gs as [|[io ents] gs IH]; intros k tail acc Hwf.
  - cbn. rewrite app_nil_r. reflexivity.
  - cbn [forallb] in Hwf. apply andb_true_iff in Hwf as [Hg Hr].
    unfold DirLayout.wfGroup in Hg. cbn [fst snd] in Hg.
    rewrite !andb_true_iff, !Z.leb_le, !Z.ltb_lt, !Nat.leb_le in Hg.
    destruct Hg as [[[[Hi1 Hi2] Hn1] Hn2] Hents].
    cbn [length Nat.add directory.dirLoop].
    unfold DirLayout.encListing. cbn [map concat].
    fold (DirLayout.encListing gs).
    unfold DirLayout.encGroup at 1, Sample.encDir. cbn [fst snd].
    rewrite <- !app_assoc.
    rewrite (readHeader_enc (Z.of_nat (length ents) - 1) io 1); [|lia|lia|lia].
    cbn [directory.Header.Count directory.Header.InodeOffset
         directory.Header.InodeNumber].
    unfold u32 at 1. rewrite Z.mod_small by lia.
    rewrite entriesLoop_enc.
    + cbn [bind directory.Header.InodeOffset].
      rewrite (IH k tail _ Hr). f_equal.
      unfold DirLayout.listingOf. cbn [map concat].
      rewrite app_assoc. reflexivity.
    + exact Hents.
    + lia.
    + lia.
    + cbn [directory.Header.Count]. lia.
    + rewrite length_app. pose proof (length_encEntries ents). lia.
Qed.

Lemma NewDirectory_buffer (bytes rest : list byte) :
  directory.NewDirectory (bytes ++ rest) (Z.of_nat (length bytes))
  = directory.dirLoop (S (length bytes)) bytes [].
Proof.
  unfold directory.NewDirectory. rewrite Nat2Z.id.
  rewrite firstn_app, Nat.sub_diag, firstn_all. cbn [firstn].
  assert (E : (length bytes - length (bytes ++ rest))%nat = 0%nat)
    by (rewrite length_app; lia).
  rewrite E. cbn [repeat]. rewrite !app_nil_r. reflexivity.
Qed.

(** X17: [NewDirectory] decodes the on-disk layout.  For a listing of
    groups of 1 to 256 entries (offsets and types of 16 bits, names of 1 to
    65535 bytes, header offsets of 32 bits) that is followed, within the
    size given, by 1 to 11 more bytes, it returns the entries of all groups
    in order, each with its name as stored, its type, its in-block offset
    and the inode-table offset of the header of its group; what the reader
    holds beyond the size is not looked at. *)
Theorem NewDirectory_decodes (gs : list DirLayout.group)
    (trailer rest : list byte) :
  forallb DirLayout.wfGroup gs = true ->
  (0 < length trailer < 12)%nat ->
  directory.NewDirectory ((DirLayout.encListing gs ++ trailer) ++ rest)
    (Z.of_nat (length (DirLayout.encListing gs ++ trailer)))
  = Ret (DirLayout.listingOf gs).
Proof.
  intros Hwf Ht. rewrite NewDirectory_buffer.
  pose proof (length_encListing gs) as Hl.
  replace (S (length (DirLayout.encListing gs ++ trailer)))
    with (length gs
          + S (length (DirLayout.encListing gs ++ trailer) - length gs))%nat
    by (rewrite length_app; lia).
  rewrite (dirLoop_enc gs _ trailer [] Hwf).
  cbn [directory.dirLoop app]. unfold directory.readHeader, readFull.
  cbn [Nat.eqb].
  destruct (Nat.eqb_spec (length trailer) 0); [lia|].
  destruct (Nat.ltb_spec (length trailer) 12); [reflexivity|lia].
Qed.

Lemma NewDirectory_decodes_witness :
  directory.NewDirectory
    ((DirLayout.encListing
        [(0, [(32, inode.DirType, "a"); (128, inode.FileType, "b")]);
         (8192, [(160, inode.FileType, "big")])]
      ++ [x00; x00; x00]%byte) ++ [xff; xff]%byte)
    (Z.of_nat
       (length
          (DirLayout.encListing
             [(0, [(32, inode.DirType, "a"); (128, inode.FileType, "b")]);
              (8192, [(160, inode.FileType, "big")])]
           ++ [x00; x00; x00]%byte)))
  = Ret [directory.Entry.mk "a" inode.DirType 32 0;
         directory.Entry.mk "b" inode.FileType 128 0;
         directory.Entry.mk "big" inode.FileType 160 8192].
Proof.
  apply (NewDirectory_decodes
           [(0, [(32, inode.DirType, "a"); (128, inode.FileType, "b")]);
            (8192, [(160, inode.FileType, "big")])]
           [x00; x00; x00]%byte [xff; xff]%byte).
  - reflexivity.
  - cbn. lia.
Defined.

(** X18: [NewDirectory] needs bytes after the last entry.  When the size
    given ends exactly behind the last entry of a well-formed listing, or
    is 0, the loop reads the next header from an empty buffer and the
    result is the error [io.EOF], the entries read so far being dropped. *)
Theorem NewDirectory_exact_size_EOF (gs : list DirLayout.group)
    (rest : list byte) :
  forallb DirLayout.wfGroup gs = true ->
  directory.NewDirectory (DirLayout.encListing gs ++ rest)
    (Z.of_nat (length (DirLayout.encListing gs)))
  = Fail io_EOF.
Proof.
  intros Hwf. rewrite NewDirectory_buffer.
  pose proof (length_encListing gs) as Hl.
  replace (S (length (DirLayout.encListing gs)))
    with (length gs + S (length (DirLayout.encListing gs) - length gs))%nat
    by lia.
  rewrite <- (app_nil_r (DirLayout.encListing gs)) at 2.
  rewrite (dirLoop_enc gs _ [] [] Hwf). reflexivity.
Qed.

Lemma NewDirectory_exact_size_EOF_witness :
  directory.NewDirectory (DirLayout.encListing [] ++ Sample.dirTable) 0
  = Fail io_EOF
  /\ directory.NewDirectory
       (DirLayout.encListing [(0, [(96, inode.FileType, "c")])] ++ [])
       (Z.of_nat (length (DirLayout.encListing [(0, [(96, inode.FileType, "c")])])))
     = Fail io_EOF.
Proof.
  split.
  - apply (NewDirectory_exact_size_EOF [] Sample.dirTable). reflexivity.
  - apply (NewDirectory_exact_size_EOF [(0, [(96, inode.FileType, "c")])] []).
    reflexivity.
Defined.

(** X19: [NewDirectory] comes to an end on every input: whatever the bytes
    and the size, it returns the entries or an error; no count in a header
    makes its loops run without end, and it never panics. *)
Theorem NewDirectory_total (base : list byte) (size : Z) :
  (exists entries, directory.NewDirectory base size = Ret entries)
  \/ (exists e, directory.NewDirectory base size = Fail e).
Proof.
  destruct (NewDirectory_returns base size) as [H1 H2].
  destruct (directory.NewDirectory base size) as [entries|e| |];
    try contradiction; [left|right]; eexists; reflexivity.
Qed.

(** ** inode.ProcessInode *)

Section ProcessInodeProperties.

Variable readDir : list byte -> outcome (inode.Dir.t * list byte).
Variable NewFile : list byte -> Z -> outcome (inode.File.t * list byte).
Variable NewSymlink : list byte -> outcome (inode.Sym.t * list byte).
Variable readDevice : list byte -> outcome (unit * list byte).
Variable readIPC : list byte -> outcome (unit * list byte).
Variable NewExtendedDirectory : list byte -> outcome (inode.ExtDir.t * list byte).
Variable NewExtendedFile : list byte -> Z -> outcome (inode.ExtFile.t * list byte).
Variable NewExtendedSymlink : list byte -> outcome (inode.ExtSym.t * list byte).
Variable readExtDevice : list byte -> outcome (unit * list byte).
Variable readExtIPC : list byte -> outcome (unit * list byte).

Let ProcessInode : list byte -> Z -> outcome (inode.Inode * list byte) :=
  process.ProcessInode readDir NewFile NewSymlink readDevice readIPC
    NewExtendedDirectory NewExtendedFile NewExtendedSymlink readExtDevice
    readExtIPC.

Lemma ProcessInode_unknown (br : list byte) (blockSize : Z) :
  (16 <= length br)%nat ->
  le (firstn 2 br) = 0 \/ 14 < le (firstn 2 br) ->
  ProcessInode br blockSize
  = Ret (process.decodeHeader (firstn 16 br) inode.InfoNil, skipn 16 br).
Proof.
  intros Hlen Hty. unfold ProcessInode, process.ProcessInode.
  rewrite readFull_enough by lia. cbn [bind].
  assert (E : field 0 2 (firstn 16 br) = firstn 2 br).
  { unfold field. cbn [skipn]. rewrite firstn_firstn. reflexivity. }
  rewrite E. set (ty := le (firstn 2 br)) in *.
  unfold inode.DirType, inode.FileType, inode.SymType, inode.BlockDevType,
    inode.CharDevType, inode.FifoType, inode.SocketType, inode.ExtDirType,
    inode.ExtFileType, inode.ExtSymType, inode.ExtBlockDeviceType,
    inode.ExtCharDeviceType, inode.ExtFifoType, inode.ExtSocketType.
  repeat (match goal with
          | |- context [ty =? ?k] => destruct (Z.eqb_spec ty k); [lia|]
          end).
  reflexivity.
Qed.

Lemma ProcessInode_matches (br rest : list byte) (blockSize : Z)
    (i : inode.Inode) :
  ProcessInode br blockSize = Ret (i, rest) -> infoMatches i = true.
Proof.
  unfold ProcessInode, process.ProcessInode. intros H.
  apply bind_Ret in H as ([hdr br1] & _ & H).
  set (ty := le (field 0 2 hdr)) in *.
  repeat (match type of H with
          | (if ty =? ?k then _ else _) = _ =>
            let Hk := fresh "Hk" in
            destruct (Z.eqb_spec ty k) as [Hk|Hk];
            [apply bind_Ret in H as ([body br2] & _ & H); injection H as <- _;
             unfold infoMatches, process.decodeHeader;
             cbn [inode.info inode.Type_]; fold ty; rewrite Hk; reflexivity
            |cbv iota in H]
          end).
  injection H as <- _.
  unfold infoMatches, process.decodeHeader. cbn [inode.info inode.Type_].
  fold ty.
  repeat (match goal with
          | |- context [ty =? ?k] =>
            destruct (Z.eqb_spec ty k); [contradiction|]
          end).
  reflexivity.
Qed.

End ProcessInodeProperties.

(** X20: [ProcessInode] has no case for an unknown inode type.  On a reader
    of 16 bytes or more whose type field is 0 or above 14 it returns,
    without an error, an inode with the decoded header and a nil [Info],
    and reads nothing behind the header, whatever the body decoders are. *)
Theorem ProcessInode_unknown_type :
  forall (readDir : list byte -> outcome (inode.Dir.t * list byte))
         (NewFile : list byte -> Z -> outcome (inode.File.t * list byte))
         (NewSymlink : list byte -> outcome (inode.Sym.t * list byte))
         (readDevice readIPC : list byte -> outcome (unit * list byte))
         (NewExtendedDirectory : list byte -> outcome (inode.ExtDir.t * list byte))
         (NewExtendedFile : list byte -> Z -> outcome (inode.ExtFile.t * list byte))
         (NewExtendedSymlink : list byte -> outcome (inode.ExtSym.t * list byte))
         (readExtDevice readExtIPC : list byte -> outcome (unit * list byte))
         (br : list byte) (blockSize : Z),
    (16 <= length br)%nat ->
    le (firstn 2 br) = 0 \/ 14 < le (firstn 2 br) ->
    process.ProcessInode readDir NewFile NewSymlink readDevice readIPC
      NewExtendedDirectory NewExtendedFile NewExtendedSymlink readExtDevice
      readExtIPC br blockSize
    = Ret (process.decodeHeader (firstn 16 br) inode.InfoNil, skipn 16 br).
Proof. intros. apply ProcessInode_unknown; assumption. Qed.

Lemma ProcessInode_unknown_type_witness :
  SampleInode.ProcessInode (SampleInode.header 15 ++ [x01; x02]%byte) 4096
  = Ret (inode.mkInode inode.InfoNil 15 420 0 0 0 7, [x01; x02]%byte).
Proof.
  apply (ProcessInode_unknown_type SampleInode.readDir
           (fun br _ => SampleInode.noBody br) SampleInode.noBody
           SampleInode.noBody SampleInode.noBody SampleInode.noBody
           (fun br _ => SampleInode.noBody br) SampleInode.noBody
           SampleInode.noBody SampleInode.noBody
           (SampleInode.header 15 ++ [x01; x02]%byte) 4096).
  - cbn. lia.
  - right. vm_compute. reflexivity.
Defined.

Lemma infoMatches_Size1 (a : Archive) (i : inode.Inode)
    (rd : option fileReader.t) (nm : string) (ents : list directory.Entry.t)
    (k : Z) :
  infoMatches i = true -> File1.Size (File1.mkFile a i rd nm ents k) <> Panic.
Proof.
  unfold infoMatches, File1.Size. cbn [File1.in_].
  destruct (inode.info i); intros H;
    destruct (Z.eqb_spec (inode.Type_ i) inode.FileType) as [E|E];
    try discriminate;
    try (rewrite E in H; discriminate H);
    destruct (Z.eqb_spec (inode.Type_ i) inode.ExtFileType) as [E'|E'];
    try discriminate;
    try (rewrite E' in H; discriminate H);
    try (rewrite E, ?orb_true_r in H; discriminate H);
    try (rewrite E', ?orb_true_r in H; discriminate H).
Qed.

Lemma infoMatches_SymlinkPath1 (a : Archive) (i : inode.Inode)
    (rd : option fileReader.t) (nm : string) (ents : list directory.Entry.t)
    (k : Z) :
  infoMatches i = true ->
  File1Ops.SymlinkPath (File1.mkFile a i rd nm ents k) <> Panic.
Proof.
  unfold infoMatches, File1Ops.SymlinkPath. cbn [File1.in_].
  destruct (inode.info i); intros H;
    destruct (Z.eqb_spec (inode.Type_ i) inode.SymType) as [E|E];
    try discriminate;
    try (rewrite E in H; discriminate H);
    destruct (Z.eqb_spec (inode.Type_ i) inode.ExtSymType) as [E'|E'];
    try discriminate;
    try (rewrite E' in H; discriminate H);
    try (rewrite E, ?orb_true_r in H; discriminate H);
    try (rewrite E', ?orb_true_r in H; discriminate H).
Qed.

Lemma infoMatches_Size2 (f : File2.File) :
  infoMatches (File2.in_ (File2.core f)) = true -> File2.Size f <> Panic.
Proof.
  unfold infoMatches, File2.Size.
  set (i := File2.in_ (File2.core f)).
  destruct (inode.info i); intros H;
    destruct (Z.eqb_spec (inode.Type_ i) inode.ExtFileType) as [E|E];
    try discriminate;
    try (rewrite E in H; discriminate H);
    destruct (Z.eqb_spec (inode.Type_ i) inode.FileType) as [E'|E'];
    try discriminate;
    try (rewrite E' in H; discriminate H);
    try (rewrite E, ?orb_true_r in H; discriminate H);
    try (rewrite E', ?orb_true_r in H; discriminate H).
Qed.

Lemma infoMatches_SymlinkPath2 (c : File2.FileCore) :
  infoMatches (File2.in_ c) = true -> File2Ops.SymlinkPath c <> Panic.
Proof.
  unfold infoMatches, File2Ops.SymlinkPath.
  set (i := File2.in_ c).
  destruct (inode.info i); intros H;
    destruct (Z.eqb_spec (inode.Type_ i) inode.SymType) as [E|E];
    try discriminate;
    try (rewrite E in H; discriminate H);
    destruct (Z.eqb_spec (inode.Type_ i) inode.ExtSymType) as [E'|E'];
    try discriminate;
    try (rewrite E' in H; discriminate H);
    try (rewrite E, ?orb_true_r in H; discriminate H);
    try (rewrite E', ?orb_true_r in H; discriminate H).
Qed.

(** X21: the type assertions on [Info] hold for every inode [ProcessInode]
    returns: the dynamic type of [Info] is the one of the inode type, so
    [File.Size] and [SymlinkPath], of the File-based and of the
    FileCore-based sources, do not panic on a file built on such an inode,
    whatever the body decoders are. *)
Theorem ProcessInode_assertions_hold :
  forall (readDir : list byte -> outcome (inode.Dir.t * list byte))
         (NewFile : list byte -> Z -> outcome (inode.File.t * list byte))
         (NewSymlink : list byte -> outcome (inode.Sym.t * list byte))
         (readDevice readIPC : list byte -> outcome (unit * list byte))
         (NewExtendedDirectory : list byte -> outcome (inode.ExtDir.t * list byte))
         (NewExtendedFile : list byte -> Z -> outcome (inode.ExtFile.t * list byte))
         (NewExtendedSymlink : list byte -> outcome (inode.ExtSym.t * list byte))
         (readExtDevice readExtIPC : list byte -> outcome (unit * list byte))
         (br rest : list byte) (blockSize : Z) (i : inode.Inode)
         (a : Archive) (nm dir : string),
    process.ProcessInode readDir NewFile NewSymlink readDevice readIPC
      NewExtendedDirectory NewExtendedFile NewExtendedSymlink readExtDevice
      readExtIPC br blockSize = Ret (i, rest) ->
    infoMatches i = true
    /\ File1.Size (File1.mkFile a i None nm [] 0) <> Panic
    /\ File1Ops.SymlinkPath (File1.mkFile a i None nm [] 0) <> Panic
    /\ File2.Size (File2.mkFile (File2.mkCore a i nm dir) None None 0 0) <> Panic
    /\ File2Ops.SymlinkPath (File2.mkCore a i nm dir) <> Panic.
Proof.
  intros until dir. intros H. apply ProcessInode_matches in H.
  split; [exact H|]. split; [apply infoMatches_Size1, H|].
  split; [apply infoMatches_SymlinkPath1, H|].
  split; [apply infoMatches_Size2, H|apply infoMatches_SymlinkPath2, H].
Qed.

Lemma ProcessInode_assertions_hold_witness :
  SampleInode.ProcessInode
    (SampleInode.header 1 ++ Sample.leBytes 4 0 ++ Sample.leBytes 4 2
     ++ Sample.leBytes 2 60 ++ Sample.leBytes 2 0 ++ Sample.leBytes 4 8) 4096
  = Ret (inode.mkInode (inode.InfoDir (inode.Dir.mk 0 60 0))
           inode.DirType 420 0 0 0 7, [])
  /\ File1.Size
       (File1.mkFile Sample.archive
          (inode.mkInode (inode.InfoDir (inode.Dir.mk 0 60 0))
             inode.DirType 420 0 0 0 7) None "d" [] 0)
     <> Panic.
Proof.
  assert (H : SampleInode.ProcessInode
                (SampleInode.header 1 ++ Sample.leBytes 4 0 ++ Sample.leBytes 4 2
                 ++ Sample.leBytes 2 60 ++ Sample.leBytes 2 0 ++ Sample.leBytes 4 8)
                4096
              = Ret (inode.mkInode (inode.InfoDir (inode.Dir.mk 0 60 0))
                       inode.DirType 420 0 0 0 7, []))
    by (vm_compute; reflexivity).
  destruct (ProcessInode_assertions_hold SampleInode.readDir
              (fun br _ => SampleInode.noBody br) SampleInode.noBody
              SampleInode.noBody SampleInode.noBody SampleInode.noBody
              (fun br _ => SampleInode.noBody br) SampleInode.noBody
              SampleInode.noBody SampleInode.noBody _ _ 4096 _
              Sample.archive "d" "" H) as (_ & H2 & _).
  split.
  - exact H.
  - exact H2.
Defined.

(** ** The Writer: adding, finding and removing files *)

Lemma lookup_assign_same (k : string) (v : list Writer.fileHolder)
    (m : Writer.Structure) :
  Writer.lookup k (Writer.assign k v m) = Some v.
Proof.
  induction m as [|[k' v'] m IH]; cbn.
  - rewrite String.eqb_refl. reflexivity.
  - destruct (String.eqb k k') eqn:E; cbn; rewrite ?String.eqb_refl, ?E; auto.
Qed.

Lemma lookup_assign_other (k k0 : string) (v : list Writer.fileHolder)
    (m : Writer.Structure) :
  String.eqb k0 k = false ->
  Writer.lookup k0 (Writer.assign k v m) = Writer.lookup k0 m.
Proof.
  intros Hne. induction m as [|[k' v'] m IH]; cbn.
  - rewrite Hne. reflexivity.
  - destruct (String.eqb k k') eqn:E; cbn.
    + apply String.eqb_eq in E. subst k'. rewrite Hne. reflexivity.
    + destruct (String.eqb k0 k'); [reflexivity|exact IH].
Qed.

Lemma findHolder_app (name : string) (l : list Writer.fileHolder)
    (h : Writer.fileHolder) :
  Writer.findHolder name (l ++ [h])
  = match Writer.findHolder name l with
    | Some x => Some x
    | None => if String.eqb (Writer.h_name h) name then Some h else None
    end.
Proof.
  induction l as [|y l IH]; cbn; [reflexivity|].
  destruct (String.eqb (Writer.h_name y) name); [reflexivity|exact IH].
Qed.

(** X22: [NewWriterWithOptions] with a compression type from 0 to 6 other
    than 3 (LZO) returns a writer with that compression type and the block
    size 1048576 that holds no file: [Contains] is false and [holderAt] is
    nil for every path. *)
Theorem NewWriterWithOptions_fresh (compressionType : Z) (allowErrors : bool)
    (filepath : string) :
  0 <= compressionType <= 6 -> compressionType <> 3 ->
  exists w,
    Writer.NewWriterWithOptions compressionType allowErrors = Ret w
    /\ Writer.compressionType w = compressionType
    /\ Writer.BlockSize w = 1048576
    /\ Writer.Contains w filepath = false
    /\ Writer.holderAt w filepath = None.
Proof.
  intros Hr H3. unfold Writer.NewWriterWithOptions.
  destruct (Z.ltb_spec compressionType 0); [lia|].
  destruct (Z.gtb_spec compressionType 6); [lia|].
  destruct (Z.eqb_spec compressionType 3); [contradiction|].
  cbn [orb]. eexists. split; [reflexivity|].
  split; [reflexivity|]. split; [reflexivity|].
  unfold Writer.Contains, Writer.holderAt.
  destruct (Writer.path_Split (Writer.absolute filepath)) as [dir name].
  cbn. destruct (String.eqb dir "/"); split; reflexivity.
Qed.

Lemma NewWriterWithOptions_fresh_witness :
  exists w,
    Writer.NewWriter = Ret w
    /\ Writer.compressionType w = GzipCompression
    /\ Writer.BlockSize w = 1048576
    /\ Writer.Contains w "/a/b" = false
    /\ Writer.holderAt w "/a/b" = None.
Proof.
  apply (NewWriterWithOptions_fresh GzipCompression true "/a/b").
  - unfold GzipCompression. lia.
  - discriminate.
Defined.

(** X23: [AddReaderTo] and [Contains].  After [AddReaderTo(p, r)] has
    returned without an error, [Contains(q)] holds exactly when it held
    before or [q], cleaned and made absolute, names the directory and the
    file that [p] names; in particular [Contains(p)] holds, and no file is
    lost. *)
Theorem AddReaderTo_Contains (w w' : Writer.t) (p q : string) (rd : nat) :
  Writer.AddReaderTo w p rd = Ret w' ->
  Writer.Contains w' q
  = Writer.Contains w q
    || (String.eqb (fst (Writer.path_Split (Writer.absolute q)))
          (fst (Writer.path_Split (Writer.absolute p)))
        && String.eqb (snd (Writer.path_Split (Writer.absolute p)))
             (snd (Writer.path_Split (Writer.absolute q)))).
Proof.
  unfold Writer.AddReaderTo. intros H.
  destruct (Writer.Contains w (Writer.absolute p)); [discriminate|].
  destruct (Writer.path_Split (Writer.absolute p)) as [dir name] eqn:Hp.
  injection H as <-. unfold Writer.Contains.
  destruct (Writer.path_Split (Writer.absolute q)) as [dirq nameq].
  cbn [fst snd Writer.withStructure Writer.structure].
  destruct (String.eqb dirq dir) eqn:Ed.
  - apply String.eqb_eq in Ed. subst dirq. rewrite lookup_assign_same.
    rewrite findHolder_app. cbn [Writer.h_name andb].
    destruct (Writer.lookup dir (Writer.structure w)) as [s|]; cbn.
    + destruct (Writer.findHolder nameq s); [reflexivity|].
      destruct (String.eqb name nameq); reflexivity.
    + destruct (String.eqb name nameq); reflexivity.
  - rewrite (lookup_assign_other _ _ _ _ Ed). cbn [andb].
    rewrite orb_false_r. reflexivity.
Qed.

Lemma AddReaderTo_Contains_witness :
  exists w',
    Writer.AddReaderTo SampleWriter.w "x/../y//e" 9 = Ret w'
    /\ Writer.Contains SampleWriter.w "/y/e" = false
    /\ Writer.Contains w' "/y/e" = true
    /\ Writer.Contains w' "/x/d" = true.
Proof.
  eexists. split; [vm_compute; reflexivity|].
  split; [vm_compute; reflexivity|].
  split.
  - rewrite (AddReaderTo_Contains SampleWriter.w _ "x/../y//e" "/y/e" 9);
      vm_compute; reflexivity.
  - rewrite (AddReaderTo_Contains SampleWriter.w _ "x/../y//e" "/x/d" 9);
      vm_compute; reflexivity.
Defined.

Lemma Clean_rooted_Join (comps : list string) :
  comps <> [] -> forallb plainElem comps = true ->
  path.Clean (String "/" (Join comps)) = String "/" (Join comps).
Proof.
  intros Hne Hp. unfold path.Clean.
  replace (String.eqb (String "/" (Join comps)) "") with false by reflexivity.
  replace (HasPrefix (String "/" (Join comps)) "/") with true
    by (unfold HasPrefix; cbn; destruct (Join comps); reflexivity).
  cbn [Split isSlash Ascii.eqb Bool.eqb].
  rewrite (Split_Join comps Hne Hp). cbn [path.cleanElems String.eqb orb].
  rewrite cleanElems_valid by (apply forallb_plain_valid, Hp).
  reflexivity.
Qed.

Lemma absolute_Join (comps : list string) :
  comps <> [] -> forallb plainElem comps = true ->
  Writer.absolute (Join comps) = String "/" (Join comps)
  /\ Writer.absolute (String "/" (Join comps)) = String "/" (Join comps).
Proof.
  intros Hne Hp. unfold Writer.absolute.
  rewrite (Clean_Join comps Hne Hp), (Clean_rooted_Join comps Hne Hp).
  destruct (Join_not_special comps Hne Hp) as (_ & _ & H3 & _). rewrite H3.
  split; [reflexivity|].
  unfold HasPrefix. cbn. destruct (Join comps); reflexivity.
Qed.

(** X24: on a path of plain names [AddReaderTo] refuses a second file at
    the same place: it returns the error "File already exists at" with the
    absolute path exactly when [Contains] holds of the path, and returns
    the extended writer otherwise. *)
Theorem AddReaderTo_refuses_existing (w : Writer.t) (comps : list string)
    (rd : nat) :
  comps <> [] -> forallb plainElem comps = true ->
  (if Writer.Contains w (Join comps)
   then Writer.AddReaderTo w (Join comps) rd
        = Fail (errOther ("File already exists at " ++ String "/" (Join comps)))
   else returns (Writer.AddReaderTo w (Join comps) rd) = true).
Proof.
  intros Hne Hp. destruct (absolute_Join comps Hne Hp) as [Ha Haa].
  assert (E : Writer.Contains w (Writer.absolute (Join comps))
              = Writer.Contains w (Join comps)).
  { unfold Writer.Contains. rewrite Ha, Haa. reflexivity. }
  unfold Writer.AddReaderTo. rewrite E, Ha.
  destruct (Writer.Contains w (Join comps)); [reflexivity|].
  destruct (Writer.path_Split _). reflexivity.
Qed.

Lemma AddReaderTo_refuses_existing_witness :
  Writer.AddReaderTo SampleWriter.w (Join ["x"; "d"]) 9
  = Fail (errOther "File already exists at /x/d")
  /\ returns (Writer.AddReaderTo SampleWriter.w (Join ["x"; "e"]) 9) = true.
Proof.
  split.
  - apply (AddReaderTo_refuses_existing SampleWriter.w ["x"; "d"] 9).
    + discriminate.
    + reflexivity.
  - apply (AddReaderTo_refuses_existing SampleWriter.w ["x"; "e"] 9).
    + discriminate.
    + reflexivity.
Defined.

(** *** Remove with a plain path *)

Lemma noMeta_app (a b : string) :
  noMeta a = true -> noMeta b = true -> noMeta (a ++ b) = true.
Proof.
  induction a as [|c a IH]; cbn [String.append noMeta]; [auto|].
  rewrite !andb_true_iff. intros [Hc Ha] Hb. split; [exact Hc|auto].
Qed.

Lemma noMeta_Join (comps : list string) :
  forallb plainElem comps = true -> noMeta (Join comps) = true.
Proof.
  induction comps as [|x comps IH]; [reflexivity|].
  cbn [forallb]. rewrite andb_true_iff. intros [Hx Hr].
  apply plainElem_parts in Hx as (_ & _ & Hm & _).
  destruct comps as [|y comps]; [exact Hm|].
  change (Join (x :: y :: comps)) with (x ++ String "/" (Join (y :: comps)))%string.
  apply noMeta_app; [exact Hm|]. cbn [noMeta]. rewrite (IH Hr). reflexivity.
Qed.

Lemma noMeta_Split (s : string) :
  noMeta s = true -> forallb noMeta (Split s) = true.
Proof.
  induction s as [|c s IH]; [reflexivity|].
  cbn [noMeta Split]. rewrite andb_true_iff. intros [Hc Hs].
  specialize (IH Hs).
  destruct (isSlash c); [cbn; exact IH|].
  destruct (Split s) as [|x xs]; cbn in *; rewrite ?Hc; [reflexivity|].
  apply andb_true_iff in IH as [Hx Hxs]. rewrite Hx, Hxs. reflexivity.
Qed.

Lemma noMeta_last (l : list string) :
  forallb noMeta l = true -> noMeta (last l "") = true.
Proof.
  induction l as [|x l IH]; [reflexivity|].
  cbn [forallb]. rewrite andb_true_iff. intros [Hx Hl].
  destruct l as [|y l]; [exact Hx|]. apply IH, Hl.
Qed.

Lemma noMeta_substring (s : string) :
  forall n m, noMeta s = true -> noMeta (String.substring n m s) = true.
Proof.
  induction s as [|c s IH]; intros n m H.
  - destruct n, m; reflexivity.
  - cbn [noMeta] in H. apply andb_true_iff in H as [Hc Hs].
    destruct n as [|n]; cbn [String.substring].
    + destruct m as [|m]; [reflexivity|].
      cbn [noMeta]. rewrite Hc, (IH 0%nat m Hs). reflexivity.
    + apply IH, Hs.
Qed.

Lemma noMeta_path_Split (p : string) :
  noMeta p = true ->
  noMeta (fst (Writer.path_Split p)) = true
  /\ noMeta (snd (Writer.path_Split p)) = true.
Proof.
  intros H. unfold Writer.path_Split, path.dirPart, path.lastElem. cbn [fst snd].
  split; [apply noMeta_substring, H|apply noMeta_last, noMeta_Split, H].
Qed.

Lemma removeLoop_none (name : string) (files : list Writer.fileHolder) :
  forall (i : nat) (s : list Writer.fileHolder) (found : bool),
    noMeta name = true ->
    WriterSpec.hasName name files = false ->
    Writer.removeLoop name files i s found = Ret (s, found).
Proof.
  induction files as [|h files IH]; intros i s found Hm Hn; [reflexivity|].
  cbn [Writer.removeLoop]. rewrite (Match_plain _ _ Hm).
  unfold WriterSpec.hasName in Hn. cbn [Writer.findHolder] in Hn.
  rewrite String.eqb_sym.
  destruct (String.eqb (Writer.h_name h) name); [discriminate|].
  apply IH; assumption.
Qed.

Lemma replaceAt_app {A : Type} (pre : list A) (x h : A) (post : list A) :
  Writer.replaceAt (length pre) x (pre ++ h :: post) = pre ++ x :: post.
Proof.
  induction pre as [|y pre IH]; [reflexivity|]. cbn. f_equal. exact IH.
Qed.

Lemma last_app_cons {A : Type} (pre : list A) (h d : A) (post : list A) :
  last (pre ++ h :: post) d = last (h :: post) d.
Proof.
  induction pre as [|y pre IH]; [reflexivity|].
  cbn [app]. rewrite <- IH. destruct (pre ++ h :: post) eqn:E; [|reflexivity].
  destruct pre; discriminate.
Qed.

Lemma last_default {A : Type} (l : list A) (d d' : A) :
  l <> [] -> last l d = last l d'.
Proof.
  induction l as [|x l IH]; [contradiction|]. intros _.
  destruct l as [|y l]; [reflexivity|]. cbn [last] in *. apply IH. discriminate.
Qed.

(** The loop of [Remove] on a directory without two holders of one name,
    for a plain name. *)
Lemma removeLoop_plain (name : string) (rest : list Writer.fileHolder) :
  forall (pre : list Writer.fileHolder) (found : bool),
    noMeta name = true ->
    Writer.distinctNames rest = true ->
    Writer.removeLoop name rest (length pre) (pre ++ rest) found
    = Ret (pre ++ WriterSpec.removeNamed name rest,
           found || WriterSpec.hasName name rest).
Proof.
  induction rest as [|h post IH]; intros pre found Hm Hd.
  - cbn. rewrite orb_false_r. reflexivity.
  - cbn [Writer.removeLoop WriterSpec.removeNamed]. rewrite (Match_plain _ _ Hm).
    cbn [Writer.distinctNames] in Hd.
    destruct (Writer.findHolder (Writer.h_name h) post) eqn:Hf; [discriminate|].
    unfold WriterSpec.hasName at 1. cbn [Writer.findHolder].
    rewrite String.eqb_sym.
    destruct (String.eqb (Writer.h_name h) name) eqn:E.
    + apply String.eqb_eq in E. subst name. rewrite orb_true_r.
      assert (Hnone : WriterSpec.hasName (Writer.h_name h) post = false)
        by (unfold WriterSpec.hasName; rewrite Hf; reflexivity).
      assert (Hlt : (length pre <? length (pre ++ h :: post))%nat = true).
      { apply Nat.ltb_lt. rewrite length_app. cbn [length]. lia. }
      rewrite Hlt, replaceAt_app, last_app_cons.
      destruct post as [|z post'].
      * cbn [last]. rewrite removelast_last. cbn [Writer.removeLoop].
        rewrite app_nil_r.
        destruct (1 <? length (pre ++ [h]))%nat eqn:H1; [reflexivity|].
        apply Nat.ltb_ge in H1. rewrite length_app in H1. cbn [length] in H1.
        destruct pre; [reflexivity|cbn [length] in H1; lia].
      * assert (H1 : (1 <? length (pre ++ h :: z :: post'))%nat = true).
        { apply Nat.ltb_lt. rewrite length_app. cbn [length]. lia. }
        rewrite H1, removeLoop_none by assumption.
        rewrite removelast_app by discriminate.
        change (last (h :: z :: post') h) with (last (z :: post') h).
        reflexivity.
    + replace (S (length pre)) with (length (pre ++ [h]))
        by (rewrite length_app; cbn [length]; lia).
      replace (pre ++ h :: post) with ((pre ++ [h]) ++ post)
        by (rewrite <- app_assoc; reflexivity).
      rewrite (IH (pre ++ [h]) found Hm Hd).
      rewrite <- app_assoc. reflexivity.
Qed.

Lemma removeDirs_plain (dir name : string) (m : Writer.Structure) :
  forall found : bool,
    noMeta dir = true -> noMeta name = true ->
    forallb (fun e => Writer.distinctNames (snd e)) m = true ->
    Writer.removeDirs dir name m found
    = Ret (WriterSpec.removeFrom dir name m,
           found || WriterSpec.foundIn dir name m).
Proof.
  induction m as [|[k v] m IH]; intros found Hd Hn Hall.
  - cbn. rewrite orb_false_r. reflexivity.
  - cbn [forallb snd] in Hall. apply andb_true_iff in Hall as [Hv Hr].
    cbn [Writer.removeDirs]. rewrite (Match_plain _ _ Hd).
    cbn [WriterSpec.removeFrom WriterSpec.foundIn map existsb fst snd].
    destruct (String.eqb dir k).
    + pose proof (removeLoop_plain name v [] found Hn Hv) as Hl.
      cbn [length app] in Hl. rewrite Hl. cbn [bind].
      rewrite (IH _ Hd Hn Hr). cbn [bind andb].
      rewrite orb_assoc. reflexivity.
    + cbn [bind]. rewrite (IH _ Hd Hn Hr). reflexivity.
Qed.

Lemma wellFormed_distinct (m : Writer.Structure) :
  Writer.wellFormed m = true ->
  forallb (fun e => Writer.distinctNames (snd e)) m = true.
Proof.
  induction m as [|[k v] m IH]; [reflexivity|].
  cbn [Writer.wellFormed forallb snd].
  destruct (Writer.lookup k m); [discriminate|].
  rewrite !andb_true_iff. intros [Hv Hm]. auto.
Qed.

Lemma foundIn_absent (dir name : string) (m : Writer.Structure) :
  Writer.lookup dir m = None -> WriterSpec.foundIn dir name m = false.
Proof.
  induction m as [|[k v] m IH]; [reflexivity|].
  cbn [Writer.lookup WriterSpec.foundIn existsb fst snd].
  destruct (String.eqb dir k); [discriminate|]. exact IH.
Qed.

Lemma foundIn_lookup (dir name : string) (m : Writer.Structure) :
  Writer.wellFormed m = true ->
  WriterSpec.foundIn dir name m
  = match Writer.lookup dir m with
    | Some v => WriterSpec.hasName name v
    | None => false
    end.
Proof.
  induction m as [|[k v] m IH]; [reflexivity|].
  cbn [Writer.wellFormed Writer.lookup WriterSpec.foundIn existsb fst snd].
  destruct (Writer.lookup k m) eqn:Hk; [discriminate|].
  rewrite andb_true_iff. intros [_ Hm].
  destruct (String.eqb dir k) eqn:E.
  - apply String.eqb_eq in E. subst k. cbn [andb].
    fold (WriterSpec.foundIn dir name m).
    rewrite (foundIn_absent dir name m Hk). apply orb_false_r.
  - cbn [andb orb]. apply IH, Hm.
Qed.

Lemma lookup_removeFrom (dir name k : string) (m : Writer.Structure) :
  Writer.lookup k (WriterSpec.removeFrom dir name m)
  = match Writer.lookup k m with
    | Some v =>
      Some (if String.eqb dir k then WriterSpec.removeNamed name v else v)
    | None => None
    end.
Proof.
  induction m as [|[k' v] m IH]; [reflexivity|].
  cbn [WriterSpec.removeFrom map fst snd]. fold (WriterSpec.removeFrom dir name m).
  destruct (String.eqb dir k') eqn:Ed; cbn [Writer.lookup fst snd];
    destruct (String.eqb k k') eqn:Ek; try exact IH.
  - apply String.eqb_eq in Ek. subst k'. rewrite Ed. reflexivity.
  - apply String.eqb_eq in Ek. subst k'. rewrite Ed. reflexivity.
Qed.

Lemma hasName_cons (q : string) (h : Writer.fileHolder)
    (l : list Writer.fileHolder) :
  WriterSpec.hasName q (h :: l)
  = String.eqb (Writer.h_name h) q || WriterSpec.hasName q l.
Proof.
  unfold WriterSpec.hasName. cbn [Writer.findHolder].
  destruct (String.eqb (Writer.h_name h) q); reflexivity.
Qed.

Lemma hasName_app (q : string) (a b : list Writer.fileHolder) :
  WriterSpec.hasName q (a ++ b)
  = WriterSpec.hasName q a || WriterSpec.hasName q b.
Proof.
  induction a as [|h a IH]; [reflexivity|].
  cbn [app]. rewrite !hasName_cons, IH, orb_assoc. reflexivity.
Qed.

Lemma hasName_rotate (q : string) (z : Writer.fileHolder)
    (l : list Writer.fileHolder) (d : Writer.fileHolder) :
  WriterSpec.hasName q (last (z :: l) d :: removelast (z :: l))
  = WriterSpec.hasName q (z :: l).
Proof.
  assert (E : z :: l = removelast (z :: l) ++ [last (z :: l) d])
    by (apply app_removelast_last; discriminate).
  rewrite E at 3.
  rewrite hasName_cons, hasName_app, hasName_cons.
  unfold WriterSpec.hasName at 3. cbn [Writer.findHolder].
  rewrite orb_false_r. apply orb_comm.
Qed.

Lemma hasName_removeNamed (q name : string) (v : list Writer.fileHolder) :
  Writer.distinctNames v = true ->
  WriterSpec.hasName q (WriterSpec.removeNamed name v)
  = WriterSpec.hasName q v && negb (String.eqb q name).
Proof.
  induction v as [|h rest IH]; intros Hd; [reflexivity|].
  cbn [Writer.distinctNames] in Hd.
  destruct (Writer.findHolder (Writer.h_name h) rest) eqn:Hf; [discriminate|].
  cbn [WriterSpec.removeNamed]. rewrite (hasName_cons q h rest).
  destruct (String.eqb (Writer.h_name h) name) eqn:E.
  - apply String.eqb_eq in E. subst name.
    assert (Hrest : WriterSpec.hasName q
                      (match rest with
                       | [] => []
                       | _ :: _ => last rest h :: removelast rest
                       end) = WriterSpec.hasName q rest).
    { destruct rest as [|z l]; [reflexivity|]. apply hasName_rotate. }
    rewrite Hrest. rewrite (String.eqb_sym q).
    destruct (String.eqb (Writer.h_name h) q) eqn:Eq.
    + apply String.eqb_eq in Eq. subst q.
      unfold WriterSpec.hasName. rewrite Hf. reflexivity.
    + cbn. rewrite andb_true_r. reflexivity.
  - rewrite hasName_cons, (IH Hd).
    destruct (String.eqb (Writer.h_name h) q) eqn:Eq.
    + apply String.eqb_eq in Eq. subst q. rewrite E. reflexivity.
    + reflexivity.
Qed.

(** X25: [Remove] on a path of plain names, in a writer with one holder per
    name in each directory.  It returns true exactly when [Contains] held
    of the path, and afterwards [Contains(q)] holds exactly when it held
    before and [q], cleaned and made absolute, names another place than the
    path: the file is gone and every other file is still there. *)
Theorem Remove_plain (w : Writer.t) (comps : list string) (q : string) :
  Writer.wellFormed (Writer.structure w) = true ->
  comps <> [] -> forallb plainElem comps = true ->
  exists w',
    Writer.Remove w (Join comps) = Ret (w', Writer.Contains w (Join comps))
    /\ Writer.Contains w' q
       = Writer.Contains w q && negb (WriterSpec.samePlace q (Join comps))
    /\ Writer.Contains w' (Join comps) = false.
Proof.
  intros Hwf Hne Hp.
  destruct (absolute_Join comps Hne Hp) as [Ha _].
  assert (Hm : noMeta (Writer.absolute (Join comps)) = true).
  { rewrite Ha. cbn [noMeta]. rewrite (noMeta_Join comps Hp). reflexivity. }
  destruct (noMeta_path_Split _ Hm) as [Hmd Hmn].
  assert (Hgen : forall q',
    Writer.Contains
      (Writer.withStructure w
         (WriterSpec.removeFrom
            (fst (Writer.path_Split (Writer.absolute (Join comps))))
            (snd (Writer.path_Split (Writer.absolute (Join comps))))
            (Writer.structure w))) q'
    = Writer.Contains w q' && negb (WriterSpec.samePlace q' (Join comps))).
  { intros q'. unfold Writer.Contains, WriterSpec.samePlace, WriterSpec.place.
    destruct (Writer.path_Split (Writer.absolute (Join comps))) as [dir name].
    destruct (Writer.path_Split (Writer.absolute q')) as [dirq nameq].
    cbn [fst snd Writer.withStructure Writer.structure].
    rewrite lookup_removeFrom.
    destruct (Writer.lookup dirq (Writer.structure w)) as [v|] eqn:Hl;
      [|reflexivity].
    rewrite (String.eqb_sym dirq dir).
    destruct (String.eqb dir dirq) eqn:Ed.
    - assert (Hdv : Writer.distinctNames v = true).
      { pose proof (wellFormed_distinct _ Hwf) as Hall.
        rewrite forallb_forall in Hall.
        clear - Hl Hall. revert Hl.
        induction (Writer.structure w) as [|[k v'] m IH]; [discriminate|].
        cbn [Writer.lookup]. destruct (String.eqb dirq k).
        - intros E. injection E as <-. apply (Hall (k, v')). left. reflexivity.
        - intros E. apply IH; [|exact E].
          intros x Hx. apply Hall. right. exact Hx. }
      pose proof (hasName_removeNamed nameq name v Hdv) as Hh.
      unfold WriterSpec.hasName in Hh. rewrite Hh. reflexivity.
    - cbn [andb negb]. rewrite andb_true_r. reflexivity. }
  unfold Writer.Remove.
  destruct (Writer.path_Split (Writer.absolute (Join comps))) as [dir name] eqn:Hs.
  cbn [fst snd] in *.
  rewrite (removeDirs_plain dir name _ false Hmd Hmn (wellFormed_distinct _ Hwf)).
  cbn [bind orb]. eexists. split; [|split].
  - rewrite (foundIn_lookup dir name _ Hwf).
    unfold Writer.Contains. rewrite Hs. reflexivity.
  - apply Hgen.
  - rewrite Hgen. unfold WriterSpec.samePlace.
    rewrite !String.eqb_refl. cbn. apply andb_false_r.
Qed.

Lemma Remove_plain_witness :
  exists w',
    Writer.Remove SampleWriter.w (Join ["a"])
    = Ret (w', Writer.Contains SampleWriter.w (Join ["a"]))
    /\ Writer.Contains w' "/x/d"
       = Writer.Contains SampleWriter.w "/x/d"
         && negb (WriterSpec.samePlace "/x/d" (Join ["a"]))
    /\ Writer.Contains w' (Join ["a"]) = false.
Proof.
  apply (Remove_plain SampleWriter.w ["a"] "/x/d").
  - reflexivity.
  - discriminate.
  - reflexivity.
Defined.

(** The writer of the example after [Remove("a")]: c has taken the place of
    a in the root. *)
Lemma Remove_plain_sample :
  exists w',
    Writer.Remove SampleWriter.w "a" = Ret (w', true)
    /\ map Writer.h_name
         (match Writer.lookup "/" (Writer.structure w') with
          | Some s => s
          | None => []
          end) = ["c"; "b"].
Proof. eexists. split; [vm_compute; reflexivity|reflexivity]. Qed.

(** *** Remove with a pattern *)

Lemma place_root_file (name : string) :
  fs.validElem name = true -> path.hasSlash name = false ->
  Writer.path_Split (Writer.absolute (String "/" name)) = ("/", name).
Proof.
  intros Hv Hs.
  assert (Hc : path.Clean (String "/" name) = String "/" name).
  { unfold path.Clean.
    replace (String.eqb (String "/" name) "") with false by reflexivity.
    replace (HasPrefix (String "/" name) "/") with true
      by (unfold HasPrefix; cbn; destruct name; reflexivity).
    cbn [Split isSlash Ascii.eqb Bool.eqb]. rewrite (Split_plain name Hs).
    cbn [path.cleanElems String.eqb orb].
    unfold fs.validElem in Hv. rewrite !andb_true_iff, !negb_true_iff in Hv.
    destruct Hv as [[H1 H2] H3]. rewrite H1, H2, H3. reflexivity. }
  unfold Writer.absolute. rewrite Hc.
  replace (HasPrefix (String "/" name) "/") with true
    by (unfold HasPrefix; cbn; destruct name; reflexivity).
  unfold Writer.path_Split, path.dirPart, path.lastElem.
  cbn [Split isSlash Ascii.eqb Bool.eqb]. rewrite (Split_plain name Hs).
  cbn [last String.length]. f_equal.
  replace (S (String.length name) - String.length name)%nat with 1%nat by lia.
  cbn [String.substring]. destruct name; reflexivity.
Qed.

(** X26: [Remove] with a pattern can panic.  In a directory that holds
    three files of which the pattern matches the first and the third but
    not the second, the removal of the first shortens the slice of the
    directory to two holders, and the removal of the third then assigns to
    index 2 of it: index out of range. *)
Theorem Remove_pattern_panics (w : Writer.t) (pattern : string)
    (h1 h2 h3 : Writer.fileHolder) (rest : Writer.Structure) :
  Writer.structure w = ("/", [h1; h2; h3]) :: rest ->
  fs.validElem pattern = true -> path.hasSlash pattern = false ->
  path.Match pattern (Writer.h_name h1) = Ret true ->
  path.Match pattern (Writer.h_name h2) = Ret false ->
  path.Match pattern (Writer.h_name h3) = Ret true ->
  Writer.Remove w (String "/" pattern) = Panic.
Proof.
  intros Hw Hv Hs H1 H2 H3. unfold Writer.Remove.
  rewrite (place_root_file pattern Hv Hs), Hw.
  cbn [Writer.removeDirs].
  replace (path.Match "/" "/") with (@Ret bool true) by reflexivity.
  cbn [Writer.removeLoop]. rewrite H1. cbn [length Nat.ltb Nat.leb].
  cbn [Writer.replaceAt last removelast]. rewrite H2, H3.
  reflexivity.
Qed.

Lemma Remove_pattern_panics_witness :
  Writer.Remove
    (Writer.mk [("/", [SampleWriter.holder 1 "/" "a1"; SampleWriter.holder 2 "/" "b";
                       SampleWriter.holder 3 "/" "a2"])]
       [] [] GzipCompression 1048576 true)
    "/a*"
  = Panic.
Proof.
  apply (Remove_pattern_panics _ "a*" (SampleWriter.holder 1 "/" "a1")
           (SampleWriter.holder 2 "/" "b") (SampleWriter.holder 3 "/" "a2") []);
    reflexivity.
Defined.

(** ** The file reader on fragment-only files *)

(** X27: a fragment-only [fileReader] whose fragment is shorter than 2^63
    bytes.  The calls of [Read] to end-of-stream deliver the fragment;
    [WriteTo] writes the same bytes and returns their number; and [WriteTo]
    does not look at the read position: after a call of [Read], it still
    writes the whole fragment. *)
Theorem fileReader_fragOnly_Read_WriteTo (f : fileReader.t) (n fuel : nat)
    (bufs : nat -> nat) :
  fileReader.fragOnly f = true ->
  fileReader.read f = 0 ->
  Z.of_nat (length (fileReader.bytesOf (fileReader.fragmentData f)))
    < 9223372036854775808 ->
  (forall j, (0 < bufs j)%nat) ->
  (length (fileReader.bytesOf (fileReader.fragmentData f)) < fuel)%nat ->
  let frag := fileReader.bytesOf (fileReader.fragmentData f) in
  fileReader.readAll fuel f bufs = Ret frag
  /\ fileReader.WriteTo f = Ret (frag, Z.of_nat (length frag), None)
  /\ exists out err f',
       fileReader.Read f n = Ret (out, err, f')
       /\ fileReader.WriteTo f' = Ret (frag, Z.of_nat (length frag), None).
Proof.
  intros Hfo Hrd Hb Hpos Hfuel frag. split; [|split].
  - rewrite (readAll_fragOnly fuel f 0 bufs); auto; lia.
  - apply WriteTo_fragOnly, Hfo.
  - unfold fileReader.Read. rewrite Hfo, Hrd. fold frag. unfold slice.
    destruct (Z.leb_spec 0 0); [|lia].
    destruct (Z.leb_spec 0 (Z.of_nat (length frag))); [|lia].
    destruct (Z.leb_spec (Z.of_nat (length frag)) (Z.of_nat (length frag)));
      [|lia].
    cbn [andb bind].
    destruct (Buffer_Read _ n) as [out err]. do 3 eexists.
    split; [reflexivity|].
    rewrite WriteTo_fragOnly by exact Hfo. reflexivity.
Qed.

Lemma fileReader_fragOnly_Read_WriteTo_witness :
  fileReader.newFileReader Sample.archive Sample.helloInode
  = Ret sampleHelloReader
  /\ fileReader.readAll 11 sampleHelloReader (fun _ => 3%nat)
     = Ret Sample.helloworld
  /\ fileReader.WriteTo sampleHelloReader = Ret (Sample.helloworld, 10, None)
  /\ exists out err f',
       fileReader.Read sampleHelloReader 4 = Ret (out, err, f')
       /\ fileReader.WriteTo f' = Ret (Sample.helloworld, 10, None).
Proof.
  split; [reflexivity|].
  apply (fileReader_fragOnly_Read_WriteTo sampleHelloReader 4 11
           (fun _ => 3%nat)).
  - reflexivity.
  - reflexivity.
  - cbn. lia.
  - intros _. lia.
  - cbn. lia.
Defined.

(** ** Directories whose listing cannot be decoded *)

Lemma File2_dir_not_file (f : File2.FileCore) :
  File2.IsDir f = true -> File2.IsFile f = false.
Proof.
  unfold File2.IsFile, File2.IsDir.
  rewrite orb_true_iff, orb_false_iff, !Z.eqb_eq, !Z.eqb_neq.
  unfold inode.DirType, inode.ExtDirType, inode.FileType, inode.ExtFileType.
  lia.
Qed.

(** X28: [AsFile] drops the error of [readDirFromInode].  For a directory
    inode whose listing cannot be read or decoded, it still returns a file,
    with a nil directory, and [ReadDir] on that file returns the error
    "File is not a directory" for every count. *)
Theorem AsFile_undecodable_directory (f : File2.FileCore) (e : error) (n : Z) :
  File2.IsDir f = true ->
  File1.readDirFromInode (File2.r f) (File2.in_ f) = Fail e ->
  exists file,
    File2.AsFile f = Ret file
    /\ File2.directory file = None
    /\ File2.ReadDir file n = Fail errNotDirectory.
Proof.
  intros Hd He. unfold File2.AsFile.
  rewrite Hd, He, (File2_dir_not_file f Hd). cbn [bind].
  eexists. split; [reflexivity|]. split; reflexivity.
Qed.

Lemma AsFile_undecodable_directory_witness :
  exists file,
    File2.AsFile
      (File2.mkCore Sample.archive
         (Sample.dirInode 0 (Z.of_nat (length Sample.dirTable))) "" "/")
    = Ret file
    /\ File2.directory file = None
    /\ File2.ReadDir file (-1) = Fail errNotDirectory.
Proof.
  apply (AsFile_undecodable_directory
           (File2.mkCore Sample.archive
              (Sample.dirInode 0 (Z.of_nat (length Sample.dirTable))) "" "/")
           io_EOF (-1)).
  - reflexivity.
  - vm_compute. reflexivity.
Defined.

(** ** FileFS.ReadDir *)

(** X29: [FileFS.ReadDir] and [FileFS.Open] agree on paths of plain names:
    [ReadDir(name)] returns what [File.ReadDir(-1)] returns on the file
    [Open(name)] returns; and [ReadDir] of "" or "." lists the file of the
    file system itself. *)
Theorem FileFS_ReadDir_of_Open (f : File2.FileCore) (comps : list string)
    (file : File2.File) :
  comps <> [] -> forallb plainElem comps = true ->
  File2.FileFS_Open f (Join comps) = Ret file ->
  File2Ops.FileFS_ReadDir f (Join comps)
  = (let* (res, _) := File2.ReadDir file (-1) in Ret res)
  /\ File2Ops.FileFS_ReadDir f "."
     = (let* root := File2.AsFile f in
        let* (res, _) := File2.ReadDir root (-1) in Ret res)
  /\ File2Ops.FileFS_ReadDir f "" = File2Ops.FileFS_ReadDir f ".".
Proof.
  intros Hne Hp Ho. split; [|split; reflexivity].
  unfold File2Ops.FileFS_ReadDir. cbn [File2.FSReadDir].
  fold (cleaned (Join comps)).
  destruct (Join_not_special _ Hne Hp) as (H1 & H2 & _).
  rewrite (cleaned_Join _ Hne Hp), H1, H2, (ValidPath_Join _ Hne Hp).
  cbn [orb negb]. unfold File2.FileFS_Open in Ho. rewrite Ho. reflexivity.
Qed.

Lemma FileFS_ReadDir_of_Open_witness :
  exists file out,
    File2.FileFS_Open SampleRoot.root2 (Join ["a"; "b"]) = Ret file
    /\ File2Ops.FileFS_ReadDir SampleRoot.root2 (Join ["a"; "b"])
       = Ret (out, None)
    /\ map File2.Name out = ["c"].
Proof.
  assert (Ho : exists file,
             File2.FileFS_Open SampleRoot.root2 (Join ["a"; "b"]) = Ret file)
    by (eexists; vm_compute; reflexivity).
  destruct Ho as [file Ho].
  destruct (FileFS_ReadDir_of_Open SampleRoot.root2 ["a"; "b"] file
              ltac:(discriminate) eq_refl Ho) as (Hr & _).
  exists file. eexists. split; [exact Ho|].
  split; vm_compute; reflexivity.
Defined.

(** ** Absolute paths *)

Lemma Open2_cleaned (fuel : nat) (f : File2.FileCore) (n1 n2 : string) :
  cleaned n1 = cleaned n2 -> File2.Open fuel f n1 = File2.Open fuel f n2.
Proof.
  intros E. destruct fuel as [|fuel]; [reflexivity|].
  cbn [File2.Open]. fold (cleaned n1) (cleaned n2). rewrite E. reflexivity.
Qed.

(** X30: a path of plain names with a slash in front.  The FileCore-based
    [FileFS.Open] cleans the path and drops the slash: it returns the file
    that [Open] of the path without the slash returns.  The File-based
    [FileFS.Open] validates the path as given and refuses it with
    [fs.ErrInvalid]. *)
Theorem Open_absolute_path (f1 : File1.File) (f2 : File2.FileCore)
    (comps : list string) (file : File2.File) :
  comps <> [] -> forallb plainElem comps = true ->
  File2.FileFS_Open f2 (Join comps) = Ret file ->
  File2.FileFS_Open f2 (String "/" (Join comps)) = Ret file
  /\ File1.FileFS_Open f1 (String "/" (Join comps))
     = Fail (PathError "open" (String "/" (Join comps)) fs_ErrInvalid).
Proof.
  intros Hne Hp Ho. split.
  - unfold File2.FileFS_Open.
    rewrite (Open2_cleaned _ f2 (String "/" (Join comps)) (Join comps)).
    + apply Open2_plain; auto.
      * pose proof (Join_length comps Hp). cbn [String.length]. lia.
      * apply (Open2_plain_walk comps f2 _ file Hne Hp Ho).
    + unfold cleaned.
      rewrite (Clean_rooted_Join comps Hne Hp), (Clean_Join comps Hne Hp).
      destruct (Join_not_special comps Hne Hp) as (_ & _ & H3 & _).
      rewrite (TrimPrefix_none _ _ H3).
      unfold TrimPrefix. cbn [String.prefix].
      destruct (ascii_dec "/" "/") as [_|n]; [|contradiction].
      replace (String.prefix "" (Join comps)) with true
        by (destruct (Join comps); reflexivity).
      cbn [String.length String.substring Nat.sub].
      rewrite Nat.sub_0_r.
      clear. induction (Join comps) as [|c s IH]; [reflexivity|].
      cbn [String.length String.substring]. f_equal. exact IH.
  - unfold File1.FileFS_Open. cbn [File1.Open].
    replace (String.eqb (String "/" (Join comps)) "") with false by reflexivity.
    rewrite ValidPath_rooted by (unfold HasPrefix; cbn;
                                 destruct (Join comps); reflexivity).
    reflexivity.
Qed.

Lemma Open_absolute_path_witness :
  exists file,
    File2.FileFS_Open SampleRoot.root2 (Join ["a"; "b"; "c"]) = Ret file
    /\ File2.FileFS_Open SampleRoot.root2 (String "/" (Join ["a"; "b"; "c"]))
       = Ret file
    /\ File1.FileFS_Open SampleRoot.root1 (String "/" (Join ["a"; "b"; "c"]))
       = Fail (PathError "open" (String "/" (Join ["a"; "b"; "c"])) fs_ErrInvalid).
Proof.
  assert (Ho : exists file,
             File2.FileFS_Open SampleRoot.root2 (Join ["a"; "b"; "c"]) = Ret file)
    by (eexists; vm_compute; reflexivity).
  destruct Ho as [file Ho]. exists file. split; [exact Ho|].
  apply (Open_absolute_path SampleRoot.root1 SampleRoot.root2 ["a"; "b"; "c"] file).
  - discriminate.
  - reflexivity.
  - exact Ho.
Defined.
